(** * Hybrid retrieval, rank fusion and reranking of [services/query_service.py]

    A shallow embedding of the retrieval pipeline ([rewrite_query],
    [retrieve_and_rerank], [answer_question]) and of the endpoint
    [run_submission] of [main.py], with the properties the specification
    states about them.

    Conventions.
    - A Python [str] is a [string]: a sequence of characters with code points
      below 256.
    - A Python [int] is a [Z]; a position produced by [enumerate] or [range]
      is a [nat].
    - A Python [float] (and a numpy float) is a value of the carrier of a
      [PyFloat] structure: the development is generic in the arithmetic, and
      is instantiated with exact rationals and with binary64 numbers.
    - A [dict] is an association list in insertion order, which is the order
      [dict.values()] iterates in.
    - The calls that leave the process (Gemini, Pinecone, the embedding and
      cross-encoder models, the BM25 library, the file system) are read from
      an environment of responses; each call is logged in a trace. *)

From Stdlib Require Import List ZArith QArith Bool Lia String Ascii.
From Stdlib Require Import Permutation Sorted DecimalString Floats.
Import ListNotations.

Local Open Scope string_scope.
Local Open Scope Z_scope.

(** ** Python built-ins *)

Module Py.

(** *** Strings *)

Definition ord (c : ascii) : N := N_of_ascii c.

Definition between (lo hi n : N) : bool := ((lo <=? n) && (n <=? hi))%N.

(** [str.lower] on one character: A-Z, and the upper-case letters of Latin-1. *)
Definition lower_char (c : ascii) : ascii :=
  let n := ord c in
  if between 65 90 n || between 192 214 n || between 216 222 n
  then ascii_of_N (n + 32) else c.

Fixpoint lower (s : string) : string :=
  match s with
  | EmptyString => EmptyString
  | String c s' => String (lower_char c) (lower s')
  end.

(** The class [\w] of [re] on [str] patterns: alphanumeric characters and the
    underscore. *)
Definition is_word (c : ascii) : bool :=
  let n := ord c in
  between 48 57 n || between 65 90 n || (n =? 95)%N || between 97 122 n
  || (n =? 170)%N || between 178 179 n || (n =? 181)%N || between 185 186 n
  || between 188 190 n || between 192 214 n || between 216 246 n
  || between 248 255 n.

(** [str.isspace] on one character. *)
Definition is_space (c : ascii) : bool :=
  let n := ord c in
  between 9 13 n || between 28 32 n || (n =? 133)%N || (n =? 160)%N.

Definition flush (cur : string) : list string :=
  match cur with EmptyString => [] | _ => [cur] end.

(** [re.findall(r'\b\w+\b', s)]: a match starts at a word boundary, takes
    word characters greedily and ends at a word boundary, so the matches are
    the maximal runs of word characters, left to right.  [cur] is the run
    being read. *)
Fixpoint findall_words (cur s : string) : list string :=
  match s with
  | EmptyString => flush cur
  | String c s' =>
      if is_word c then findall_words (cur ++ String c EmptyString) s'
      else flush cur ++ findall_words EmptyString s'
  end.

Fixpoint lstrip (s : string) : string :=
  match s with
  | EmptyString => EmptyString
  | String c s' => if is_space c then lstrip s' else s
  end.

(** What [rstrip] keeps of [c :: s], given what it keeps of [s]. *)
Definition rstrip_cons (c : ascii) (kept : string) : string :=
  match kept with
  | EmptyString => if is_space c then EmptyString else String c EmptyString
  | _ => String c kept
  end.

Fixpoint rstrip (s : string) : string :=
  match s with
  | EmptyString => EmptyString
  | String c s' => rstrip_cons c (rstrip s')
  end.

(** [s.strip()] *)
Definition strip (s : string) : string := rstrip (lstrip s).

(** [str(n)] for an [int], and for a position. *)
Definition str_int (n : Z) : string := NilZero.string_of_int (Z.to_int n).
Definition str_nat (n : nat) : string := NilZero.string_of_uint (Nat.to_uint n).

(** *** Lists *)

(** [l[:n]]: a negative bound counts from the end. *)
Definition slice_to {A : Type} (n : Z) (l : list A) : list A :=
  if n <? 0 then firstn (Z.to_nat (Z.of_nat (List.length l) + n)) l
  else firstn (Z.to_nat n) l.

(** [range(n)] *)
Definition range (n : nat) : list nat := seq 0 n.

(** [for i, x in enumerate(l): s = body(i, x, s)], counting from [start]. *)
Fixpoint for_enumerate {A S : Type} (body : nat -> A -> S -> S)
    (start : nat) (l : list A) (s : S) : S :=
  match l with
  | [] => s
  | x :: l' => for_enumerate body (Datatypes.S start) l' (body start x s)
  end.

(** *** Dictionaries with [str] keys, in insertion order *)

Definition dict (V : Type) : Type := list (string * V).

Definition contains {V : Type} (d : dict V) (k : string) : bool :=
  existsb (fun kv => String.eqb (fst kv) k) d.

Fixpoint get {V : Type} (d : dict V) (k : string) : option V :=
  match d with
  | [] => None
  | (k', v) :: d' => if String.eqb k' k then Some v else get d' k
  end.

(** [d[k] = v]: in place when [k] is a key of [d], at the end otherwise. *)
Fixpoint set {V : Type} (d : dict V) (k : string) (v : V) : dict V :=
  match d with
  | [] => [(k, v)]
  | (k', v') :: d' =>
      if String.eqb k' k then (k', v) :: d' else (k', v') :: set d' k v
  end.

Definition keys {V : Type} (d : dict V) : list string := map fst d.
Definition values {V : Type} (d : dict V) : list V := map snd d.

End Py.

(** ** Floating-point numbers

    The operations the pipeline performs on floats: the [int] 0 that a score
    starts from, [+], the true division [/] of two [int]s, and the comparison
    [<] that sorting uses. *)

Class PyFloat : Type := {
  num : Type;
  zero : num;
  add : num -> num -> num;
  truediv : Z -> Z -> num;
  lt : num -> num -> bool
}.

(** [<] is a strict weak order.  This is the case of exact arithmetic, and of
    IEEE numbers other than NaN. *)
Class PyFloatOrder (F : PyFloat) : Prop := {
  lt_asym : forall a b : num, lt a b = true -> lt b a = false;
  lt_negtrans :
    forall a b c : num, lt a b = false -> lt b c = false -> lt a c = false
}.

(** Exact rational arithmetic. *)
Definition QExact : PyFloat := {|
  num := Q;
  zero := 0%Q;
  add := Qplus;
  truediv := fun a b => (inject_Z a / inject_Z b)%Q;
  lt := fun a b => negb (Qle_bool b a)
|}.

(** binary64 arithmetic.  [truediv] is the division of the two converted
    operands, which is Python's [int / int] for operands in [0, 2^53). *)
Definition Binary64 : PyFloat := {|
  num := float;
  zero := PrimFloat.of_uint63 (Uint63.of_Z 0);
  add := PrimFloat.add;
  truediv := fun a b =>
    PrimFloat.div (PrimFloat.of_uint63 (Uint63.of_Z a))
                  (PrimFloat.of_uint63 (Uint63.of_Z b));
  lt := PrimFloat.ltb
|}.

(** ** [sorted(l, key=key, reverse=True)] *)

Section Sorted.

Context {F : PyFloat} {A : Type}.
Variable key : A -> num.

(** One step of a stable ascending sort: [x] comes before everything in [l]
    in the input, so it is placed before the first element that is not
    smaller. *)
Fixpoint insert (x : A) (l : list A) : list A :=
  match l with
  | [] => [x]
  | y :: l' => if lt (key y) (key x) then y :: insert x l' else x :: y :: l'
  end.

Fixpoint sort_ascending (l : list A) : list A :=
  match l with
  | [] => []
  | x :: l' => insert x (sort_ascending l')
  end.

(** With [reverse=True] the list is reversed, sorted by a stable ascending
    sort and reversed again: elements with equal keys keep their order. *)
Definition sorted_reverse (l : list A) : list A :=
  rev (sort_ascending (rev l)).

(** Two keys tie when neither is smaller than the other. *)
Definition tie (a b : num) : bool := negb (lt a b) && negb (lt b a).

(** No element is followed by one with a greater key. *)
Definition descending (l : list A) : Prop :=
  StronglySorted (fun x y => lt (key x) (key y) = false) l.

(** No element is followed by one with a smaller key. *)
Definition ascending (l : list A) : Prop :=
  StronglySorted (fun x y => lt (key y) (key x) = false) l.

End Sorted.

(** ** Exceptions, results and effects *)

(** An exception: its class and [str(e)]. *)
Inductive exn : Type := Exn (cls msg : string).

Definition str_exn (e : exn) : string := let (_, msg) := e in msg.

Definition KeyError (k : string) : exn := Exn "KeyError" ("'" ++ k ++ "'").
Definition IndexError : exn := Exn "IndexError" "list index out of range".
Definition AttributeError : exn :=
  Exn "AttributeError" "'NoneType' object has no attribute 'get_scores'".

Inductive result (A : Type) : Type :=
| Ok (a : A)
| Raise (e : exn).

Arguments Ok {A} a.
Arguments Raise {A} e.

(** [d[k]] *)
Definition getitem {V : Type} (d : Py.dict V) (k : string) : result V :=
  match Py.get d k with
  | Some v => Ok v
  | None => Raise (KeyError k)
  end.

(** [[f(x) for x in l]], left to right, stopping at the first exception. *)
Fixpoint comprehension {A B : Type} (f : A -> result B) (l : list A)
    : result (list B) :=
  match l with
  | [] => Ok []
  | x :: l' =>
      match f x with
      | Raise e => Raise e
      | Ok y =>
          match comprehension f l' with
          | Raise e => Raise e
          | Ok ys => Ok (y :: ys)
          end
      end
  end.

(** [sep.join(l)] *)
Fixpoint join (sep : string) (l : list string) : string :=
  match l with
  | [] => EmptyString
  | [x] => x
  | x :: l' => x ++ sep ++ join sep l'
  end.

Definition newline : string := String (ascii_of_nat 10) EmptyString.

Section Pipeline.

Context {F : PyFloat}.

(** *** Data *)

Definition metadata : Type := Py.dict string.

(** A match returned by the vector index: [hit['id']], [hit['score']],
    [hit['metadata']]. *)
Record hit : Type := {
  hit_id : string;
  hit_score : num;
  hit_metadata : metadata
}.

(** A keyword hit [{'id': ..., 'score': ..., 'metadata': {'full_content': ...}}]. *)
Record bm25_hit : Type := {
  bm25_id : string;
  bm25_score : num;
  bm25_full_content : string
}.

Definition bm25_metadata (h : bm25_hit) : metadata :=
  [("full_content", bm25_full_content h)].

(** A value of [fused_results]: [{'score': ..., 'metadata': ...}]. *)
Record fused : Type := {
  score : num;
  fused_metadata : metadata
}.

(** The BM25 index, through its method [get_scores]. *)
Definition bm25 : Type := list string -> list num.

(** The response of the generation model; reading [response.text] can raise. *)
Record response : Type := { text : result string }.

(** The result of [pinecone_index.query]: its ['matches'], when it has the key. *)
Definition query_response : Type := option (list hit).

(** The Pinecone index handle, through its method [query(vector, top_k)]. *)
Definition pinecone_index : Type := list num -> Z -> result query_response.

(** The module-level variables [bm25_index] and [corpus]. *)
Record state : Type := {
  bm25_index : option bm25;
  corpus : list string
}.

Definition initial : state := {| bm25_index := None; corpus := [] |}.

(** The calls that leave the process. *)
Inductive event : Type :=
| OpenJson (filepath : string)
| NewBM25Okapi (tokenized_corpus : list (list string))
| GenerateContent (prompt : string)
| PineconeIndex (name : string)
| Encode (sentence : string)
| Query (top_k : Z)
| Predict (pairs : list (string * string))
| ProcessDocument (url : string).

(** What the calls answer. *)
Record env : Type := {
  PINECONE_INDEX_NAME : string;
  json_load : string -> result (list (Py.dict string));
  BM25Okapi : list (list string) -> result bm25;
  generate_content : string -> result response;
  pc_Index : string -> result pinecone_index;
  encode : string -> result (list num);
  predict : list (string * string) -> result (list num);
  hash : string -> Z;
  process_and_embed_document : string -> result unit
}.

(** *** The monad of the pipeline: module state, exceptions, and the trace of
    the calls *)

Record run (A : Type) : Type := Run {
  trace : list event;
  outcome : result A;
  final : state
}.

Arguments Run {A} trace outcome final.
Arguments trace {A} r.
Arguments outcome {A} r.
Arguments final {A} r.

Definition M (A : Type) : Type := state -> run A.

Definition ret {A : Type} (a : A) : M A := fun s => Run [] (Ok a) s.

Definition lift {A : Type} (r : result A) : M A := fun s => Run [] r s.

Definition bind {A B : Type} (m : M A) (f : A -> M B) : M B :=
  fun s =>
    let r := m s in
    match outcome r with
    | Raise e => Run (trace r) (Raise e) (final r)
    | Ok a =>
        let r' := f a (final r) in
        Run (trace r ++ trace r') (outcome r') (final r')
    end.

(** An external call: logged, then answered. *)
Definition call {A : Type} (ev : event) (answer : result A) : M A :=
  fun s => Run [ev] answer s.

Definition get_state : M state := fun s => Run [] (Ok s) s.

Definition set_corpus (c : list string) : M unit :=
  fun s => Run [] (Ok tt) {| bm25_index := bm25_index s; corpus := c |}.

Definition set_bm25_index (i : bm25) : M unit :=
  fun s => Run [] (Ok tt) {| bm25_index := Some i; corpus := corpus s |}.

(** [try: m except Exception as e: handler(e)] *)
Definition try_except {A : Type} (m : M A) (handler : exn -> M A) : M A :=
  fun s =>
    let r := m s in
    match outcome r with
    | Ok a => r
    | Raise e =>
        let r' := handler e (final r) in
        Run (trace r ++ trace r') (outcome r') (final r')
    end.

(** [[f(x) for x in l]] when [f] has effects. *)
Fixpoint for_each {A B : Type} (f : A -> M B) (l : list A) : M (list B) :=
  match l with
  | [] => ret []
  | x :: l' =>
      bind (f x) (fun y => bind (for_each f l') (fun ys => ret (y :: ys)))
  end.

End Pipeline.

Arguments Run {F A} trace outcome final.
Arguments trace {F A} r.
Arguments outcome {F A} r.
Arguments final {F A} r.

Declare Scope py_scope.
Delimit Scope py_scope with py.
Notation "x <- m ;; k" := (bind m (fun x => k))
  (at level 61, m at next level, right associativity) : py_scope.
Notation "m ;; k" := (bind m (fun _ => k))
  (at level 61, right associativity) : py_scope.

(** ** [services/query_service.py] *)

Section QueryService.

Context {F : PyFloat}.
Variable E : env.

Local Open Scope py_scope.

(** [simple_tokenizer(text)] *)
Definition simple_tokenizer (text : string) : list string :=
  Py.findall_words EmptyString (Py.lower text).

(** [REWRITE_PROMPT_TEMPLATE.format(question=question)] *)
Definition REWRITE_PROMPT_TEMPLATE (question : string) : string :=
  "
You are an expert at rewriting user questions to be more effective for a vector database search.
Your task is to take the user's question and expand it into a more descriptive, detailed query that contains more contextual keywords.
Do not answer the question. Only provide the rewritten query.

Original Question: " ++ question ++ "

Rewritten Query:
".

(** [ANSWER_PROMPT_TEMPLATE.format(context=context, question=question)] *)
Definition ANSWER_PROMPT_TEMPLATE (context question : string) : string :=
  "
You are an expert assistant for a document query system. Your task is to try to answer the user's question based on the provided context.
Your answer must be concise and directly address the question, using only the most relevant sentences from the context.
Do not use any external knowledge. But use your common sense. If the context does not contain the answer, you must state that you don't have enough information.

CONTEXT:
---
" ++ context ++ "
---

QUESTION:
" ++ question ++ "

ANSWER:
".

(** [build_bm25_index_from_file(filepath)].  [json_load] stands for opening
    the file and [json.load]. *)
Definition build_bm25_index_from_file (filepath : string) : M unit :=
  data <- call (OpenJson filepath) (json_load E filepath) ;;
  docs <- lift (comprehension
                  (fun item => getitem item "ground_truth_context") data) ;;
  set_corpus docs ;;
  let tokenized_corpus := map simple_tokenizer docs in
  index <- call (NewBM25Okapi tokenized_corpus)
                (BM25Okapi E tokenized_corpus) ;;
  set_bm25_index index.

(** [rewrite_query(question)] *)
Definition rewrite_query (question : string) : M string :=
  let prompt := REWRITE_PROMPT_TEMPLATE question in
  try_except
    (response <- call (GenerateContent prompt) (generate_content E prompt) ;;
     t <- lift (text response) ;;
     let rewritten := Py.strip t in
     ret rewritten)
    (fun _ => ret question).

(** *** 1. Keyword search (BM25) *)

(** The hit built for position [i] of the corpus; [corpus[i]] raises when [i]
    is out of range. *)
Definition bm25_hit_of (corpus : list string) (bm25_scores : list num)
    (i : nat) : result bm25_hit :=
  match nth_error corpus i with
  | Some doc =>
      Ok {| bm25_id := "bm25_" ++ Py.str_nat i;
            bm25_score := nth i bm25_scores zero;
            bm25_full_content := doc |}
  | None => Raise IndexError
  end.

Definition keyword_search (index : bm25) (corpus : list string)
    (rewritten_question : string) (top_k : Z) : result (list bm25_hit) :=
  let tokenized_query := simple_tokenizer rewritten_question in
  let bm25_scores := index tokenized_query in
  let bm25_results :=
    Py.slice_to top_k
      (sorted_reverse (fun i => nth i bm25_scores zero)
                      (Py.range (List.length bm25_scores))) in
  comprehension (bm25_hit_of corpus bm25_scores) bm25_results.

(** *** 3. Reciprocal Rank Fusion *)

(** The RRF ranking constant. *)
Definition k : Z := 60.

(** The body of both loops, for the hit of rank [rank] whose identifier is
    [doc_id]:
    [if doc_id not in fused_results: fused_results[doc_id] = {...};
     fused_results[doc_id]['score'] += 1 / (k + rank + 1)]. *)
Definition rrf_add (doc_id : string) (md : metadata) (rank : nat)
    (fused_results : Py.dict fused) : Py.dict fused :=
  let fused_results :=
    if Py.contains fused_results doc_id then fused_results
    else Py.set fused_results doc_id {| score := zero; fused_metadata := md |} in
  match Py.get fused_results doc_id with
  | Some item =>
      Py.set fused_results doc_id
        {| score := add (score item) (truediv 1 (k + Z.of_nat rank + 1));
           fused_metadata := fused_metadata item |}
  | None => fused_results
  end.

(** The identifier of a keyword hit: [f"content_{hash(doc_content)}"]. *)
Definition content_id (doc_content : string) : string :=
  "content_" ++ Py.str_int (hash E doc_content).

Definition fuse (pinecone_hits : list hit) (bm25_hits : list bm25_hit)
    : Py.dict fused :=
  let fused_results :=
    Py.for_enumerate
      (fun rank hit => rrf_add (hit_id hit) (hit_metadata hit) rank)
      0 pinecone_hits [] in
  Py.for_enumerate
    (fun rank hit =>
       rrf_add (content_id (bm25_full_content hit)) (bm25_metadata hit) rank)
    0 bm25_hits fused_results.

Definition sorted_fused_results (fused_results : Py.dict fused) : list fused :=
  sorted_reverse score (Py.values fused_results).

(** *** 4. Re-ranking and final selection *)

(** [top_fused_hits]: the contents of the first [top_k + 5] fused results. *)
Definition top_fused_hits (top_k : Z) (sorted_fused : list fused)
    : result (list string) :=
  let rerank_pool_size := top_k + 5 in
  comprehension (fun item => getitem (fused_metadata item) "full_content")
                (Py.slice_to rerank_pool_size sorted_fused).

(** [sorted(zip(top_fused_hits, scores), key=lambda x: x[1], reverse=True)] *)
Definition rerank (pool : list string) (scores : list num)
    : list (string * num) :=
  sorted_reverse snd (combine pool scores).

(** [[content for content, score in reranked_results[:final_k]]] *)
Definition final_context (reranked_results : list (string * num))
    (final_k : Z) : list string :=
  map fst (Py.slice_to final_k reranked_results).

(** Lines 99 to 147 of [retrieve_and_rerank]: the two searches, the fusion,
    the re-ranking and the selection, for a rewritten question. *)
Definition search_and_rerank (index : pinecone_index)
    (question rewritten_question : string) (top_k final_k : Z)
    : M (list string) :=
  s <- get_state ;;
  okapi <- lift (match bm25_index s with
                 | Some i => Ok i
                 | None => Raise AttributeError
                 end) ;;
  bm25_hits <- lift (keyword_search okapi (corpus s) rewritten_question top_k) ;;
  query_embedding <- call (Encode rewritten_question)
                          (encode E rewritten_question) ;;
  pinecone_results <- call (Query top_k) (index query_embedding top_k) ;;
  let pinecone_hits :=
    match pinecone_results with Some matches => matches | None => [] end in
  let sorted_fused := sorted_fused_results (fuse pinecone_hits bm25_hits) in
  pool <- lift (top_fused_hits top_k sorted_fused) ;;
  match pool with
  | [] => ret []
  | _ =>
      let rerank_pairs := map (fun content => (question, content)) pool in
      scores <- call (Predict rerank_pairs) (predict E rerank_pairs) ;;
      ret (final_context (rerank pool scores) final_k)
  end.

(** [if bm25_index is None: build_bm25_index_from_file()] *)
Definition ensure_bm25_index : M unit :=
  s <- get_state ;;
  match bm25_index s with
  | None => build_bm25_index_from_file "golden_dataset.json"
  | Some _ => ret tt
  end.

(** [retrieve_and_rerank(question, top_k, final_k)] *)
Definition retrieve_and_rerank (question : string) (top_k final_k : Z)
    : M (list string) :=
  ensure_bm25_index ;;
  index <- call (PineconeIndex (PINECONE_INDEX_NAME E))
                (pc_Index E (PINECONE_INDEX_NAME E)) ;;
  rewritten_question <- rewrite_query question ;;
  search_and_rerank index question rewritten_question top_k final_k.

(** [generate_answer_with_gemini(question, context_chunks)] *)
Definition generate_answer_with_gemini (question : string)
    (context_chunks : list string) : M string :=
  match context_chunks with
  | [] =>
      ret "I could not find any relevant information in the document to answer this question."
  | _ =>
      let context_str := join (newline ++ newline) context_chunks in
      let prompt := ANSWER_PROMPT_TEMPLATE context_str question in
      try_except
        (response <- call (GenerateContent prompt)
                          (generate_content E prompt) ;;
         t <- lift (text response) ;;
         ret (Py.strip t))
        (fun _ =>
           ret "Error: Could not generate an answer due to an API issue.")
  end.

(** [answer_question(question)], with the default [top_k] and [final_k]. *)
Definition answer_question (question : string) : M string :=
  retrieved_context <- retrieve_and_rerank question 10 3 ;;
  generate_answer_with_gemini question retrieved_context.

(** ** [main.py] *)

(** What the endpoint answers: the response, or the [HTTPException] raised. *)
Inductive http : Type :=
| RunResponse (answers : list string)
| HTTPException (status_code : Z) (detail : string).

(** [run_submission(request, authorization)] *)
Definition run_submission (documents : string) (questions : list string)
    (authorization : option string) : M http :=
  let authorized :=
    match authorization with
    | Some a => String.prefix "Bearer " a
    | None => false
    end in
  if negb authorized
  then ret (HTTPException 401
              "Authorization header with Bearer token is required.")
  else
    try_except
      (call (ProcessDocument documents)
            (process_and_embed_document E documents) ;;
       answers <- for_each answer_question questions ;;
       ret (RunResponse answers))
      (fun e =>
         ret (HTTPException 500
                ("An internal error occurred: " ++ str_exn e))).

End QueryService.

Arguments build_bm25_index_from_file : simpl never.
Arguments ensure_bm25_index : simpl never.
Arguments rewrite_query : simpl never.
Arguments search_and_rerank : simpl never.
Arguments retrieve_and_rerank : simpl never.
Arguments answer_question : simpl never.

(** ** The quantities the specification speaks of *)

Section Specification.

Context {F : PyFloat}.

(** The ranks (0-based, counted from [start]) at which [doc_id] occurs in a
    ranked list of identifiers. *)
Fixpoint ranks (doc_id : string) (start : nat) (ids : list string)
    : list nat :=
  match ids with
  | [] => []
  | id :: ids' =>
      if String.eqb id doc_id then start :: ranks doc_id (S start) ids'
      else ranks doc_id (S start) ids'
  end.

(** The contribution of a hit of rank [r]: [1 / (60 + r + 1)]. *)
Definition reciprocal_rank (r : nat) : num := truediv 1 (60 + Z.of_nat r + 1).

(** The sum of the contributions [l], added one by one to [init]. *)
Definition accumulate (init : num) (l : list num) : num := fold_left add l init.

(** The fused score of [doc_id]: the contributions of its ranks in the first
    list, then of its ranks in the second, added to the initial 0. *)
Definition rrf_score (doc_id : string) (ids1 ids2 : list string) : num :=
  accumulate zero
    (map reciprocal_rank (ranks doc_id 0 ids1 ++ ranks doc_id 0 ids2)).

(** The score [d] holds for [doc_id], 0 when it holds none. *)
Definition score_of (d : Py.dict fused) (doc_id : string) : num :=
  match Py.get d doc_id with
  | Some item => score item
  | None => zero
  end.

(** The identifiers the two loops of the fusion use. *)
Definition dense_ids (pinecone_hits : list hit) : list string :=
  map hit_id pinecone_hits.

Definition content_ids (E : env) (bm25_hits : list bm25_hit) : list string :=
  map (fun h => content_id E (bm25_full_content h)) bm25_hits.

(** One loop of the fusion, over hits whose identifier is [id_of] and whose
    metadata is [md_of], the first rank being [start]. *)
Definition rrf_loop {H : Type} (id_of : H -> string) (md_of : H -> metadata)
    (start : nat) (hits : list H) (d : Py.dict fused) : Py.dict fused :=
  Py.for_enumerate (fun rank h => rrf_add (id_of h) (md_of h) rank)
                   start hits d.

(** The question [rewrite_query] returns: the stripped text of the response,
    or the question itself when the call or the reading of the text raises. *)
Definition rewritten (E : env) (question : string) : string :=
  match generate_content E (REWRITE_PROMPT_TEMPLATE question) with
  | Raise _ => question
  | Ok response =>
      match text response with
      | Raise _ => question
      | Ok t => Py.strip t
      end
  end.

(** A computation that leaves the module state as it finds it. *)
Definition reads_only {A : Type} (m : M A) : Prop :=
  forall s : state, final (m s) = s.

(** The number of calls of a kind in a trace. *)
Definition calls (kind : event -> bool) (tr : list event) : nat :=
  List.length (filter kind tr).

Definition is_encode (ev : event) : bool :=
  match ev with Encode _ => true | _ => false end.

Definition is_query (ev : event) : bool :=
  match ev with Query _ => true | _ => false end.

(** Modelled from the spec: the scoring of the BM25 index (section 4.2), which
    the library [rank_bm25] implements and the sources only call.  The score
    of a chunk is the sum over the query terms of the term's contribution to
    the chunk, a term absent from the index contributing zero; the formula of
    one contribution is the parameter [weight]. *)
Definition okapi_scores (weight : string -> list string -> num)
    (tokenized_corpus : list (list string)) : bm25 :=
  fun tokenized_query =>
    map (fun doc => fold_left (fun s q => add s (weight q doc))
                              tokenized_query zero)
        tokenized_corpus.

End Specification.

(** ** Concrete services and inputs *)

Section Services.

Context {F : PyFloat}.

(** A hash function of one process: the text read as a number in base 256. *)
Fixpoint text_value (acc : N) (s : string) : N :=
  match s with
  | EmptyString => acc
  | String c s' => text_value (acc * 256 + Py.ord c) s'
  end.

Definition text_hash (s : string) : Z := Z.of_N (text_value 0 s).

(** The item of the dataset file for one passage. *)
Definition item (context : string) : Py.dict string :=
  [("question", "q"); ("ground_truth_context", context)].

(** The match the vector index returns for the section upserted at position
    [i] ([upsert_dense_embeddings] names it [dense_i]). *)
Definition dense (i : nat) (content : string) : hit :=
  {| hit_id := "dense_" ++ Py.str_nat i;
     hit_score := zero;
     hit_metadata := [("document_name", "policy.pdf");
                      ("section_title", "Section");
                      ("full_content", content)] |}.

(** A match filed under the identifier the keyword branch gives its content. *)
Definition dense_by_content (content : string) : hit :=
  {| hit_id := "content_" ++ Py.str_int (text_hash content);
     hit_score := zero;
     hit_metadata := [("full_content", content)] |}.

Definition keyword (i : nat) (content : string) : bm25_hit :=
  {| bm25_id := "bm25_" ++ Py.str_nat i;
     bm25_score := zero;
     bm25_full_content := content |}.

(** Services that answer the same whatever they are asked. *)
Definition services (dataset : result (list (Py.dict string)))
    (new_index : list (list string) -> result bm25)
    (generated : result response)
    (embedding : result (list num))
    (matches : result query_response)
    (relevance : result (list num)) : env :=
  {| PINECONE_INDEX_NAME := "rag-challenge-index";
     json_load := fun _ => dataset;
     BM25Okapi := new_index;
     generate_content := fun _ => generated;
     pc_Index := fun _ => Ok (fun _ _ => matches);
     encode := fun _ => embedding;
     predict := fun _ => relevance;
     hash := text_hash;
     process_and_embed_document := fun _ => Ok tt |}.

(** A weight of 1 for a term the passage holds, of 0 for another. *)
Definition unit_weight (term : string) (doc : list string) : num :=
  if existsb (String.eqb term) doc then truediv 1 1 else zero.

(** An index with these weights. *)
Definition unit_index (tokenized_corpus : list (list string)) : result bm25 :=
  Ok (okapi_scores unit_weight tokenized_corpus).

(** The passages of the hits of a keyword search. *)
Definition passages (r : result (list bm25_hit)) : result (list string) :=
  match r with
  | Ok hits => Ok (map bm25_full_content hits)
  | Raise e => Raise e
  end.

(** The constructor of [rank_bm25], which divides by the size of the corpus. *)
Definition dividing_index (tokenized_corpus : list (list string))
    : result bm25 :=
  match tokenized_corpus with
  | [] => Raise (Exn "ZeroDivisionError" "division by zero")
  | _ => unit_index tokenized_corpus
  end.

(** The question asked in the runs. *)
Definition asked : string := "What is the waiting period?".

Definition unavailable : exn := Exn "ServiceUnavailable" "503 Service Unavailable".

(** The passage ["alpha beta"] is in the dataset and in the vector index;
    the generation model is down. *)
Definition twice : env :=
  services (Ok [item "alpha beta"]) unit_index (Raise unavailable)
           (Ok [zero]) (Ok (Some [dense 0 "alpha beta"]))
           (Ok [truediv 1 1; truediv 1 1]).

(** The generation model answers blanks. *)
Definition blank : env :=
  services (Ok [item "alpha beta"]) unit_index
           (Ok {| text := Ok "   " |})
           (Ok [zero]) (Ok (Some [])) (Ok [truediv 1 1]).

(** The embedding model is down. *)
Definition no_embedding : env :=
  services (Ok [item "alpha beta"]) unit_index (Raise unavailable)
           (Raise unavailable) (Ok (Some [])) (Ok [truediv 1 1]).

(** The vector index is down. *)
Definition no_vector_index : env :=
  services (Ok [item "alpha beta"]) unit_index (Raise unavailable)
           (Ok [zero]) (Raise unavailable) (Ok [truediv 1 1]).

(** The dataset is empty and so is the vector index; the constructor of the
    BM25 index raises on an empty corpus, or accepts it. *)
Definition empty_raising : env :=
  services (Ok []) dividing_index (Raise unavailable)
           (Ok [zero]) (Ok (Some [])) (Ok []).

Definition empty_accepting : env :=
  services (Ok []) unit_index (Raise unavailable)
           (Ok [zero]) (Ok (Some [])) (Ok []).

(** The scenario of the specification: the keyword search returns A, B, C and
    the dense search returns B, D, A, under one scheme of identifiers. *)
Definition scenario_keyword : list bm25_hit :=
  [keyword 0 "A"; keyword 1 "B"; keyword 2 "C"].

Definition scenario_dense : list hit :=
  [dense_by_content "B"; dense_by_content "D"; dense_by_content "A"].

(** The same, the dense hits named as the vector index names them. *)
Definition scenario_dense_ids : list hit :=
  [dense 1 "B"; dense 3 "D"; dense 0 "A"].

Definition contents (l : list fused) : list (result string) :=
  map (fun x => getitem (fused_metadata x) "full_content") l.

End Services.

From Stdlib Require Import DecimalNat FinFun.

(** ** Texts *)

(** Every character of [s] satisfies [p]. *)
Fixpoint every (p : ascii -> bool) (s : string) : bool :=
  match s with
  | EmptyString => true
  | String c s' => p c && every p s'
  end.

(** [str.lower] leaves the character as it is. *)
Definition is_lowered (c : ascii) : bool := Ascii.eqb (Py.lower_char c) c.

Definition not_word (c : ascii) : bool := negb (Py.is_word c).

(** ** Calls *)

(** The calls that build the keyword index. *)
Definition builds_index {F : PyFloat} (ev : event) : bool :=
  match ev with
  | OpenJson _ | NewBM25Okapi _ => true
  | _ => false
  end.

(** The results [ys] are those [f] gives for the items of [l], one after the
    other, each from the state the one before has left. *)
Fixpoint each_in_turn {F : PyFloat} {A B : Type} (f : A -> M B)
    (l : list A) (s : state) (ys : list B) : Prop :=
  match l, ys with
  | [], [] => True
  | x :: l', y :: ys' =>
      outcome (f x s) = Ok y /\ each_in_turn f l' (final (f x s)) ys'
  | _, _ => False
  end.

(** ** [services/document_parser.py] *)

Module DocumentParser.

(** [s.split()]: the maximal runs of characters that are not whitespace,
    left to right.  [cur] is the run being read. *)
Fixpoint split_runs (cur s : string) : list string :=
  match s with
  | EmptyString => Py.flush cur
  | String c s' =>
      if Py.is_space c then Py.flush cur ++ split_runs EmptyString s'
      else split_runs (cur ++ String c EmptyString) s'
  end.

Definition split (s : string) : list string := split_runs EmptyString s.

Definition HEADING_HIERARCHY : Py.dict Z :=
  [("Title", 0); ("H1", 1); ("H2", 2); ("H3", 3); ("H4", 4); ("H5", 5);
   ("H6", 6)].

(** An item of [labeled_lines], as [item.get] reads it: [None] is a key
    the item does not have. *)
Record labeled_line : Type := {
  label : option string;
  text : option string;
  page : option Z
}.

(** An entry [{'title': ..., 'level': ...}] of [active_heading_stack]. *)
Record heading : Type := {
  title : string;
  level : Z
}.

(** A section; [full_content] is the key [add_full_content_to_sections]
    adds. *)
Record section : Type := {
  document_name : string;
  page_number : option Z;
  section_title : string;
  content : string;
  hierarchy_level : Z;
  full_path : list string;
  full_content : option string
}.

(** [' '.join(current_section['content'].split())] *)
Definition collapse (s : string) : string := join " " (split s).

(** [current_section['content'] = ' '.join(current_section['content'].split())] *)
Definition collapsed (current_section : section) : section :=
  {| document_name := document_name current_section;
     page_number := page_number current_section;
     section_title := section_title current_section;
     content := collapse (content current_section);
     hierarchy_level := hierarchy_level current_section;
     full_path := full_path current_section;
     full_content := full_content current_section |}.

(** [current_section['content'] += f" {text}"] *)
Definition with_body (current_section : section) (text : string) : section :=
  {| document_name := document_name current_section;
     page_number := page_number current_section;
     section_title := section_title current_section;
     content := content current_section ++ " " ++ text;
     hierarchy_level := hierarchy_level current_section;
     full_path := full_path current_section;
     full_content := full_content current_section |}.

(** [while stack and stack[-1]['level'] >= heading_level: stack.pop()], on
    the stack read from its top. *)
Fixpoint pop_from_top (heading_level : Z) (top_first : list heading)
    : list heading :=
  match top_first with
  | [] => []
  | h :: below =>
      if level h >=? heading_level then pop_from_top heading_level below
      else top_first
  end.

Definition pop_headings (heading_level : Z)
    (active_heading_stack : list heading) : list heading :=
  rev (pop_from_top heading_level (rev active_heading_stack)).

(** The variables of the loop of [group_text_into_sections]. *)
Record loop : Type := {
  sections : list section;
  current_section : option section;
  active_heading_stack : list heading
}.

(** [if current_section: (collapse its content); sections.append(current_section)] *)
Definition close (sections : list section) (current_section : option section)
    : list section :=
  match current_section with
  | Some cs => sections ++ [collapsed cs]
  | None => sections
  end.

(** The body of the loop, for one item.  [label in HEADING_HIERARCHY] and
    [HEADING_HIERARCHY[label]] are one lookup. *)
Definition step (pdf_filename : string) (st : loop) (item : labeled_line)
    : loop :=
  let text := Py.strip (match text item with Some t => t | None => "" end) in
  let page_num := page item in
  match text with
  | EmptyString => st
  | _ =>
      match match label item with
            | Some l => Py.get HEADING_HIERARCHY l
            | None => None
            end with
      | Some heading_level =>
          let sections := close (sections st) (current_section st) in
          let active_heading_stack :=
            pop_headings heading_level (active_heading_stack st) in
          let current_section :=
            {| document_name := pdf_filename;
               page_number := page_num;
               section_title := text;
               content := "";
               hierarchy_level := heading_level;
               full_path :=
                 map title active_heading_stack ++ [text];
               full_content := None |} in
          {| sections := sections;
             current_section := Some current_section;
             active_heading_stack :=
               active_heading_stack
               ++ [{| title := text; level := heading_level |}] |}
      | None =>
          match label item, current_section st with
          | Some "Body", Some cs =>
              {| sections := sections st;
                 current_section := Some (with_body cs text);
                 active_heading_stack := active_heading_stack st |}
          | _, _ => st
          end
      end
  end.

(** [group_text_into_sections(labeled_lines, pdf_filename)] *)
Definition group_text_into_sections (labeled_lines : list labeled_line)
    (pdf_filename : string) : list section :=
  let st :=
    fold_left (step pdf_filename) labeled_lines
      {| sections := []; current_section := None;
         active_heading_stack := [] |} in
  close (sections st) (current_section st).

(** [section["full_content"] = f"{path_str}: {section['content']}"] *)
Definition add_full_content (s : section) : section :=
  let path_str := join " > " (full_path s) in
  {| document_name := document_name s;
     page_number := page_number s;
     section_title := section_title s;
     content := content s;
     hierarchy_level := hierarchy_level s;
     full_path := full_path s;
     full_content := Some (path_str ++ ": " ++ content s) |}.

(** [add_full_content_to_sections(sections)] *)
Definition add_full_content_to_sections (sections : list section)
    : list section :=
  map add_full_content sections.

(** What the loop does with an item: it opens a section, it adds to the
    section at hand, or it passes. *)
Definition stripped (item : labeled_line) : string :=
  Py.strip (match text item with Some t => t | None => "" end).

Definition heading_level_of (item : labeled_line) : option Z :=
  match label item with
  | Some l => Py.get HEADING_HIERARCHY l
  | None => None
  end.

Definition is_heading (item : labeled_line) : bool :=
  match stripped item, heading_level_of item with
  | EmptyString, _ => false
  | _, Some _ => true
  | _, None => false
  end.

Definition is_body (item : labeled_line) : bool :=
  match stripped item, label item with
  | EmptyString, _ => false
  | _, Some l => String.eqb l "Body"
  | _, None => false
  end.

(** The sections the loop has opened: those it has closed and the one at
    hand. *)
Definition opened (st : loop) : list section :=
  close (sections st) (current_section st).

(** What a heading gives its section. *)
Definition header (s : section)
    : string * option Z * option Z * string * option string :=
  (section_title s, page_number s, Some (hierarchy_level s),
   document_name s, full_content s).

Definition header_of (pdf_filename : string) (item : labeled_line)
    : string * option Z * option Z * string * option string :=
  (stripped item, page item, heading_level_of item, pdf_filename, None).

(** The levels grow from the bottom of a stack of headings to its top. *)
Definition nested (stack : list heading) : Prop :=
  StronglySorted (fun a b => level a < level b) stack.

(** The words of the text of an item. *)
Definition words (item : labeled_line) : list string := split (stripped item).

(** The headings of a document, in the order of its lines: the entries the
    loop puts on the stack. *)
Definition headings (labeled_lines : list labeled_line) : list heading :=
  flat_map (fun item =>
              match stripped item, heading_level_of item with
              | String _ _, Some heading_level =>
                  [{| title := stripped item; level := heading_level |}]
              | _, _ => []
              end)
           labeled_lines.

(** The ancestors of a heading of level [heading_level] among the headings
    [before] it, in the order of the document: those of a smaller level than
    it and than every heading between them and it. *)
Fixpoint ancestors (before : list heading) (heading_level : Z)
    : list heading :=
  match before with
  | [] => []
  | h :: between =>
      if (level h <? heading_level)
         && forallb (fun h' => level h <? level h') between
      then h :: ancestors between heading_level
      else ancestors between heading_level
  end.

(** The headings that are open after the headings [hs]: those of a smaller
    level than every heading after them. *)
Fixpoint open_headings (hs : list heading) : list heading :=
  match hs with
  | [] => []
  | h :: later =>
      if forallb (fun h' => level h <? level h') later
      then h :: open_headings later
      else open_headings later
  end.

(** The heading of a section, and its path. *)
Definition entry (s : section) : heading * list string :=
  ({| title := section_title s; level := hierarchy_level s |}, full_path s).

(** The headings [hs] that follow the headings [before], each with the
    titles of its ancestors and its own. *)
Fixpoint paths_from (before hs : list heading)
    : list (heading * list string) :=
  match hs with
  | [] => []
  | h :: later =>
      (h, map title (ancestors before (level h)) ++ [title h])%list
      :: paths_from (before ++ [h]) later
  end.

End DocumentParser.

(** *** [parse_document_to_sections] *)

Module Parsing.

Import DocumentParser.

(** [os.path.basename(path)]: what follows the last ['/']. *)
Fixpoint basename_from (cur path : string) : string :=
  match path with
  | EmptyString => cur
  | String c path' =>
      if Ascii.eqb c "/" then basename_from EmptyString path'
      else basename_from (cur ++ String c EmptyString) path'
  end.

Definition basename (path : string) : string := basename_from EmptyString path.

(** A row of the features of a document: the columns ['text'] and
    ['page_num'], the only ones the module reads itself. *)
Record feature_row : Type := {
  row_text : string;
  row_page_num : Z
}.

(** What the calls of the function answer: [joblib.load], the function
    [extract_features_from_pdf], and lines 76 to 90, which hand the rows to
    the model and the label encoder through pandas and return one label for
    each row. *)
Record answers : Type := {
  joblib_load : string -> result unit;
  extract_features_from_pdf : string -> result (list feature_row);
  predictions_labels : list feature_row -> result (list string)
}.

(** The exception of pandas for a column that has not the length of the
    frame. *)
Definition ValueError_length (values index : nat) : exn :=
  Exn "ValueError"
      ("Length of values (" ++ Py.str_nat values
       ++ ") does not match length of index (" ++ Py.str_nat index ++ ")").

(** The loop over [df.iterrows()]. *)
Definition labeled_lines_of (rows : list (feature_row * string))
    : list labeled_line :=
  map (fun row =>
         {| label := Some (snd row);
            text := Some (row_text (fst row));
            page := Some (row_page_num (fst row)) |})
      (filter (fun row => negb (String.eqb (snd row) "Other")) rows).

(** [parse_document_to_sections(pdf_path, model_path, encoder_path)]; the
    result [None] of Python is [Ok None]. *)
Definition parse_document_to_sections (S : answers)
    (pdf_path model_path encoder_path : string)
    : result (option (list section)) :=
  let pdf_filename := basename pdf_path in
  match joblib_load S model_path with
  | Raise _ => Ok None
  | Ok _ =>
  match joblib_load S encoder_path with
  | Raise _ => Ok None
  | Ok _ =>
  match extract_features_from_pdf S pdf_path with
  | Raise e => Raise e
  | Ok [] => Ok None
  | Ok features_list =>
  match predictions_labels S features_list with
  | Raise e => Raise e
  | Ok labels =>
      if negb (List.length labels =? List.length features_list)%nat
      then Raise (ValueError_length (List.length labels)
                                    (List.length features_list))
      else
        let labeled_lines := labeled_lines_of (combine features_list labels) in
        let structured_sections :=
          group_text_into_sections labeled_lines pdf_filename in
        let final_sections :=
          add_full_content_to_sections structured_sections in
        Ok (Some final_sections)
  end end end end.

End Parsing.

(** ** [services/embedding_service.py] *)

Module EmbeddingService.

(** [range(0, stop, step)] *)
Definition range_step (stop : nat) (step : Z) : result (list nat) :=
  if step =? 0
  then Raise (Exn "ValueError" "range() arg 3 must not be zero")
  else if step <? 0 then Ok []
  else
    Ok (map (fun j => (j * Z.to_nat step)%nat)
            (seq 0 (Z.to_nat ((Z.of_nat stop + step - 1) / step)))).

(** [int(x)] for a page number read with [.get]. *)
Definition int (x : option Z) : result Z :=
  match x with
  | Some n => Ok n
  | None =>
      Raise (Exn "TypeError"
               "int() argument must be a string, a bytes-like object or a real number, not 'NoneType'")
  end.

Section Services.

(** A row of the array [embedding_model.encode] returns. *)
Variable embedding : Type.

Record vector_metadata : Type := {
  document_name : string;
  page_number : Z;
  section_title : string;
  full_content : string
}.

(** An entry of [vectors_to_upsert]. *)
Record vector : Type := {
  id : string;
  values : embedding;
  metadata : vector_metadata
}.

(** The handle of an index, through its method [upsert]. *)
Definition index_handle : Type := list vector -> result unit.

(** The calls that leave the process. *)
Inductive event : Type :=
| Download (url local_filename : string)
| Remove (local_filename : string)
| ParseDocument (pdf_path model_path encoder_path : string)
| ListIndexes
| CreateIndex (name : string) (dimension : Z) (region : string)
| OpenIndex (name : string)
| EncodeTexts (texts : list string)
| Upsert (vectors : list vector).

(** What the download of a document comes to: the file is written, or an
    exception is raised, with the file created or not. *)
Inductive download_outcome : Type :=
| Downloaded
| Failed (e : exn) (created : bool).

(** What the calls answer.  [local_filename] is
    [os.path.join(tempfile.gettempdir(), f"{uuid.uuid4()}.pdf")]. *)
Record services : Type := {
  PINECONE_INDEX_NAME : string;
  PINECONE_ENVIRONMENT : string;
  EMBEDDING_DIMENSION : Z;
  local_filename : string;
  download : string -> string -> download_outcome;
  remove : string -> result unit;
  parse_document_to_sections :
    string -> string -> string -> result (option (list DocumentParser.section));
  list_indexes : result (list string);
  create_index : string -> Z -> string -> result unit;
  pc_Index : string -> result index_handle;
  encode : list string -> result (list embedding)
}.

(** *** Exceptions and the trace of the calls *)

Definition W (A : Type) : Type := (list event * result A)%type.

Definition ret {A : Type} (a : A) : W A := ([], Ok a).

Definition lift {A : Type} (r : result A) : W A := ([], r).

Definition call {A : Type} (ev : event) (answer : result A) : W A :=
  ([ev], answer).

Definition bind {A B : Type} (m : W A) (f : A -> W B) : W B :=
  match snd m with
  | Raise e => (fst m, Raise e)
  | Ok a => ((fst m ++ fst (f a))%list, snd (f a))
  end.

(** [for x in l: body(x)] *)
Fixpoint for_in {A : Type} (body : A -> W unit) (l : list A) : W unit :=
  match l with
  | [] => ret tt
  | x :: l' => bind (body x) (fun _ => for_in body l')
  end.

(** [try: m finally: cleanup]: the cleanup runs whatever [m] does, and its
    exception, when it raises one, is the outcome. *)
Definition finally {A : Type} (m : W A) (cleanup : W unit) : W A :=
  ((fst m ++ fst cleanup)%list,
   match snd cleanup with
   | Raise e => Raise e
   | Ok _ => snd m
   end).

Variable S : services.

(** [with temporary_pdf_file(url) as local_pdf_path: body(local_pdf_path)] *)
Definition temporary_pdf_file {A : Type} (url : string)
    (body : string -> W A) : W A :=
  let local_filename := local_filename S in
  let answer := download S url local_filename in
  let exists_ :=
    match answer with
    | Downloaded => true
    | Failed _ created => created
    end in
  finally
    (bind (call (Download url local_filename)
                match answer with
                | Downloaded => Ok tt
                | Failed e _ => Raise e
                end)
          (fun _ => body local_filename))
    (if exists_
     then call (Remove local_filename) (remove S local_filename)
     else ret tt).

(** [get_pinecone_index()] *)
Definition get_pinecone_index : W index_handle :=
  bind (call ListIndexes (list_indexes S)) (fun names =>
  bind (if negb (existsb (String.eqb (PINECONE_INDEX_NAME S)) names)
        then call (CreateIndex (PINECONE_INDEX_NAME S)
                               (EMBEDDING_DIMENSION S)
                               (PINECONE_ENVIRONMENT S))
                  (create_index S (PINECONE_INDEX_NAME S)
                                (EMBEDDING_DIMENSION S)
                                (PINECONE_ENVIRONMENT S))
        else ret tt) (fun _ =>
  call (OpenIndex (PINECONE_INDEX_NAME S))
       (pc_Index S (PINECONE_INDEX_NAME S)))).

(** [section['full_content']] *)
Definition full_content_of (section : DocumentParser.section)
    : result string :=
  match DocumentParser.full_content section with
  | Some c => Ok c
  | None => Raise (KeyError "full_content")
  end.

(** The vector built for the section at the place [idx] of the batch that
    starts at [i]. *)
Definition vector_of (i : nat) (dense_embeddings : list embedding)
    (idx : nat) (section : DocumentParser.section) : result vector :=
  let vector_id := "dense_" ++ Py.str_nat (i + idx) in
  match int (DocumentParser.page_number section) with
  | Raise e => Raise e
  | Ok page =>
  match full_content_of section with
  | Raise e => Raise e
  | Ok content =>
  match nth_error dense_embeddings idx with
  | None => Raise IndexError
  | Some row =>
      Ok {| id := vector_id;
            values := row;
            metadata :=
              {| document_name := DocumentParser.document_name section;
                 page_number := page;
                 section_title := DocumentParser.section_title section;
                 full_content := content |} |}
  end end end.

(** [for idx, section in enumerate(batch_sections): vectors_to_upsert.append(...)] *)
Fixpoint vectors_of (i : nat) (dense_embeddings : list embedding)
    (idx : nat) (batch_sections : list DocumentParser.section)
    : result (list vector) :=
  match batch_sections with
  | [] => Ok []
  | section :: rest =>
      match vector_of i dense_embeddings idx section with
      | Raise e => Raise e
      | Ok v =>
          match vectors_of i dense_embeddings (Datatypes.S idx) rest with
          | Raise e => Raise e
          | Ok vs => Ok (v :: vs)
          end
      end
  end.

(** The body of the loop of [upsert_dense_embeddings], for the batch that
    starts at [i]. *)
Definition upsert_batch (index : index_handle)
    (sections : list DocumentParser.section) (batch_size : Z) (i : nat)
    : W unit :=
  let batch_sections := firstn (Z.to_nat batch_size) (skipn i sections) in
  bind (lift (comprehension full_content_of batch_sections))
       (fun dense_texts =>
  bind (call (EncodeTexts dense_texts) (encode S dense_texts))
       (fun dense_embeddings =>
  bind (lift (vectors_of i dense_embeddings 0 batch_sections))
       (fun vectors_to_upsert =>
  call (Upsert vectors_to_upsert) (index vectors_to_upsert)))).

(** [upsert_dense_embeddings(index, sections, batch_size)] *)
Definition upsert_dense_embeddings (index : index_handle)
    (sections : list DocumentParser.section) (batch_size : Z) : W unit :=
  bind (lift (range_step (List.length sections) batch_size))
       (for_in (upsert_batch index sections batch_size)).

(** [process_and_embed_document(pdf_url)] *)
Definition process_and_embed_document (pdf_url : string) : W unit :=
  let model_path := "models/heading_classifier_model.joblib" in
  let encoder_path := "models/label_encoder.joblib" in
  temporary_pdf_file pdf_url (fun local_pdf_path =>
    bind (call (ParseDocument local_pdf_path model_path encoder_path)
               (parse_document_to_sections S local_pdf_path model_path
                  encoder_path))
         (fun sections =>
    match sections with
    | None | Some [] => ret tt
    | Some sections =>
        bind get_pinecone_index (fun index =>
        upsert_dense_embeddings index sections 50)
    end)).

(** *** What a trace holds *)

(** The batches of vectors sent to the index, in the order of the calls. *)
Fixpoint upserted (tr : list event) : list (list vector) :=
  match tr with
  | [] => []
  | Upsert vectors :: tr' => vectors :: upserted tr'
  | _ :: tr' => upserted tr'
  end.

(** The calls that reach Pinecone. *)
Definition reaches_pinecone (ev : event) : bool :=
  match ev with
  | ListIndexes | CreateIndex _ _ _ | OpenIndex _ | Upsert _ => true
  | _ => false
  end.

(** The vector of the section at the place [p] of the document. *)
Definition sent_for (sections : list DocumentParser.section) (p : nat)
    (v : vector) : Prop :=
  id v = "dense_" ++ Py.str_nat p
  /\ exists section,
       nth_error sections p = Some section
       /\ DocumentParser.full_content section
          = Some (full_content (metadata v))
       /\ DocumentParser.page_number section
          = Some (page_number (metadata v))
       /\ DocumentParser.section_title section = section_title (metadata v)
       /\ DocumentParser.document_name section = document_name (metadata v).

End Services.

Arguments id {embedding} v.
Arguments values {embedding} v.
Arguments metadata {embedding} v.
Arguments Upsert {embedding} vectors.
Arguments EncodeTexts {embedding} texts.
Arguments ListIndexes {embedding}.
Arguments CreateIndex {embedding} name dimension region.
Arguments OpenIndex {embedding} name.
Arguments Download {embedding} url local_filename.
Arguments Remove {embedding} local_filename.
Arguments ParseDocument {embedding} pdf_path model_path encoder_path.
Arguments ret {embedding A} a.
Arguments lift {embedding A} r.
Arguments call {embedding A} ev answer.
Arguments bind {embedding A B} m f.
Arguments for_in {embedding A} body l.
Arguments finally {embedding A} m cleanup.
Arguments upserted {embedding} tr.
Arguments reaches_pinecone {embedding} ev.
Arguments sent_for {embedding} sections p v.
Arguments PINECONE_INDEX_NAME {embedding} s.
Arguments PINECONE_ENVIRONMENT {embedding} s.
Arguments EMBEDDING_DIMENSION {embedding} s.
Arguments local_filename {embedding} s.
Arguments download {embedding} s url local_filename.
Arguments remove {embedding} s local_filename.
Arguments parse_document_to_sections {embedding} s pdf_path model_path
  encoder_path.
Arguments list_indexes {embedding} s.
Arguments create_index {embedding} s name dimension region.
Arguments pc_Index {embedding} s name.
Arguments encode {embedding} s texts.
Arguments vector_of {embedding} i dense_embeddings idx section.
Arguments vectors_of {embedding} i dense_embeddings idx batch_sections.
Arguments upsert_batch {embedding} S index sections batch_size i.
Arguments upsert_dense_embeddings {embedding} S index sections batch_size.
Arguments get_pinecone_index {embedding} S.
Arguments temporary_pdf_file {embedding} S {A} url body.
Arguments process_and_embed_document {embedding} S pdf_url.

End EmbeddingService.

(** ** [services/evaluation_service.py] *)

Module EvaluationService.

(** [s.replace(old, new)], for an [old] that is not empty: the occurrences
    of [old] are replaced from left to right, none overlapping another.
    [skip] is the number of characters of an occurrence still to pass. *)
Fixpoint replace_from (old new : string) (skip : nat) (s : string) : string :=
  match s with
  | EmptyString => EmptyString
  | String c s' =>
      match skip with
      | Datatypes.S k => replace_from old new k s'
      | O =>
          if String.prefix old s
          then new ++ replace_from old new (String.length old - 1) s'
          else String c (replace_from old new 0 s')
      end
  end.

Definition replace (old new s : string) : string := replace_from old new 0 s.

(** [s] holds no backquote. *)
Definition no_backquote (s : string) : bool :=
  every (fun c => negb (Ascii.eqb c "`")) s.

(** The double quote, which delimits the keys in the prompt. *)
Definition quote : string := String (ascii_of_nat 34) EmptyString.

(** [CONSOLIDATED_EVALUATION_PROMPT.format(question=..., context=..., answer=...)] *)
Definition CONSOLIDATED_EVALUATION_PROMPT (question context answer : string)
    : string :=
  "
You are an expert evaluator for a Retrieval-Augmented Generation (RAG) system.
Your task is to evaluate the quality of a generated answer based on a given question and the context that was used to create it.
Please evaluate the following three metrics and provide a score from 0.0 to 1.0 for each.

METRICS:
1.  **Faithfulness**: Does the answer remain factually consistent with the provided context? It is faithful if all claims in the answer can be verified from the context. It must not add new information or contradict the context.
2.  **Answer Relevance**: Is the answer directly relevant to the user's question? It should not be vague, generic, or off-topic.
3.  **Context Precision**: Was the provided context useful for answering the question? It is precise if it contains the necessary information to directly answer the question.

QUESTION:
" ++ question ++ "

CONTEXT:
---
" ++ context ++ "
---

ANSWER:
" ++ answer ++ "

---
Your response MUST be a valid JSON object with the following structure:
{
  " ++ quote ++ "faithfulness" ++ quote ++ ": <score_float>,
  " ++ quote ++ "answer_relevance" ++ quote ++ ": <score_float>,
  " ++ quote ++ "context_precision" ++ quote ++ ": <score_float>
}
".

Section Evaluation.

Context {F : PyFloat}.

(** The operations on floats of the averages: the division of a float by an
    [int], and [round(x, 3)]. *)
Variable truediv_int : num -> Z -> num.
Variable round3 : num -> num.

(** A value [json.loads] returns; a number is an [int] or a [float]. *)
#[warnings="-register-all"]
Inductive json : Type :=
| JNull
| JBool (b : bool)
| JInt (n : Z)
| JFloat (x : num)
| JString (s : string)
| JArray (elements : list json)
| JObject (members : Py.dict json).

(** The name of the type of a value, as the messages of Python give it. *)
Definition type_name (v : json) : string :=
  match v with
  | JNull => "NoneType"
  | JBool _ => "bool"
  | JInt _ => "int"
  | JFloat _ => "float"
  | JString _ => "str"
  | JArray _ => "list"
  | JObject _ => "dict"
  end.

(** What the calls answer: the evaluation model, [json.loads], and [float]
    on an [int], which overflows on a large one, and on a [str]. *)
Record services : Type := {
  generate_content : string -> result response;
  json_loads : string -> result json;
  float_of_int : Z -> result num;
  float_of_string : string -> result num
}.

(** The calls that leave the process, and the pauses. *)
Inductive event : Type :=
| GenerateContent (prompt : string)
| Sleep (seconds : Z).

Variable S : services.

(** [float(v)]; a [bool] is an [int]. *)
Definition float (v : json) : result num :=
  match v with
  | JFloat x => Ok x
  | JInt n => float_of_int S n
  | JBool b => float_of_int S (if b then 1 else 0)
  | JString s => float_of_string S s
  | _ =>
      Raise (Exn "TypeError"
               ("float() argument must be a string or a real number, not '"
                ++ type_name v ++ "'"))
  end.

(** [float(parsed_scores.get(key, 0.0))] *)
Definition float_get (parsed_scores : json) (key : string) : result num :=
  match parsed_scores with
  | JObject members =>
      match Py.get members key with
      | Some v => float v
      | None => Ok zero
      end
  | _ =>
      Raise (Exn "AttributeError"
               ("'" ++ type_name parsed_scores
                ++ "' object has no attribute 'get'"))
  end.

(** The dictionary [scores]. *)
Record scores : Type := {
  faithfulness : num;
  answer_relevance : num;
  context_precision : num
}.

(** [scores["faithfulness"] = v], and the like. *)
Definition set_faithfulness (v : num) (sc : scores) : scores :=
  {| faithfulness := v;
     answer_relevance := answer_relevance sc;
     context_precision := context_precision sc |}.

Definition set_answer_relevance (v : num) (sc : scores) : scores :=
  {| faithfulness := faithfulness sc;
     answer_relevance := v;
     context_precision := context_precision sc |}.

Definition set_context_precision (v : num) (sc : scores) : scores :=
  {| faithfulness := faithfulness sc;
     answer_relevance := answer_relevance sc;
     context_precision := v |}.

(** An item of the results: the keys [evaluate.py] gives it, and ['scores']
    once it is evaluated. *)
Record item : Type := {
  question : string;
  generated_answer : string;
  retrieved_context : list string;
  ground_truth_answer : option string;
  ground_truth_context : option string;
  item_scores : option scores
}.

(** The prompt of an item. *)
Definition prompt_of (it : item) : string :=
  let question := question it in
  let answer := generated_answer it in
  let context := join (newline ++ newline) (retrieved_context it) in
  CONSOLIDATED_EVALUATION_PROMPT question context answer.

(** [response.text.strip().replace("```json", "").replace("```", "").strip()] *)
Definition json_response_str (t : string) : string :=
  Py.strip (replace "```" "" (replace "```json" "" (Py.strip t))).

(** A statement of the [try] block: it reads and updates the dictionary
    [scores], and ends normally or by an exception. *)
Definition stmt (A : Type) : Type := scores -> scores * result A.

Definition lift {A : Type} (r : result A) : stmt A := fun sc => (sc, r).

Definition assign (set : num -> scores -> scores) (v : num) : stmt unit :=
  fun sc => (set v sc, Ok tt).

(** One statement after another: an exception ends the sequence, with the
    dictionary as it is then. *)
Definition bind {A B : Type} (m : stmt A) (k : A -> stmt B) : stmt B :=
  fun sc =>
    match m sc with
    | (sc', Ok a) => k a sc'
    | (sc', Raise e) => (sc', Raise e)
    end.

(** [try: body / except (json.JSONDecodeError, ValueError, Exception) as e:]
    with a handler that prints a warning. *)
Definition try_except_Exception (body : stmt unit) : stmt unit :=
  fun sc => (fst (body sc), Ok tt).

(** The body of the [try]. *)
Definition try_body (it : item) : stmt unit :=
  bind (lift (generate_content S (prompt_of it))) (fun response =>
  bind (lift (text response)) (fun t =>
  bind (lift (json_loads S (json_response_str t))) (fun parsed_scores =>
  bind (lift (float_get parsed_scores "faithfulness")) (fun f =>
  bind (assign set_faithfulness f) (fun _ =>
  bind (lift (float_get parsed_scores "answer_relevance")) (fun a =>
  bind (assign set_answer_relevance a) (fun _ =>
  bind (lift (float_get parsed_scores "context_precision")) (fun c =>
  assign set_context_precision c)))))))).

(** The dictionary [scores] at the end of [evaluate_single_item]. *)
Definition scored (it : item) : scores :=
  let scores :=
    {| faithfulness := zero; answer_relevance := zero;
       context_precision := zero |} in
  fst (try_except_Exception (try_body it) scores).

(** [evaluate_single_item(item)]: the calls made, and the item returned,
    which is the item given with ['scores'] written into it. *)
Definition evaluate_single_item (it : item) : list event * item :=
  ([GenerateContent (prompt_of it)],
   {| question := question it;
      generated_answer := generated_answer it;
      retrieved_context := retrieved_context it;
      ground_truth_answer := ground_truth_answer it;
      ground_truth_context := ground_truth_context it;
      item_scores := Some (scored it) |}).

(** The dictionary [summary]. *)
Record summary : Type := {
  average_faithfulness : num;
  average_answer_relevance : num;
  average_context_precision : num
}.

(** What [run_evaluation_pipeline] returns; an empty ['summary_scores'] is
    [None]. *)
Record report : Type := {
  summary_scores : option summary;
  detailed_results : list item
}.

(** [item['scores'][key]] of an evaluated item. *)
Definition score_of (key : scores -> num) (it : item) : num :=
  match item_scores it with
  | Some s => key s
  | None => zero
  end.

(** [round(sum(item['scores'][key] for item in detailed_results) / len(detailed_results), 3)] *)
Definition average (key : scores -> num) (detailed_results : list item)
    : num :=
  round3 (truediv_int
            (fold_left add (map (score_of key) detailed_results) zero)
            (Z.of_nat (List.length detailed_results))).

(** The loop of [run_evaluation_pipeline]: each item is evaluated, then the
    process sleeps for four seconds.  The items of the list are distinct
    dictionaries, as [evaluate.py] builds them. *)
Fixpoint evaluate_all (results_with_context : list item)
    : list event * list item :=
  match results_with_context with
  | [] => ([], [])
  | it :: rest =>
      let evaluated := evaluate_single_item it in
      let others := evaluate_all rest in
      ((fst evaluated ++ Sleep 4 :: fst others)%list,
       snd evaluated :: snd others)
  end.

(** [run_evaluation_pipeline(results_with_context)] *)
Definition run_evaluation_pipeline (results_with_context : list item)
    : list event * report :=
  let run := evaluate_all results_with_context in
  let detailed_results := snd run in
  (fst run,
   match detailed_results with
   | [] => {| summary_scores := None; detailed_results := [] |}
   | _ =>
       {| summary_scores :=
            Some {| average_faithfulness :=
                      average faithfulness detailed_results;
                    average_answer_relevance :=
                      average answer_relevance detailed_results;
                    average_context_precision :=
                      average context_precision detailed_results |};
          detailed_results := detailed_results |}
   end).

End Evaluation.

Arguments JNull {F}.
Arguments JBool {F} b.
Arguments JInt {F} n.
Arguments JString {F} s.
Arguments JArray {F} elements.
Arguments JObject {F} members.

End EvaluationService.

(** ** Sample documents and services *)

Module Samples.

(** *** The retrieval *)

(** A dataset whose second item has no context. *)
Definition incomplete : env (F := QExact) :=
  services (Ok [item "alpha beta"; [("question", "q")]]) unit_index
           (Raise unavailable) (Ok [zero]) (Ok (Some [])) (Ok [truediv 1 1]).

(** A match of the vector index whose metadata has no ['full_content']. *)
Definition bare : hit (F := QExact) :=
  {| hit_id := "v1"; hit_score := zero; hit_metadata := [] |}.

Definition bare_index : pinecone_index (F := QExact) :=
  fun _ _ => Ok (Some [bare]).

(** The module state once the index is built over one passage. *)
Definition built : state (F := QExact) :=
  {| bm25_index := Some (okapi_scores unit_weight [["alpha"]]);
     corpus := ["alpha"] |}.

(** *** A document *)

Definition line (l text : string) (page : Z) : DocumentParser.labeled_line :=
  {| DocumentParser.label := Some l;
     DocumentParser.text := Some text;
     DocumentParser.page := Some page |}.

Definition policy : list DocumentParser.labeled_line :=
  [line "Body" "Preface" 1;
   line "Title" " Policy " 1;
   line "H1" "Scope" 1;
   line "Body" "covers  all" 1;
   line "Body" " members " 2;
   line "H2" "Limits" 2;
   line "H1" "Claims" 3].

(** The sections of the document, with their full contents. *)
Definition policy_sections : list DocumentParser.section :=
  DocumentParser.add_full_content_to_sections
    (DocumentParser.group_text_into_sections policy "policy.pdf").

(** *** The parser *)

Definition rows : list Parsing.feature_row :=
  [{| Parsing.row_text := "Policy"; Parsing.row_page_num := 1 |};
   {| Parsing.row_text := "page 1"; Parsing.row_page_num := 1 |};
   {| Parsing.row_text := "covers all"; Parsing.row_page_num := 1 |}].

(** The models are there, and label the three rows. *)
Definition labelled : Parsing.answers :=
  {| Parsing.joblib_load := fun _ => Ok tt;
     Parsing.extract_features_from_pdf := fun _ => Ok rows;
     Parsing.predictions_labels := fun _ => Ok ["Title"; "Other"; "Body"] |}.

(** The model file is missing. *)
Definition no_model : Parsing.answers :=
  {| Parsing.joblib_load :=
       fun _ => Raise (Exn "FileNotFoundError" "No such file or directory");
     Parsing.extract_features_from_pdf := fun _ => Ok rows;
     Parsing.predictions_labels := fun _ => Ok ["Title"; "Other"; "Body"] |}.

(** The section of the parsed document. *)
Definition parsed_section : DocumentParser.section :=
  {| DocumentParser.document_name := "doc.pdf";
     DocumentParser.page_number := Some 1;
     DocumentParser.section_title := "Policy";
     DocumentParser.content := "covers all";
     DocumentParser.hierarchy_level := 0;
     DocumentParser.full_path := ["Policy"];
     DocumentParser.full_content := Some "Policy: covers all" |}.

(** *** The ingestion; an embedding is a number here *)

Definition ingestion
    (parsed : result (option (list DocumentParser.section)))
    : EmbeddingService.services nat :=
  {| EmbeddingService.PINECONE_INDEX_NAME := "rag-challenge-index";
     EmbeddingService.PINECONE_ENVIRONMENT := "aws-us-east-1";
     EmbeddingService.EMBEDDING_DIMENSION := 384;
     EmbeddingService.local_filename := "/tmp/0.pdf";
     EmbeddingService.download := fun _ _ => EmbeddingService.Downloaded;
     EmbeddingService.remove := fun _ => Ok tt;
     EmbeddingService.parse_document_to_sections := fun _ _ _ => parsed;
     EmbeddingService.list_indexes := Ok [];
     EmbeddingService.create_index := fun _ _ _ => Ok tt;
     EmbeddingService.pc_Index := fun _ => Ok (fun _ => Ok tt);
     EmbeddingService.encode := fun texts => Ok (map (fun _ => 0%nat) texts) |}.

Definition accepting : EmbeddingService.index_handle nat := fun _ => Ok tt.

(** *** The evaluation *)

(** A result of the pipeline. *)
Definition answered : EvaluationService.item (F := QExact) :=
  {| EvaluationService.question := "What is the grace period?";
     EvaluationService.generated_answer := "The grace period is 30 days.";
     EvaluationService.retrieved_context := ["Grace period: 30 days."];
     EvaluationService.ground_truth_answer := Some "30 days";
     EvaluationService.ground_truth_context := None;
     EvaluationService.item_scores := None |}.

(** A JSON object that rates the relevance of the answer in words. *)
Definition verdict : string :=
  let q := EvaluationService.quote in
  "{" ++ q ++ "faithfulness" ++ q ++ ": 0.9, "
  ++ q ++ "answer_relevance" ++ q ++ ": " ++ q ++ "high" ++ q ++ ", "
  ++ q ++ "context_precision" ++ q ++ ": 0.8}".

(** The value of the verdict. *)
Definition rated : EvaluationService.json (F := QExact) :=
  EvaluationService.JObject
    [("faithfulness", @EvaluationService.JFloat QExact (9 # 10)%Q);
     ("answer_relevance", EvaluationService.JString "high");
     ("context_precision", @EvaluationService.JFloat QExact (8 # 10)%Q)].

(** An evaluation model that answers the verdict in a fence. *)
Definition judge : EvaluationService.services (F := QExact) :=
  {| EvaluationService.generate_content := fun _ =>
       Ok {| text := Ok ("```json" ++ newline ++ verdict ++ newline
                         ++ "```") |};
     EvaluationService.json_loads := fun s =>
       if String.eqb s verdict
       then Ok rated
       else Raise (Exn "JSONDecodeError" "Expecting value");
     EvaluationService.float_of_int := fun n => Ok (inject_Z n : @num QExact);
     EvaluationService.float_of_string := fun s =>
       Raise (Exn "ValueError"
                ("could not convert string to float: '" ++ s ++ "'")) |}.

(** An evaluation model that is out of quota. *)
Definition exhausted : EvaluationService.services (F := QExact) :=
  {| EvaluationService.generate_content := fun _ =>
       Raise (Exn "ResourceExhausted" "429 Quota exceeded");
     EvaluationService.json_loads := EvaluationService.json_loads judge;
     EvaluationService.float_of_int := EvaluationService.float_of_int judge;
     EvaluationService.float_of_string :=
       EvaluationService.float_of_string judge |}.

End Samples.

(** * Properties *)

(** ** Python built-ins *)

Section SliceFacts.

Context {A : Type}.

Lemma slice_to_nonneg (n : Z) (l : list A) :
  0 <= n -> Py.slice_to n l = firstn (Z.to_nat n) l.
Proof.
  intros Hn. unfold Py.slice_to.
  destruct (Z.ltb_spec n 0) as [Hlt | _]; [lia | reflexivity].
Qed.

Lemma slice_to_length (n : Z) (l : list A) :
  0 <= n -> List.length (Py.slice_to n l) = Nat.min (Z.to_nat n) (List.length l).
Proof.
  intros Hn. rewrite slice_to_nonneg by assumption. apply length_firstn.
Qed.

Lemma slice_to_all (n : Z) (l : list A) :
  Z.of_nat (List.length l) <= n -> Py.slice_to n l = l.
Proof.
  intros Hn. rewrite slice_to_nonneg by lia. apply firstn_all2. lia.
Qed.

Lemma slice_to_incl (n : Z) (l : list A) (x : A) :
  In x (Py.slice_to n l) -> In x l.
Proof.
  assert (H : forall m, In x (firstn m l) -> In x l).
  { intros m Hx. rewrite <- (firstn_skipn m l). apply in_or_app. now left. }
  unfold Py.slice_to. destruct (n <? 0); apply H.
Qed.

End SliceFacts.

Lemma firstn_seq_min (n start len : nat) :
  firstn n (seq start len) = seq start (Nat.min n len).
Proof.
  revert start len. induction n as [| n IH]; intros start [| len]; simpl;
    try reflexivity.
  now rewrite IH.
Qed.

Lemma firstn_min_length {A : Type} (n : nat) (l : list A) :
  firstn (Nat.min n (List.length l)) l = firstn n l.
Proof.
  destruct (Nat.le_gt_cases n (List.length l)) as [Hle | Hgt].
  - now rewrite Nat.min_l.
  - rewrite Nat.min_r by lia. rewrite firstn_all. symmetry.
    apply firstn_all2. lia.
Qed.

Lemma skipn_nth_error {A : Type} (l : list A) (i : nat) (x : A) :
  nth_error l i = Some x -> skipn i l = x :: skipn (S i) l.
Proof.
  revert i. induction l as [| y l IH]; intros [| i] Hx; simpl in *;
    try discriminate.
  - now injection Hx as ->.
  - now apply IH.
Qed.

(** ** Sorting *)

Section SortedFacts.

Context {F : PyFloat} {A : Type}.
Variable key : A -> num.

Lemma insert_perm (x : A) (l : list A) : Permutation (insert key x l) (x :: l).
Proof.
  induction l as [| y l IH]; simpl.
  - apply Permutation_refl.
  - destruct (lt (key y) (key x)).
    + apply perm_trans with (y :: x :: l).
      * apply perm_skip, IH.
      * apply perm_swap.
    + apply Permutation_refl.
Qed.

Lemma sort_ascending_perm (l : list A) : Permutation (sort_ascending key l) l.
Proof.
  induction l as [| x l IH]; simpl.
  - apply perm_nil.
  - apply perm_trans with (x :: sort_ascending key l).
    + apply insert_perm.
    + apply perm_skip, IH.
Qed.

(** The sorted list holds the elements of the input, each as often. *)
Lemma sorted_reverse_perm (l : list A) : Permutation (sorted_reverse key l) l.
Proof.
  unfold sorted_reverse.
  apply perm_trans with (sort_ascending key (rev l)).
  - apply Permutation_sym, Permutation_rev.
  - apply perm_trans with (rev l).
    + apply sort_ascending_perm.
    + apply Permutation_sym, Permutation_rev.
Qed.

Lemma sorted_reverse_length (l : list A) :
  List.length (sorted_reverse key l) = List.length l.
Proof. apply Permutation_length, sorted_reverse_perm. Qed.

Lemma sorted_reverse_In (l : list A) (x : A) :
  In x (sorted_reverse key l) <-> In x l.
Proof.
  split; apply Permutation_in.
  - apply sorted_reverse_perm.
  - apply Permutation_sym, sorted_reverse_perm.
Qed.

(** *** Keys that [<] does not separate: the sort moves nothing. *)

Lemma insert_no_smaller (x : A) (l : list A) :
  (forall y, In y l -> lt (key y) (key x) = false) -> insert key x l = x :: l.
Proof.
  destruct l as [| y l]; simpl; [reflexivity |].
  intros Hy. now rewrite (Hy y (or_introl eq_refl)).
Qed.

Lemma sort_ascending_no_smaller (l : list A) :
  (forall x y, In x l -> In y l -> lt (key x) (key y) = false) ->
  sort_ascending key l = l.
Proof.
  induction l as [| x l IH]; simpl; intros Hall; [reflexivity |].
  rewrite IH by (intros; apply Hall; now right).
  apply insert_no_smaller. intros y Hy. apply Hall; [now right | now left].
Qed.

Lemma sorted_reverse_no_smaller (l : list A) :
  (forall x y, In x l -> In y l -> lt (key x) (key y) = false) ->
  sorted_reverse key l = l.
Proof.
  intros Hall. unfold sorted_reverse.
  rewrite sort_ascending_no_smaller; [apply rev_involutive |].
  intros x y Hx Hy. apply Hall; now apply in_rev.
Qed.

(** *** Stability: no hypothesis on the order is needed to filter an
    insertion, only that the keys before the insertion point are smaller. *)

Variable same : num -> bool.

(** [same] selects a class of keys that [<] does not separate. *)
Hypothesis same_not_lt :
  forall a b : num, same a = true -> same b = true -> lt a b = false.

Lemma filter_insert (x : A) (l : list A) :
  filter (fun y => same (key y)) (insert key x l)
  = filter (fun y => same (key y)) (x :: l).
Proof.
  induction l as [| y l IH]; [reflexivity |].
  simpl insert. destruct (lt (key y) (key x)) eqn:Hlt; [| reflexivity].
  change (filter (fun y0 => same (key y0)) (y :: insert key x l))
    with (if same (key y)
          then y :: filter (fun y0 => same (key y0)) (insert key x l)
          else filter (fun y0 => same (key y0)) (insert key x l)).
  rewrite IH. simpl.
  destruct (same (key y)) eqn:Hy; [| reflexivity].
  destruct (same (key x)) eqn:Hx; [| reflexivity].
  rewrite (same_not_lt _ _ Hy Hx) in Hlt. discriminate.
Qed.

Lemma filter_sort_ascending (l : list A) :
  filter (fun y => same (key y)) (sort_ascending key l)
  = filter (fun y => same (key y)) l.
Proof.
  induction l as [| x l IH]; [reflexivity |].
  simpl sort_ascending. rewrite filter_insert. simpl. now rewrite IH.
Qed.

Lemma filter_sorted_reverse (l : list A) :
  filter (fun y => same (key y)) (sorted_reverse key l)
  = filter (fun y => same (key y)) l.
Proof.
  unfold sorted_reverse.
  rewrite filter_rev, filter_sort_ascending, filter_rev. apply rev_involutive.
Qed.

End SortedFacts.

Section SortedOrder.

Context {F : PyFloat} {O : PyFloatOrder F} {A : Type}.
Variable key : A -> num.

Lemma lt_irrefl (a : num) : lt a a = false.
Proof.
  destruct (lt a a) eqn:H; [| reflexivity].
  pose proof (lt_asym _ _ H) as H'. congruence.
Qed.

Lemma lt_trans (a b c : num) : lt a b = true -> lt b c = true -> lt a c = true.
Proof.
  intros Hab Hbc. destruct (lt a c) eqn:Hac; [reflexivity |].
  pose proof (lt_negtrans _ _ _ Hac (lt_asym _ _ Hbc)) as H. congruence.
Qed.

(** Ties form classes: the keys tied with [c] are not separated by [<]. *)
Lemma tie_not_lt (c a b : num) :
  tie c a = true -> tie c b = true -> lt a b = false.
Proof.
  unfold tie. intros Ha Hb.
  apply andb_true_iff in Ha as [_ Ha]. apply andb_true_iff in Hb as [Hb _].
  apply negb_true_iff in Ha, Hb.
  exact (lt_negtrans _ _ _ Ha Hb).
Qed.

Lemma tie_refl (a : num) : tie a a = true.
Proof. unfold tie. now rewrite lt_irrefl. Qed.

Lemma insert_ascending (x : A) (l : list A) :
  ascending key l -> ascending key (insert key x l).
Proof.
  unfold ascending. induction l as [| y l IH]; intros Hl; simpl.
  - constructor; [constructor | constructor].
  - apply StronglySorted_inv in Hl as [Hl Hy].
    destruct (lt (key y) (key x)) eqn:Hyx.
    + constructor; [apply IH, Hl |].
      rewrite Forall_forall in *. intros z Hz.
      apply (Permutation_in _ (insert_perm key x l)) in Hz.
      destruct Hz as [<- | Hz]; [exact (lt_asym _ _ Hyx) | apply Hy, Hz].
    + constructor.
      * constructor; assumption.
      * constructor; [assumption |].
        rewrite Forall_forall in *. intros z Hz.
        exact (lt_negtrans _ _ _ (Hy z Hz) Hyx).
Qed.

Lemma sort_ascending_ascending (l : list A) :
  ascending key (sort_ascending key l).
Proof.
  induction l as [| x l IH]; simpl.
  - constructor.
  - apply insert_ascending, IH.
Qed.

Lemma ascending_rev (l : list A) :
  ascending key l -> descending key (rev l).
Proof.
  unfold ascending, descending. induction l as [| x l IH]; intros Hl; simpl.
  - constructor.
  - apply StronglySorted_inv in Hl as [Hl Hx].
    specialize (IH Hl). rewrite Forall_forall in Hx.
    assert (Hin : forall y, In y (rev l) -> lt (key y) (key x) = false).
    { intros y Hy. apply Hx. now apply in_rev. }
    clear Hx Hl. induction (rev l) as [| y r IHr]; simpl.
    + constructor; constructor.
    + apply StronglySorted_inv in IH as [Hr Hy].
      constructor.
      * apply IHr; [assumption | intros z Hz; apply Hin; now right].
      * apply Forall_app. split; [assumption |].
        constructor; [apply Hin; now left | constructor].
Qed.

(** The sorted list is in descending order of the keys. *)
Lemma sorted_reverse_descending (l : list A) :
  descending key (sorted_reverse key l).
Proof. apply ascending_rev, sort_ascending_ascending. Qed.

(** Elements whose keys tie keep the order they have in the input. *)
Lemma sorted_reverse_stable (c : num) (l : list A) :
  filter (fun y => tie c (key y)) (sorted_reverse key l)
  = filter (fun y => tie c (key y)) l.
Proof.
  apply (filter_sorted_reverse key (tie c)). apply tie_not_lt.
Qed.

End SortedOrder.

(** ** Dictionaries *)

Section DictFacts.

Context {V : Type}.
Implicit Types (d : Py.dict V) (k : string) (v : V).

Lemma contains_get d k :
  Py.contains d k = match Py.get d k with Some _ => true | None => false end.
Proof.
  induction d as [| [k' v'] d IH]; simpl; [reflexivity |].
  destruct (String.eqb k' k); [reflexivity | exact IH].
Qed.

Lemma contains_In d k : Py.contains d k = true <-> In k (Py.keys d).
Proof.
  induction d as [| [k' v'] d IH]; simpl.
  - split; [discriminate | contradiction].
  - destruct (String.eqb_spec k' k) as [-> | Hne]; simpl.
    + split; auto.
    + rewrite IH. split; [auto | intros [H | H]; [contradiction | exact H]].
Qed.

Lemma get_set_same d k v : Py.get (Py.set d k v) k = Some v.
Proof.
  induction d as [| [k' v'] d IH]; simpl.
  - now rewrite String.eqb_refl.
  - destruct (String.eqb k' k) eqn:Hk; simpl; rewrite Hk; [reflexivity | exact IH].
Qed.

Lemma get_set_other d k k' v :
  k <> k' -> Py.get (Py.set d k v) k' = Py.get d k'.
Proof.
  intros Hne. induction d as [| [k0 v0] d IH]; simpl.
  - destruct (String.eqb_spec k k'); [contradiction | reflexivity].
  - destruct (String.eqb_spec k0 k) as [-> | Hk]; simpl.
    + destruct (String.eqb_spec k k'); [contradiction | reflexivity].
    + destruct (String.eqb k0 k'); [reflexivity | exact IH].
Qed.

Lemma keys_set d k v :
  Py.keys (Py.set d k v)
  = if Py.contains d k then Py.keys d else (Py.keys d ++ [k])%list.
Proof.
  unfold Py.keys.
  induction d as [| [k' v'] d IH]; simpl; [reflexivity |].
  destruct (String.eqb k' k); simpl; [reflexivity |].
  rewrite IH. destruct (Py.contains d k); reflexivity.
Qed.

Lemma set_set d k v v' : Py.set (Py.set d k v) k v' = Py.set d k v'.
Proof.
  induction d as [| [k' v0] d IH]; simpl.
  - now rewrite String.eqb_refl.
  - destruct (String.eqb k' k) eqn:Hk; simpl; rewrite Hk; [reflexivity |].
    now rewrite IH.
Qed.

(** With distinct keys, an entry of the dictionary is what [get] finds. *)
Lemma In_get d k v : NoDup (Py.keys d) -> In (k, v) d -> Py.get d k = Some v.
Proof.
  induction d as [| [k' v'] d IH]; simpl; intros Hnd Hin; [contradiction |].
  apply NoDup_cons_iff in Hnd as [Hk' Hnd].
  destruct Hin as [Heq | Hin].
  - injection Heq as -> ->. now rewrite String.eqb_refl.
  - destruct (String.eqb_spec k' k) as [-> | _]; [| now apply IH].
    exfalso. apply Hk'. change k with (fst (k, v)). now apply in_map.
Qed.

Lemma get_In d k v : Py.get d k = Some v -> In (k, v) d.
Proof.
  induction d as [| [k' v'] d IH]; simpl; [discriminate |].
  destruct (String.eqb_spec k' k) as [-> | _].
  - intros [= ->]. now left.
  - intros H. right. now apply IH.
Qed.

End DictFacts.

(** ** Reciprocal Rank Fusion *)

Section FusionFacts.

Context {F : PyFloat}.

Lemma accumulate_app (init : num) (l1 l2 : list num) :
  accumulate (accumulate init l1) l2 = accumulate init (l1 ++ l2).
Proof. unfold accumulate. symmetry. apply fold_left_app. Qed.

(** A rank of [doc_id] is a position where the list holds [doc_id]. *)
Lemma ranks_nth_error (doc_id : string) (ids : list string) (start r : nat) :
  In r (ranks doc_id start ids)
  <-> (start <= r)%nat /\ nth_error ids (r - start) = Some doc_id.
Proof.
  revert start. induction ids as [| id ids IH]; intros start; simpl.
  - split; [contradiction |]. intros [_ H]. destruct (r - start)%nat; discriminate.
  - assert (Hnext : In r (ranks doc_id (S start) ids)
                    <-> (start < r)%nat /\ nth_error ids (r - S start) = Some doc_id).
    { rewrite IH. split; intros [H1 H2]; (split; [lia | exact H2]). }
    destruct (String.eqb_spec id doc_id) as [-> | Hne]; simpl; rewrite Hnext.
    + split.
      * intros [<- | [H1 H2]].
        -- split; [lia |]. now rewrite Nat.sub_diag.
        -- split; [lia |].
           replace (r - start)%nat with (S (r - S start)) by lia. exact H2.
      * intros [H1 H2]. destruct (Nat.eq_dec start r) as [-> | Hr]; [now left |].
        right. split; [lia |].
        replace (r - start)%nat with (S (r - S start)) in H2 by lia. exact H2.
    + split.
      * intros [H1 H2]. split; [lia |].
        replace (r - start)%nat with (S (r - S start)) by lia. exact H2.
      * intros [H1 H2]. destruct (Nat.eq_dec start r) as [-> | Hr].
        -- rewrite Nat.sub_diag in H2. simpl in H2. congruence.
        -- split; [lia |].
           replace (r - start)%nat with (S (r - S start)) in H2 by lia. exact H2.
Qed.

Lemma ranks_absent (doc_id : string) (ids : list string) (start : nat) :
  ~ In doc_id ids -> ranks doc_id start ids = [].
Proof.
  revert start. induction ids as [| id ids IH]; intros start Hn; simpl.
  - reflexivity.
  - destruct (String.eqb_spec id doc_id) as [-> | _].
    + exfalso. apply Hn. now left.
    + apply IH. intros H. apply Hn. now right.
Qed.

(** *** One step of a loop *)

Lemma rrf_add_unfold (doc_id : string) (md : metadata) (rank : nat)
    (d : Py.dict fused) :
  rrf_add doc_id md rank d
  = Py.set d doc_id
      {| score := add (score_of d doc_id) (reciprocal_rank rank);
         fused_metadata := match Py.get d doc_id with
                           | Some item => fused_metadata item
                           | None => md
                           end |}.
Proof.
  unfold rrf_add, score_of. rewrite contains_get.
  destruct (Py.get d doc_id) as [item |] eqn:Hget.
  - rewrite Hget. reflexivity.
  - rewrite get_set_same, set_set. reflexivity.
Qed.

Lemma rrf_add_score (doc_id : string) (md : metadata) (rank : nat)
    (d : Py.dict fused) (id' : string) :
  score_of (rrf_add doc_id md rank d) id'
  = if String.eqb doc_id id'
    then add (score_of d id') (reciprocal_rank rank)
    else score_of d id'.
Proof.
  rewrite rrf_add_unfold. unfold score_of at 1.
  destruct (String.eqb_spec doc_id id') as [<- | Hne].
  - now rewrite get_set_same.
  - now rewrite get_set_other.
Qed.

Lemma rrf_add_keys (doc_id : string) (md : metadata) (rank : nat)
    (d : Py.dict fused) :
  Py.keys (rrf_add doc_id md rank d)
  = if Py.contains d doc_id then Py.keys d else (Py.keys d ++ [doc_id])%list.
Proof. rewrite rrf_add_unfold. apply keys_set. Qed.

(** *** One loop, over hits of any kind *)

Section Loop.

Context {H : Type}.
Variables (id_of : H -> string) (md_of : H -> metadata).

Lemma rrf_loop_score (hits : list H) (start : nat) (d : Py.dict fused)
    (id' : string) :
  score_of (rrf_loop id_of md_of start hits d) id'
  = accumulate (score_of d id')
      (map reciprocal_rank (ranks id' start (map id_of hits))).
Proof.
  revert start d. induction hits as [| h hits IH]; intros start d; simpl.
  - reflexivity.
  - unfold rrf_loop in *. simpl. rewrite IH, rrf_add_score.
    destruct (String.eqb (id_of h) id'); reflexivity.
Qed.

Lemma rrf_loop_keys_In (hits : list H) (start : nat) (d : Py.dict fused)
    (id' : string) :
  In id' (Py.keys (rrf_loop id_of md_of start hits d))
  <-> In id' (Py.keys d) \/ In id' (map id_of hits).
Proof.
  revert start d. induction hits as [| h hits IH]; intros start d; simpl.
  - tauto.
  - unfold rrf_loop in *. simpl. rewrite IH, rrf_add_keys.
    destruct (Py.contains d (id_of h)) eqn:Hc.
    + apply contains_In in Hc. split; [tauto |].
      intros [Hd | [<- | Hh]]; auto.
    + rewrite in_app_iff. simpl. tauto.
Qed.

Lemma rrf_loop_keys_NoDup (hits : list H) (start : nat) (d : Py.dict fused) :
  NoDup (Py.keys d) -> NoDup (Py.keys (rrf_loop id_of md_of start hits d)).
Proof.
  revert start d. induction hits as [| h hits IH]; intros start d Hnd; simpl.
  - exact Hnd.
  - unfold rrf_loop in *. simpl. apply IH. rewrite rrf_add_keys.
    destruct (Py.contains d (id_of h)) eqn:Hc; [exact Hnd |].
    apply NoDup_app; [exact Hnd | repeat constructor; intros [] |].
    intros x Hx [<- | []].
    apply contains_In in Hx. congruence.
Qed.

End Loop.

Variable E : env.

Lemma fuse_loops (pinecone_hits : list hit) (bm25_hits : list bm25_hit) :
  fuse E pinecone_hits bm25_hits
  = rrf_loop (fun h => content_id E (bm25_full_content h)) bm25_metadata 0
      bm25_hits (rrf_loop hit_id hit_metadata 0 pinecone_hits []).
Proof. reflexivity. Qed.

(** The keys of the fused dictionary are pairwise distinct. *)
Lemma fuse_keys_NoDup (pinecone_hits : list hit) (bm25_hits : list bm25_hit) :
  NoDup (Py.keys (fuse E pinecone_hits bm25_hits)).
Proof.
  rewrite fuse_loops. do 2 apply rrf_loop_keys_NoDup. constructor.
Qed.

(** They are the identifiers of the hits of the two lists. *)
Lemma fuse_keys_In (pinecone_hits : list hit) (bm25_hits : list bm25_hit)
    (doc_id : string) :
  In doc_id (Py.keys (fuse E pinecone_hits bm25_hits))
  <-> In doc_id (dense_ids pinecone_hits ++ content_ids E bm25_hits).
Proof.
  rewrite fuse_loops, !rrf_loop_keys_In, in_app_iff.
  unfold dense_ids, content_ids. simpl. tauto.
Qed.

Lemma fuse_score_of (pinecone_hits : list hit) (bm25_hits : list bm25_hit)
    (doc_id : string) :
  score_of (fuse E pinecone_hits bm25_hits) doc_id
  = rrf_score doc_id (dense_ids pinecone_hits) (content_ids E bm25_hits).
Proof.
  rewrite fuse_loops, !rrf_loop_score. unfold rrf_score.
  rewrite accumulate_app, <- map_app. reflexivity.
Qed.

(** The score of every fused candidate is the sum of the reciprocal ranks of
    the hits that carry its identifier. *)
Lemma fuse_score (pinecone_hits : list hit) (bm25_hits : list bm25_hit)
    (doc_id : string) (item : fused) :
  In (doc_id, item) (fuse E pinecone_hits bm25_hits) ->
  score item = rrf_score doc_id (dense_ids pinecone_hits)
                 (content_ids E bm25_hits).
Proof.
  intros Hin. rewrite <- fuse_score_of. unfold score_of.
  now rewrite (In_get _ _ _ (fuse_keys_NoDup _ _) Hin).
Qed.

End FusionFacts.

(** ** Exact arithmetic is ordered *)

Lemma QExact_order : PyFloatOrder QExact.
Proof.
  split; simpl.
  - intros a b Hab. apply negb_true_iff in Hab. apply negb_false_iff.
    apply Qle_bool_iff. apply Qlt_le_weak. apply Qnot_le_lt.
    intros Hle. apply Qle_bool_iff in Hle. congruence.
  - intros a b c Hab Hbc. apply negb_false_iff in Hab, Hbc.
    apply negb_false_iff. apply Qle_bool_iff in Hab, Hbc. apply Qle_bool_iff.
    now apply Qle_trans with b.
Qed.

(** ** The fusion, claim by claim *)

Section FusionClaims.

Context {F : PyFloat}.
Variable E : env.

(** The fusion, identifier by identifier.  For every pair of ranked lists,
    the score of each fused candidate is the initial 0 to which the
    contributions [1 / (60 + r + 1)] of the hits that carry its identifier
    are added, those of the dense list at their ranks [r], then those of the
    keyword list at theirs; every identifier of either list has a candidate;
    an identifier that occurs in one list only has the contributions of that
    list alone; and the candidates are returned in descending order of the
    score, none added and none lost. *)
Lemma rrf_scores_and_order (O : PyFloatOrder F)
    (pinecone_hits : list hit) (bm25_hits : list bm25_hit) :
  let ids1 := dense_ids pinecone_hits in
  let ids2 := content_ids E bm25_hits in
  let fused_results := fuse E pinecone_hits bm25_hits in
  let contribution := fun r : nat => truediv 1 (60 + Z.of_nat r + 1) in
  (forall doc_id item, In (doc_id, item) fused_results ->
     score item
     = accumulate zero
         (map contribution (ranks doc_id 0 ids1 ++ ranks doc_id 0 ids2)))
  /\ (forall doc_id r, nth_error ids1 r = Some doc_id ->
        In r (ranks doc_id 0 ids1)
        /\ exists item, In (doc_id, item) fused_results)
  /\ (forall doc_id r, nth_error ids2 r = Some doc_id ->
        In r (ranks doc_id 0 ids2)
        /\ exists item, In (doc_id, item) fused_results)
  /\ (forall doc_id item, In (doc_id, item) fused_results ->
        ~ In doc_id ids2 ->
        score item = accumulate zero (map contribution (ranks doc_id 0 ids1)))
  /\ (forall doc_id item, In (doc_id, item) fused_results ->
        ~ In doc_id ids1 ->
        score item = accumulate zero (map contribution (ranks doc_id 0 ids2)))
  /\ Permutation (sorted_fused_results fused_results)
                 (Py.values fused_results)
  /\ descending score (sorted_fused_results fused_results).
Proof.
  intros ids1 ids2 fused_results contribution.
  assert (Hcand : forall doc_id, In doc_id (ids1 ++ ids2) ->
                  exists item, In (doc_id, item) fused_results).
  { intros doc_id Hin. apply fuse_keys_In in Hin.
    unfold Py.keys in Hin. apply in_map_iff in Hin as [[id' item] [Hfst Hin]].
    simpl in Hfst. subst id'. now exists item. }
  assert (Hrank : forall doc_id ids r, nth_error ids r = Some doc_id ->
                  In r (ranks doc_id 0 ids)).
  { intros doc_id ids r Hr. apply ranks_nth_error.
    split; [lia |]. now rewrite Nat.sub_0_r. }
  repeat split.
  - intros doc_id item Hin. exact (fuse_score E _ _ _ _ Hin).
  - now apply Hrank.
  - apply Hcand, in_or_app. left. eapply nth_error_In; eassumption.
  - now apply Hrank.
  - apply Hcand, in_or_app. right. eapply nth_error_In; eassumption.
  - intros doc_id item Hin Hno. rewrite (fuse_score E _ _ _ _ Hin).
    unfold rrf_score. fold ids2. rewrite (ranks_absent _ _ _ Hno).
    now rewrite app_nil_r.
  - intros doc_id item Hin Hno. rewrite (fuse_score E _ _ _ _ Hin).
    unfold rrf_score. fold ids1. rewrite (ranks_absent _ _ _ Hno).
    reflexivity.
  - apply sorted_reverse_perm.
  - apply sorted_reverse_descending.
Qed.

(** C2, on the code.  The dense hits are filed under their identifiers in
    the vector index, which the ingestion names [dense_i], and the keyword
    hits under [content_] followed by the hash of their content.  No
    identifier of one list is an identifier of the other, also for a chunk
    that both lists return: the chunk then has two candidates, the one with
    the contributions [1 / (60 + r + 1)] of its ranks in the dense list
    alone, the other with those of its ranks in the keyword list alone, and
    no candidate has the sum of contributions of both lists. *)
Theorem fuse_never_adds_across_lists (pinecone_hits : list hit)
    (bm25_hits : list bm25_hit) :
  (forall h, In h pinecone_hits ->
             exists i, hit_id h = "dense_" ++ Py.str_nat i) ->
  let content_key := fun b : bm25_hit =>
    "content_" ++ Py.str_int (hash E (bm25_full_content b)) in
  let ids1 := map hit_id pinecone_hits in
  let ids2 := map content_key bm25_hits in
  let fused_results := fuse E pinecone_hits bm25_hits in
  (forall doc_id, In doc_id (Py.keys fused_results)
                  <-> In doc_id ids1 \/ In doc_id ids2)
  /\ NoDup (Py.keys fused_results)
  /\ (forall h b, In h pinecone_hits -> In b bm25_hits ->
                  hit_id h <> content_key b)
  /\ (forall h, In h pinecone_hits ->
       exists item,
         In (hit_id h, item) fused_results
         /\ score item
            = accumulate zero
                (map reciprocal_rank (ranks (hit_id h) 0 ids1)))
  /\ (forall b, In b bm25_hits ->
       exists item,
         In (content_key b, item) fused_results
         /\ score item
            = accumulate zero
                (map reciprocal_rank (ranks (content_key b) 0 ids2))).
Proof.
  intros Hdense content_key ids1 ids2 fused_results.
  assert (Hkeys : forall doc_id, In doc_id (Py.keys fused_results)
                                 <-> In doc_id ids1 \/ In doc_id ids2).
  { intros doc_id. unfold fused_results. rewrite fuse_keys_In, in_app_iff.
    reflexivity. }
  assert (Hapart : forall h b, In h pinecone_hits -> In b bm25_hits ->
                               hit_id h <> content_key b).
  { intros h b Hh _. destruct (Hdense h Hh) as [i ->].
    unfold content_key. simpl. discriminate. }
  assert (Hitem : forall doc_id, In doc_id ids1 \/ In doc_id ids2 ->
                  exists item, In (doc_id, item) fused_results).
  { intros doc_id Hin. apply Hkeys in Hin. unfold Py.keys in Hin.
    apply in_map_iff in Hin as [[id' item] [Hfst Hin]].
    simpl in Hfst. subst id'. now exists item. }
  split; [exact Hkeys |]. split; [apply fuse_keys_NoDup |].
  split; [exact Hapart |]. split.
  - intros h Hh.
    destruct (Hitem (hit_id h)) as [item Hin];
      [left; now apply in_map |].
    exists item. split; [exact Hin |].
    rewrite (fuse_score E _ _ _ _ Hin). unfold rrf_score.
    change (content_ids E bm25_hits) with ids2.
    change (dense_ids pinecone_hits) with ids1.
    rewrite (ranks_absent (hit_id h) ids2 0), app_nil_r; [reflexivity |].
    intros Hin2. apply in_map_iff in Hin2 as [b [Heq Hb]].
    exact (Hapart h b Hh Hb (eq_sym Heq)).
  - intros b Hb.
    destruct (Hitem (content_key b)) as [item Hin];
      [right; now apply (in_map content_key) |].
    exists item. split; [exact Hin |].
    rewrite (fuse_score E _ _ _ _ Hin). unfold rrf_score.
    change (content_ids E bm25_hits) with ids2.
    change (dense_ids pinecone_hits) with ids1.
    rewrite (ranks_absent (content_key b) ids1 0); [reflexivity |].
    intros Hin1. apply in_map_iff in Hin1 as [h [Heq Hh]].
    exact (Hapart h b Hh Hb Heq).
Qed.

(** C1, on the code.  A passage returned by the dense search (under the
    identifier [dense_0] of the vector index) and by the keyword search is
    fused into two candidates, each with the contribution of one list, not
    into one candidate with the sum of both. *)
Theorem fuse_same_passage_two_candidates (content : string) :
  fuse E [dense 0 content] [keyword 0 content]
  = [("dense_0",
      {| score := add zero (reciprocal_rank 0);
         fused_metadata := hit_metadata (dense 0 content) |});
     (content_id E content,
      {| score := add zero (reciprocal_rank 0);
         fused_metadata := [("full_content", content)] |})].
Proof.
  unfold fuse. simpl Py.for_enumerate.
  rewrite !rrf_add_unfold. unfold score_of, content_id. simpl.
  reflexivity.
Qed.

(** The identifiers of the vector index are never those of the keyword
    branch. *)
Lemma dense_id_not_content_id (i : nat) (content content' : string) :
  hit_id (dense i content) <> content_id E content'.
Proof. unfold content_id. simpl. discriminate. Qed.

End FusionClaims.

(** ** Runs of the pipeline *)

Section MonadFacts.

Context {F : PyFloat}.

Lemma bind_ok {A B : Type} (m : M A) (f : A -> M B) (s : state) (a : A) :
  outcome (m s) = Ok a ->
  bind m f s
  = Run (trace (m s) ++ trace (f a (final (m s))))
        (outcome (f a (final (m s))))
        (final (f a (final (m s)))).
Proof. intros H. unfold bind. now rewrite H. Qed.

Lemma bind_raise {A B : Type} (m : M A) (f : A -> M B) (s : state) (e : exn) :
  outcome (m s) = Raise e ->
  bind m f s = Run (trace (m s)) (Raise e) (final (m s)).
Proof. intros H. unfold bind. now rewrite H. Qed.

Lemma bind_raise_outcome {A B : Type} (m : M A) (f : A -> M B) (s : state)
    (e : exn) :
  outcome (m s) = Raise e -> outcome (bind m f s) = Raise e.
Proof. intros H. now rewrite (bind_raise _ _ _ e H). Qed.

Lemma reads_only_ret {A : Type} (a : A) : reads_only (ret a).
Proof. intros s. reflexivity. Qed.

Lemma reads_only_lift {A : Type} (r : result A) : reads_only (lift r).
Proof. intros s. reflexivity. Qed.

Lemma reads_only_call {A : Type} (ev : event) (r : result A) :
  reads_only (call ev r).
Proof. intros s. reflexivity. Qed.

Lemma reads_only_get_state : reads_only get_state.
Proof. intros s. reflexivity. Qed.

Lemma reads_only_bind {A B : Type} (m : M A) (f : A -> M B) :
  reads_only m -> (forall a, reads_only (f a)) -> reads_only (bind m f).
Proof.
  intros Hm Hf s. unfold bind.
  destruct (outcome (m s)) as [a | e]; simpl.
  - now rewrite Hf, Hm.
  - apply Hm.
Qed.

Lemma reads_only_try_except {A : Type} (m : M A) (h : exn -> M A) :
  reads_only m -> (forall e, reads_only (h e)) -> reads_only (try_except m h).
Proof.
  intros Hm Hh s. unfold try_except.
  destruct (outcome (m s)) as [a | e]; simpl.
  - apply Hm.
  - now rewrite Hh, Hm.
Qed.

End MonadFacts.

(** Case analysis on every answer a run depends on. *)
Ltac each_answer :=
  repeat (cbv zeta;
          match goal with
          | |- context [match ?x with _ => _ end] => destruct x eqn:?
          end).

Section Runs.

Context {F : PyFloat}.
Variable E : env.

(** *** [rewrite_query] *)

Lemma rewrite_query_run (question : string) (s : state) :
  rewrite_query E question s
  = Run [GenerateContent (REWRITE_PROMPT_TEMPLATE question)]
        (Ok (rewritten E question)) s.
Proof.
  unfold rewrite_query, rewritten, try_except, bind, call, lift, ret. simpl.
  destruct (generate_content E (REWRITE_PROMPT_TEMPLATE question)) as [r | e];
    simpl; [| reflexivity].
  destruct (text r) as [t | e]; reflexivity.
Qed.

Lemma rewrite_query_reads_only (question : string) :
  reads_only (rewrite_query E question).
Proof. intros s. now rewrite rewrite_query_run. Qed.

(** *** [build_bm25_index_from_file] *)

Lemma build_bm25_index_from_file_run (filepath : string) (s : state) :
  build_bm25_index_from_file E filepath s
  = match json_load E filepath with
    | Raise e => Run [OpenJson filepath] (Raise e) s
    | Ok data =>
        match comprehension
                (fun item => getitem item "ground_truth_context") data with
        | Raise e => Run [OpenJson filepath] (Raise e) s
        | Ok docs =>
            let tokenized_corpus := map simple_tokenizer docs in
            match BM25Okapi E tokenized_corpus with
            | Raise e =>
                Run [OpenJson filepath; NewBM25Okapi tokenized_corpus]
                    (Raise e)
                    {| bm25_index := bm25_index s; corpus := docs |}
            | Ok index =>
                Run [OpenJson filepath; NewBM25Okapi tokenized_corpus]
                    (Ok tt)
                    {| bm25_index := Some index; corpus := docs |}
            end
        end
    end.
Proof.
  unfold build_bm25_index_from_file, bind, call, lift, set_corpus,
    set_bm25_index.
  simpl.
  destruct (json_load E filepath) as [data | e]; simpl; [| reflexivity].
  destruct (comprehension _ data) as [docs | e]; simpl; [| reflexivity].
  destruct (BM25Okapi E (map simple_tokenizer docs)) as [index | e];
    reflexivity.
Qed.

Lemma ensure_bm25_index_built (s : state) (index : bm25) :
  bm25_index s = Some index -> ensure_bm25_index E s = Run [] (Ok tt) s.
Proof.
  intros H. unfold ensure_bm25_index, bind, get_state, ret. simpl.
  now rewrite H.
Qed.

Lemma ensure_bm25_index_unbuilt (s : state) :
  bm25_index s = None ->
  ensure_bm25_index E s
  = build_bm25_index_from_file E "golden_dataset.json" s.
Proof.
  intros H. unfold ensure_bm25_index, bind, get_state. simpl. rewrite H.
  destruct (build_bm25_index_from_file E "golden_dataset.json" s)
    as [tr [[] | e] s']; reflexivity.
Qed.

(** *** The searches, the fusion and the re-ranking *)

Lemma search_and_rerank_run (index : pinecone_index)
    (question rewritten_question : string) (top_k final_k : Z) (s : state) :
  search_and_rerank E index question rewritten_question top_k final_k s
  = match bm25_index s with
    | None => Run [] (Raise AttributeError) s
    | Some okapi =>
    match keyword_search okapi (corpus s) rewritten_question top_k with
    | Raise e => Run [] (Raise e) s
    | Ok bm25_hits =>
    match encode E rewritten_question with
    | Raise e => Run [Encode rewritten_question] (Raise e) s
    | Ok query_embedding =>
    match index query_embedding top_k with
    | Raise e => Run [Encode rewritten_question; Query top_k] (Raise e) s
    | Ok pinecone_results =>
    let pinecone_hits :=
      match pinecone_results with Some matches => matches | None => [] end in
    match top_fused_hits top_k
            (sorted_fused_results (fuse E pinecone_hits bm25_hits)) with
    | Raise e => Run [Encode rewritten_question; Query top_k] (Raise e) s
    | Ok [] => Run [Encode rewritten_question; Query top_k] (Ok []) s
    | Ok pool =>
    let rerank_pairs := map (fun content => (question, content)) pool in
    match predict E rerank_pairs with
    | Raise e =>
        Run [Encode rewritten_question; Query top_k; Predict rerank_pairs]
            (Raise e) s
    | Ok scores =>
        Run [Encode rewritten_question; Query top_k; Predict rerank_pairs]
            (Ok (final_context (rerank pool scores) final_k)) s
    end end end end end end.
Proof.
  unfold search_and_rerank, bind, get_state, lift, call, ret. simpl.
  destruct (bm25_index s) as [okapi |]; simpl; [| reflexivity].
  destruct (keyword_search okapi (corpus s) rewritten_question top_k)
    as [bm25_hits | e]; simpl; [| reflexivity].
  destruct (encode E rewritten_question) as [v | e]; simpl; [| reflexivity].
  destruct (index v top_k) as [resp | e]; simpl; [| reflexivity].
  destruct (top_fused_hits top_k _) as [[| c pool] | e]; simpl;
    try reflexivity.
  destruct (predict E _) as [scores | e]; reflexivity.
Qed.

Lemma search_and_rerank_reads_only (index : pinecone_index)
    (question rewritten_question : string) (top_k final_k : Z) :
  reads_only
    (search_and_rerank E index question rewritten_question top_k final_k).
Proof.
  intros s. rewrite search_and_rerank_run. each_answer; reflexivity.
Qed.

(** What [retrieve_and_rerank] does once the index is there. *)
Lemma retrieve_and_rerank_built (question : string) (top_k final_k : Z)
    (s : state) (okapi : bm25) :
  bm25_index s = Some okapi ->
  retrieve_and_rerank E question top_k final_k s
  = (index <- call (PineconeIndex (PINECONE_INDEX_NAME E))
                   (pc_Index E (PINECONE_INDEX_NAME E)) ;;
     rewritten_question <- rewrite_query E question ;;
     search_and_rerank E index question rewritten_question top_k final_k)%py
      s.
Proof.
  intros H. unfold retrieve_and_rerank.
  rewrite (bind_ok _ _ _ tt);
    rewrite (ensure_bm25_index_built _ _ H); [| reflexivity].
  simpl.
  match goal with |- Run ?t ?o ?f = ?r => destruct r; reflexivity end.
Qed.

Lemma after_index_reads_only (question : string) (top_k final_k : Z) :
  reads_only
    (index <- call (PineconeIndex (PINECONE_INDEX_NAME E))
                   (pc_Index E (PINECONE_INDEX_NAME E)) ;;
     rewritten_question <- rewrite_query E question ;;
     search_and_rerank E index question rewritten_question top_k final_k)%py.
Proof.
  apply reads_only_bind; [apply reads_only_call | intro index].
  apply reads_only_bind; [apply rewrite_query_reads_only | intro rq].
  apply search_and_rerank_reads_only.
Qed.

End Runs.

(** ** The keyword search *)

Section Comprehension.

Context {A B : Type}.
Variable f : A -> result B.

Lemma comprehension_ok (l : list A) :
  (forall x, In x l -> exists y, f x = Ok y) ->
  exists ys, comprehension f l = Ok ys
             /\ Forall2 (fun x y => f x = Ok y) l ys.
Proof.
  induction l as [| x l IH]; intros Hall; simpl.
  - exists []. split; [reflexivity | constructor].
  - destruct (Hall x (or_introl eq_refl)) as [y Hy]. rewrite Hy.
    destruct IH as [ys [Hys Hall2]].
    { intros x' Hx'. apply Hall. now right. }
    rewrite Hys. exists (y :: ys). split; [reflexivity |].
    now constructor.
Qed.

End Comprehension.

Section KeywordSearch.

Context {F : PyFloat}.

Lemma bm25_hit_of_in_range (corpus : list string) (bm25_scores : list num)
    (i : nat) :
  (i < List.length corpus)%nat ->
  exists doc, nth_error corpus i = Some doc
              /\ bm25_hit_of corpus bm25_scores i
                 = Ok {| bm25_id := "bm25_" ++ Py.str_nat i;
                         bm25_score := nth i bm25_scores zero;
                         bm25_full_content := doc |}.
Proof.
  intros Hi. unfold bm25_hit_of.
  destruct (nth_error corpus i) as [doc |] eqn:Hnth.
  - exists doc. split; reflexivity.
  - apply nth_error_None in Hnth. lia.
Qed.

(** The hits built from consecutive indices are consecutive passages. *)
Lemma bm25_hits_of_seq (corpus : list string) (bm25_scores : list num)
    (len start : nat) (bm25_hits : list bm25_hit) :
  Forall2 (fun i hit => bm25_hit_of corpus bm25_scores i = Ok hit)
    (seq start len) bm25_hits ->
  map bm25_full_content bm25_hits = firstn len (skipn start corpus).
Proof.
  revert start bm25_hits.
  induction len as [| len IH]; intros start bm25_hits Hall; simpl in Hall.
  - inversion Hall. reflexivity.
  - inversion Hall as [| i hit l hits Hhit Hrest]; subst. simpl.
    unfold bm25_hit_of in Hhit.
    destruct (nth_error corpus start) as [doc |] eqn:Hdoc; [| discriminate].
    injection Hhit as <-. simpl.
    rewrite (skipn_nth_error _ _ _ Hdoc). simpl.
    now rewrite (IH _ _ Hrest).
Qed.

(** The keyword search of any question: when the index returns one score for
    each passage of the corpus, it raises nothing and returns
    [min(top_k, len(corpus))] hits, each a passage of the corpus; when no
    score is smaller than another, they are the first passages of the corpus,
    in its order. *)
Lemma keyword_search_hits (index : bm25) (corpus : list string)
    (rewritten_question : string) (top_k : Z) :
  0 <= top_k ->
  List.length (index (simple_tokenizer rewritten_question))
  = List.length corpus ->
  exists bm25_hits,
    keyword_search index corpus rewritten_question top_k = Ok bm25_hits
    /\ List.length bm25_hits
       = Nat.min (Z.to_nat top_k) (List.length corpus)
    /\ (forall hit, In hit bm25_hits -> In (bm25_full_content hit) corpus)
    /\ ((forall a b, In a (index (simple_tokenizer rewritten_question)) ->
                     In b (index (simple_tokenizer rewritten_question)) ->
                     lt a b = false) ->
        map bm25_full_content bm25_hits = firstn (Z.to_nat top_k) corpus).
Proof.
  intros Hk Hlen. unfold keyword_search.
  set (bm25_scores := index (simple_tokenizer rewritten_question)) in *.
  set (bm25_results := Py.slice_to top_k _).
  assert (Hrange : forall i, In i bm25_results -> (i < List.length corpus)%nat).
  { intros i Hi. apply slice_to_incl, sorted_reverse_In in Hi.
    unfold Py.range in Hi. apply in_seq in Hi. lia. }
  destruct (comprehension_ok (bm25_hit_of corpus bm25_scores) bm25_results)
    as [hits [Hhits Hall]].
  { intros i Hi. destruct (bm25_hit_of_in_range corpus bm25_scores i (Hrange i Hi))
      as [doc [_ Hdoc]]. eauto. }
  exists hits. split; [exact Hhits |]. split; [| split].
  - rewrite <- (Forall2_length Hall). unfold bm25_results.
    rewrite slice_to_length by assumption.
    rewrite sorted_reverse_length. unfold Py.range. rewrite length_seq.
    now rewrite Hlen.
  - intros hit Hin.
    clear Hhits. induction Hall as [| i h l l' Hih Hall IH].
    + contradiction.
    + destruct Hin as [<- | Hin].
      * destruct (bm25_hit_of_in_range corpus bm25_scores i
                    (Hrange i (or_introl eq_refl))) as [doc [Hdoc Heq]].
        rewrite Heq in Hih. injection Hih as <-. simpl.
        eapply nth_error_In; eassumption.
      * apply IH; [| exact Hin]. intros j Hj. apply Hrange. now right.
  - intros Htie. unfold bm25_results in Hall.
    rewrite sorted_reverse_no_smaller, slice_to_nonneg in Hall;
      [| exact Hk |].
    + unfold Py.range in Hall. rewrite firstn_seq_min in Hall.
      rewrite (bm25_hits_of_seq _ _ _ _ _ Hall), Hlen. simpl.
      apply firstn_min_length.
    + intros i j Hi Hj. unfold Py.range in Hi, Hj.
      apply in_seq in Hi, Hj. apply Htie; apply nth_In; lia.
Qed.

(** C3, amended.  For every question whose text tokenizes to no terms, the
    keyword search raises nothing when the index returns one score for each
    passage of the corpus, and returns [min(top_k, len(corpus))] hits, each a
    passage of the corpus: no question is answered with an empty list unless
    the corpus is empty or [top_k] is 0.  When the scores of the index for no
    terms all tie, as the zeros of BM25 do, the hits are the first [top_k]
    passages of the corpus, in its order. *)
Theorem keyword_search_no_terms (index : bm25) (corpus : list string)
    (rewritten_question : string) (top_k : Z) :
  simple_tokenizer rewritten_question = [] ->
  0 <= top_k ->
  List.length (index []) = List.length corpus ->
  exists bm25_hits,
    keyword_search index corpus rewritten_question top_k = Ok bm25_hits
    /\ List.length bm25_hits
       = Nat.min (Z.to_nat top_k) (List.length corpus)
    /\ (forall hit, In hit bm25_hits -> In (bm25_full_content hit) corpus)
    /\ ((forall a b, In a (index []) -> In b (index []) -> lt a b = false) ->
        map bm25_full_content bm25_hits = firstn (Z.to_nat top_k) corpus).
Proof.
  intros Htok Hk Hlen.
  destruct (keyword_search_hits index corpus rewritten_question top_k Hk)
    as [bm25_hits Hhits]; [now rewrite Htok |].
  rewrite Htok in Hhits. exists bm25_hits. exact Hhits.
Qed.

(** The scores of the specified index for a question without terms are all
    zero. *)
Lemma okapi_scores_no_terms (weight : string -> list string -> num)
    (tokenized_corpus : list (list string)) :
  okapi_scores weight tokenized_corpus []
  = repeat zero (List.length tokenized_corpus).
Proof.
  unfold okapi_scores. induction tokenized_corpus as [| doc l IH]; simpl.
  - reflexivity.
  - f_equal. exact IH.
Qed.

End KeywordSearch.

(** ** Re-ranking and selection *)

Section Rerank.

Context {F : PyFloat}.

Lemma map_fst_combine {A B : Type} (l : list A) (l' : list B) :
  List.length l' = List.length l -> map fst (combine l l') = l.
Proof.
  revert l'. induction l as [| x l IH]; intros [| y l'] Hlen; simpl in *;
    try reflexivity; try discriminate.
  injection Hlen as Hlen. now rewrite IH.
Qed.

(** C4.  For every pool of candidates and every list of scores of the
    relevance model, one for each candidate, the re-ranked list holds the
    candidates of the pool, none added and none dropped, each with its score;
    it is in descending order of the score; and candidates whose scores tie
    keep the order of the pool, which is the order of the fusion. *)
Theorem rerank_permutation_sorted_stable (O : PyFloatOrder F)
    (pool : list string) (scores : list num) :
  List.length scores = List.length pool ->
  let reranked_results := rerank pool scores in
  Permutation (map fst reranked_results) pool
  /\ Permutation reranked_results (combine pool scores)
  /\ descending snd reranked_results
  /\ forall c : num,
       filter (fun x => tie c (snd x)) reranked_results
       = filter (fun x => tie c (snd x)) (combine pool scores).
Proof.
  intros Hlen reranked_results. unfold reranked_results, rerank.
  repeat split.
  - rewrite <- (map_fst_combine pool scores Hlen) at 2.
    apply Permutation_map, sorted_reverse_perm.
  - apply sorted_reverse_perm.
  - apply sorted_reverse_descending.
  - intros c. apply sorted_reverse_stable.
Qed.

(** C9.  For every re-ranked list and every [final_k] that is not negative,
    the final context is the contents of the first [final_k] entries, in
    their order; it has [min(final_k, len)] entries, and is every content
    when the list has no more than [final_k] entries. *)
Theorem final_context_first_k (reranked_results : list (string * num))
    (final_k : Z) :
  0 <= final_k ->
  final_context reranked_results final_k
  = firstn (Z.to_nat final_k) (map fst reranked_results)
  /\ List.length (final_context reranked_results final_k)
     = Nat.min (Z.to_nat final_k) (List.length reranked_results)
  /\ (Z.of_nat (List.length reranked_results) <= final_k ->
      final_context reranked_results final_k = map fst reranked_results).
Proof.
  intros Hk. unfold final_context. repeat split.
  - rewrite slice_to_nonneg by assumption. symmetry. apply firstn_map.
  - rewrite length_map. now apply slice_to_length.
  - intros Hall. now rewrite slice_to_all.
Qed.

End Rerank.

(** ** The pipeline *)

Section PipelineClaims.

Context {F : PyFloat}.
Variable E : env.

Local Open Scope py_scope.

Lemma calls_app (kind : event -> bool) (tr tr' : list event) :
  calls kind (tr ++ tr') = (calls kind tr + calls kind tr')%nat.
Proof. unfold calls. now rewrite filter_app, length_app. Qed.

(** [retrieve_and_rerank], stage by stage. *)
Lemma retrieve_and_rerank_run (question : string) (top_k final_k : Z)
    (s : state) :
  retrieve_and_rerank E question top_k final_k s
  = let r0 := ensure_bm25_index E s in
    match outcome r0 with
    | Raise e => Run (trace r0) (Raise e) (final r0)
    | Ok _ =>
        let name := PINECONE_INDEX_NAME E in
        match pc_Index E name with
        | Raise e =>
            Run (trace r0 ++ [PineconeIndex name]) (Raise e) (final r0)
        | Ok index =>
            let r2 := search_and_rerank E index question
                        (rewritten E question) top_k final_k (final r0) in
            Run (trace r0
                 ++ PineconeIndex name
                 :: GenerateContent (REWRITE_PROMPT_TEMPLATE question)
                 :: trace r2)
                (outcome r2) (final r0)
        end
    end.
Proof.
  unfold retrieve_and_rerank. cbv zeta.
  destruct (outcome (ensure_bm25_index E s)) as [[] | e] eqn:H0.
  - rewrite (bind_ok _ _ _ tt H0).
    destruct (pc_Index E (PINECONE_INDEX_NAME E)) as [index | e] eqn:Hidx.
    + rewrite (bind_ok (call _ _) _ _ index eq_refl).
      rewrite (bind_ok (rewrite_query E question) _ _ (rewritten E question))
        by now rewrite rewrite_query_run.
      rewrite rewrite_query_run. cbn [trace outcome final call].
      now rewrite search_and_rerank_reads_only.
    + rewrite (bind_raise (call _ _) _ _ e eq_refl). reflexivity.
  - now rewrite (bind_raise _ _ _ e H0).
Qed.

(** Building the index makes no call to the embedding model or to the
    vector index. *)
Lemma ensure_bm25_index_calls (s : state) :
  calls is_encode (trace (ensure_bm25_index E s)) = 0%nat
  /\ calls is_query (trace (ensure_bm25_index E s)) = 0%nat
  /\ forall sentence, ~ In (Encode sentence) (trace (ensure_bm25_index E s)).
Proof.
  destruct (bm25_index s) as [index |] eqn:Hs.
  - rewrite (ensure_bm25_index_built E s index Hs). simpl. auto.
  - rewrite (ensure_bm25_index_unbuilt E s Hs),
      build_bm25_index_from_file_run.
    each_answer; simpl; repeat split; try reflexivity;
      intros sentence Hin; simpl in Hin;
      repeat (destruct Hin as [Hin | Hin]; [discriminate |]); exact Hin.
Qed.

(** The searches call the embedding model once, for the rewritten question,
    and the vector index at most once; an exception of either call is the
    outcome. *)
Lemma search_and_rerank_calls (index : pinecone_index)
    (question rewritten_question : string) (top_k final_k : Z) (s : state)
    (sentence : string) :
  let r := search_and_rerank E index question rewritten_question
             top_k final_k s in
  In (Encode sentence) (trace r) ->
  sentence = rewritten_question
  /\ calls is_encode (trace r) = 1%nat
  /\ (calls is_query (trace r) <= 1)%nat
  /\ (forall e, encode E rewritten_question = Raise e -> outcome r = Raise e)
  /\ (forall v e, encode E rewritten_question = Ok v ->
        index v top_k = Raise e -> outcome r = Raise e).
Proof.
  cbv zeta. rewrite search_and_rerank_run.
  each_answer; simpl; intros Hin;
    repeat (destruct Hin as [Hin | Hin]; [try discriminate |]);
    try contradiction;
    injection Hin as <-;
    (split; [reflexivity |]); (split; [reflexivity |]);
    (split; [unfold calls; simpl; lia |]);
    split; intros; congruence.
Qed.

(** [answer_question] lets the exception of the retrieval through. *)
Lemma answer_question_propagates (question : string) (s : state) (e : exn) :
  outcome (retrieve_and_rerank E question 10 3 s) = Raise e ->
  outcome (answer_question E question s) = Raise e.
Proof.
  intros H. unfold answer_question. now rewrite (bind_raise _ _ _ e H).
Qed.

Lemma prefix_app (a b : string) : String.prefix a (a ++ b) = true.
Proof.
  induction a as [| c a IH]; simpl.
  - destruct b; reflexivity.
  - destruct (ascii_dec c c) as [_ | Hne]; [exact IH | now elim Hne].
Qed.

Lemma for_each_raise {A B : Type} (f : A -> M B) (x : A) (l : list A)
    (s : state) (e : exn) :
  outcome (f x s) = Raise e -> outcome (for_each f (x :: l) s) = Raise e.
Proof.
  intros H. cbn [for_each]. now rewrite (bind_raise _ _ _ e H).
Qed.

(** [run_submission] answers 500 with the message of the exception. *)
Lemma run_submission_internal_error (documents question token : string)
    (questions : list string) (s : state) (e : exn) :
  process_and_embed_document E documents = Ok tt ->
  outcome (answer_question E question s) = Raise e ->
  outcome (run_submission E documents (question :: questions)
             (Some ("Bearer " ++ token)) s)
  = Ok (HTTPException 500 ("An internal error occurred: " ++ str_exn e)).
Proof.
  intros Hdoc Hq. unfold run_submission. cbv zeta.
  rewrite prefix_app. cbn [negb]. unfold try_except.
  match goal with
  | |- context [outcome (?m s)] =>
      assert (Hm : outcome (m s) = Raise e)
  end.
  { rewrite (bind_ok (call _ _) _ _ tt Hdoc). cbn [outcome call final].
    apply bind_raise_outcome. now apply for_each_raise. }
  cbv zeta. rewrite Hm. reflexivity.
Qed.

(** The state [retrieve_and_rerank] leaves is the one the building of the
    index leaves. *)
Lemma retrieve_and_rerank_final (question : string) (top_k final_k : Z)
    (s : state) :
  final (retrieve_and_rerank E question top_k final_k s)
  = final (ensure_bm25_index E s).
Proof.
  rewrite retrieve_and_rerank_run. cbv zeta.
  destruct (outcome (ensure_bm25_index E s)); [| reflexivity].
  destruct (pc_Index E (PINECONE_INDEX_NAME E)); reflexivity.
Qed.

(** Once built, the index is not built again; a building that raised raises
    again. *)
Lemma ensure_bm25_index_again (s : state) :
  let s' := final (ensure_bm25_index E s) in
  (outcome (ensure_bm25_index E s) = Ok tt
   /\ ensure_bm25_index E s' = Run [] (Ok tt) s')
  \/ (exists e, outcome (ensure_bm25_index E s) = Raise e
                /\ outcome (ensure_bm25_index E s') = Raise e).
Proof.
  cbv zeta. destruct (bm25_index s) as [okapi |] eqn:Hs.
  - left. rewrite (ensure_bm25_index_built E s okapi Hs).
    cbn [outcome final]. split; [reflexivity |].
    exact (ensure_bm25_index_built E s okapi Hs).
  - rewrite (ensure_bm25_index_unbuilt E s Hs),
      build_bm25_index_from_file_run.
    destruct (json_load E "golden_dataset.json") as [data | e] eqn:Hload.
    + destruct (comprehension _ data) as [docs | e] eqn:Hdocs.
      * cbv zeta.
        destruct (BM25Okapi E (map simple_tokenizer docs)) as [okapi | e]
          eqn:Hnew; cbn [outcome final].
        -- left. split; [reflexivity |].
           now apply (ensure_bm25_index_built E _ okapi).
        -- right. exists e. split; [reflexivity |].
           rewrite ensure_bm25_index_unbuilt by exact Hs.
           rewrite build_bm25_index_from_file_run, Hload, Hdocs. cbv zeta.
           now rewrite Hnew.
      * right. exists e. cbn [outcome final]. split; [reflexivity |].
        now rewrite (ensure_bm25_index_unbuilt E s Hs),
          build_bm25_index_from_file_run, Hload, Hdocs.
    + right. exists e. cbn [outcome final]. split; [reflexivity |].
      now rewrite (ensure_bm25_index_unbuilt E s Hs),
        build_bm25_index_from_file_run, Hload.
Qed.

(** C5, amended.  For every question, if the call of the generation model
    raises an exception, or the reading of the text of its response does,
    [rewrite_query] returns the question unchanged and raises nothing, and
    [retrieve_and_rerank] ends as the searches for the question itself end. *)
Theorem rewrite_exception_falls_back (question : string) (e : exn) :
  generate_content E (REWRITE_PROMPT_TEMPLATE question) = Raise e
  \/ (exists response,
        generate_content E (REWRITE_PROMPT_TEMPLATE question) = Ok response
        /\ text response = Raise e) ->
  (forall s,
     rewrite_query E question s
     = Run [GenerateContent (REWRITE_PROMPT_TEMPLATE question)]
           (Ok question) s)
  /\ forall top_k final_k s,
       let r := retrieve_and_rerank E question top_k final_k s in
       let r' := (ensure_bm25_index E ;;
                  index <- call (PineconeIndex (PINECONE_INDEX_NAME E))
                                (pc_Index E (PINECONE_INDEX_NAME E)) ;;
                  search_and_rerank E index question question top_k final_k)
                   s in
       outcome r = outcome r' /\ final r = final r'.
Proof.
  intros Hfail.
  assert (Hrw : rewritten E question = question).
  { unfold rewritten.
    destruct Hfail as [-> | [response [-> ->]]]; reflexivity. }
  split.
  - intros s. now rewrite rewrite_query_run, Hrw.
  - intros top_k final_k s. cbv zeta.
    rewrite retrieve_and_rerank_run, Hrw. cbv zeta.
    destruct (outcome (ensure_bm25_index E s)) as [[] | e0] eqn:H0.
    + rewrite (bind_ok _ _ _ tt H0).
      destruct (pc_Index E (PINECONE_INDEX_NAME E)) as [index | e0].
      * rewrite (bind_ok (call _ _) _ _ index eq_refl).
        cbn [trace outcome final call].
        split; [reflexivity |]. now rewrite search_and_rerank_reads_only.
      * rewrite (bind_raise (call _ _) _ _ e0 eq_refl).
        split; reflexivity.
    + rewrite (bind_raise _ _ _ e0 H0). split; reflexivity.
Qed.

(** C6, amended.  When the call of the embedding model for [sentence] is
    made and raises [e], or returns a vector for which the query of the
    vector index raises [e], [retrieve_and_rerank] raises [e] itself: it has
    called the embedding model once and the vector index at most once, so
    nothing is retried, and no context, empty or not, is returned.
    [answer_question] raises [e] too, and [run_submission] answers with the
    status 500 and the message of [e]. *)
Theorem retrieval_exception_propagates (question sentence : string)
    (top_k final_k : Z) (s : state) (e : exn) :
  let r := retrieve_and_rerank E question top_k final_k s in
  In (Encode sentence) (trace r) ->
  encode E sentence = Raise e
  \/ (exists index v,
        pc_Index E (PINECONE_INDEX_NAME E) = Ok index
        /\ encode E sentence = Ok v
        /\ index v top_k = Raise e) ->
  outcome r = Raise e
  /\ calls is_encode (trace r) = 1%nat
  /\ (calls is_query (trace r) <= 1)%nat
  /\ (top_k = 10 -> final_k = 3 ->
      outcome (answer_question E question s) = Raise e
      /\ forall documents questions token,
           process_and_embed_document E documents = Ok tt ->
           outcome (run_submission E documents (question :: questions)
                      (Some ("Bearer " ++ token)) s)
           = Ok (HTTPException 500
                   ("An internal error occurred: " ++ str_exn e))).
Proof.
  intros r Hin Hfail.
  assert (Hmain : outcome r = Raise e
                  /\ calls is_encode (trace r) = 1%nat
                  /\ (calls is_query (trace r) <= 1)%nat).
  { subst r. revert Hin. rewrite retrieve_and_rerank_run. cbv zeta.
    destruct (ensure_bm25_index_calls s) as [Henc [Hqry Hno]].
    destruct (outcome (ensure_bm25_index E s)) as [[] | e0];
      cbn [trace outcome final].
    - destruct (pc_Index E (PINECONE_INDEX_NAME E)) as [index | e0] eqn:Hidx;
        cbn [trace outcome final]; intros Hin.
      + apply in_app_or in Hin as [Hin | Hin]; [now apply Hno in Hin |].
        destruct Hin as [Hin | [Hin | Hin]]; try discriminate.
        destruct (search_and_rerank_calls index question
                    (rewritten E question) top_k final_k
                    (final (ensure_bm25_index E s)) sentence Hin)
          as [-> [Hone [Hq [Hraise Hraise']]]].
        split; [| split].
        * destruct Hfail as [Hfail | [index' [v [Hidx' [Hv Hfail]]]]].
          -- now apply Hraise.
          -- injection Hidx' as Heq. subst index'.
             now apply (Hraise' v).
        * rewrite calls_app, Henc.
          change (PineconeIndex ?n :: GenerateContent ?p :: ?tr)
            with ([PineconeIndex n; GenerateContent p] ++ tr)%list.
          rewrite calls_app. exact Hone.
        * rewrite calls_app, Hqry.
          change (PineconeIndex ?n :: GenerateContent ?p :: ?tr)
            with ([PineconeIndex n; GenerateContent p] ++ tr)%list.
          rewrite calls_app. exact Hq.
      + apply in_app_or in Hin as [Hin | Hin]; [now apply Hno in Hin |].
        destruct Hin as [Hin | []]. discriminate.
    - intros Hin. now apply Hno in Hin. }
  destruct Hmain as [Hout [Henc Hqry]].
  repeat split; try assumption.
  - subst r top_k final_k. now apply answer_question_propagates.
  - intros documents questions token Hdoc.
    apply run_submission_internal_error; [exact Hdoc |].
    subst r top_k final_k. now apply answer_question_propagates.
Qed.

(** C7, amended.  When the dataset holds no passage, [retrieve_and_rerank]
    makes no check of its own: it hands the empty corpus to the constructor
    of the BM25 index, and when that raises, the exception of the library is
    the outcome, before any call to a model or to the vector index, and the
    index stays unbuilt. *)
Theorem empty_corpus_library_exception (question : string)
    (top_k final_k : Z) (s : state) (e : exn) :
  bm25_index s = None ->
  json_load E "golden_dataset.json" = Ok [] ->
  BM25Okapi E [] = Raise e ->
  retrieve_and_rerank E question top_k final_k s
  = Run [OpenJson "golden_dataset.json"; NewBM25Okapi []] (Raise e)
        {| bm25_index := None; corpus := [] |}.
Proof.
  intros Hs Hload Hnew. rewrite retrieve_and_rerank_run. cbv zeta.
  rewrite (ensure_bm25_index_unbuilt E s Hs), build_bm25_index_from_file_run.
  rewrite Hload. simpl. rewrite Hnew. simpl. now rewrite Hs.
Qed.

(** C8.  For every question, [top_k], [final_k] and state of the module, and
    for given answers of the services (the dataset, the BM25 library, the
    rewriting, the embedding, the vector index, the relevance model) and a
    given hash function, a second run of [retrieve_and_rerank], from the
    state the first run leaves, has the outcome of the first: the same
    ordered context, or the same exception. *)
Theorem retrieve_and_rerank_twice (question : string) (top_k final_k : Z)
    (s : state) :
  let r1 := retrieve_and_rerank E question top_k final_k s in
  let r2 := retrieve_and_rerank E question top_k final_k (final r1) in
  outcome r2 = outcome r1.
Proof.
  cbv zeta. rewrite retrieve_and_rerank_final.
  rewrite !retrieve_and_rerank_run. cbv zeta.
  destruct (ensure_bm25_index_again s) as [[Hok Hagain] | [e [He Hagain]]].
  - rewrite Hagain, Hok. cbn [trace outcome final].
    destruct (pc_Index E (PINECONE_INDEX_NAME E)); reflexivity.
  - now rewrite Hagain, He.
Qed.

End PipelineClaims.

(** ** Concrete runs, in exact arithmetic *)

Module Exact.

Local Open Scope string_scope.

Ltac in_trace := repeat first [left; reflexivity | right].

(** *** The fusion *)

(** The scenario of the specification, under one scheme of identifiers: the
    fused order is B, A, D, C, with the sums of the specification. *)
Example rrf_scenario :
  let l := sorted_fused_results
             (fuse (@twice QExact) scenario_dense scenario_keyword) in
  contents l = [Ok "B"; Ok "A"; Ok "D"; Ok "C"]
  /\ map (fun x : @fused QExact => Qred (score x)) l
     = [Qred (1 / 61 + 1 / 62); Qred (1 / 61 + 1 / 63);
        Qred (1 / 62); Qred (1 / 63)].
Proof. vm_compute. split; reflexivity. Qed.

(** The same order in binary64 arithmetic. *)
Example rrf_scenario_binary64 :
  contents (sorted_fused_results
              (fuse (@twice Binary64) scenario_dense scenario_keyword))
  = [Ok "B"; Ok "A"; Ok "D"; Ok "C"].
Proof. vm_compute. reflexivity. Qed.

(** The scenario on the identifiers the two branches do use: six candidates,
    B and A twice. *)
Example rrf_scenario_two_schemes :
  let l := sorted_fused_results
             (fuse (@twice QExact) scenario_dense_ids scenario_keyword) in
  contents l = [Ok "B"; Ok "A"; Ok "D"; Ok "B"; Ok "A"; Ok "C"]
  /\ map (fun x : @fused QExact => Qred (score x)) l
     = [Qred (1 / 61); Qred (1 / 61); Qred (1 / 62); Qred (1 / 62);
        Qred (1 / 63); Qred (1 / 63)].
Proof. vm_compute. split; reflexivity. Qed.

(** In the scenario, the chunk B has two candidates: the one of its dense
    hit with the contribution of rank 0, the one of its keyword hit with the
    contribution of rank 1. *)
Lemma fuse_never_adds_across_lists_witness :
  let fused_results :=
    fuse (@twice QExact) scenario_dense_ids scenario_keyword in
  (exists item,
     In ("dense_1", item) fused_results
     /\ score item = add zero (reciprocal_rank 0))
  /\ (exists item,
        In ("content_66", item) fused_results
        /\ score item = add zero (reciprocal_rank 1))
  /\ List.length fused_results = 6%nat.
Proof.
  assert (Hdense : forall h : @hit QExact, In h scenario_dense_ids ->
                   exists i, hit_id h = "dense_" ++ Py.str_nat i).
  { intros h [<- | [<- | [<- | []]]]; eexists; reflexivity. }
  destruct (fuse_never_adds_across_lists (@twice QExact) scenario_dense_ids
              scenario_keyword Hdense)
    as [_ [_ [_ [Hd Hk]]]].
  split; [| split].
  - exact (Hd (dense 1 "B") (or_introl eq_refl)).
  - exact (Hk (keyword 1 "B") (or_intror (or_introl eq_refl))).
  - reflexivity.
Defined.

(** C10.  A passage that the dataset holds once and the vector index returns
    once is returned twice in the final context: the dense hit is filed
    under the identifier of the vector index and the keyword hit under the
    hash of the content, the two identifiers differ, the fusion keeps two
    candidates, and both pass the re-ranking and the selection. *)
Theorem same_passage_twice_in_context :
  let E := @twice QExact in
  let passage := "alpha beta" in
  let r := retrieve_and_rerank E asked 10 3 initial in
  corpus (final r) = [passage]
  /\ passages (keyword_search
                 (okapi_scores (F := QExact) unit_weight
                    [simple_tokenizer passage])
                 [passage] asked 10)
     = Ok [passage]
  /\ Py.keys (fuse E [dense 0 passage] [keyword 0 passage])
     = ["dense_0"; content_id E passage]
  /\ "dense_0" <> content_id E passage
  /\ outcome r = Ok [passage; passage].
Proof.
  cbv zeta. split; [| split; [| split; [| split]]];
    try (vm_compute; reflexivity).
  vm_compute. discriminate.
Qed.

(** *** The keyword search *)

(** C3, as stated, fails: the question ["?!"] tokenizes to no terms, and
    the keyword search over a corpus of two passages returns both. *)
Lemma no_terms_hits_not_empty :
  simple_tokenizer "?!" = []
  /\ keyword_search (okapi_scores (F := QExact) unit_weight
                       [["alpha"]; ["beta"]])
       ["alpha"; "beta"] "?!" 10
     = Ok [keyword 0 "alpha"; keyword 1 "beta"]
  /\ keyword_search (okapi_scores (F := QExact) unit_weight
                       [["alpha"]; ["beta"]])
       ["alpha"; "beta"] "?!" 10
     <> Ok [].
Proof.
  split; [| split]; try (vm_compute; reflexivity).
  vm_compute. discriminate.
Qed.

Lemma keyword_search_no_terms_witness :
  exists bm25_hits,
    keyword_search (okapi_scores (F := QExact) unit_weight
                      [["alpha"]; ["beta"]])
      ["alpha"; "beta"] "?!" 10
    = Ok bm25_hits
    /\ List.length bm25_hits = Nat.min (Z.to_nat 10) 2
    /\ (forall hit, In hit bm25_hits
                    -> In (bm25_full_content hit) ["alpha"; "beta"])
    /\ map bm25_full_content bm25_hits = ["alpha"; "beta"].
Proof.
  destruct (@keyword_search_no_terms QExact
              (okapi_scores unit_weight [["alpha"]; ["beta"]])
              ["alpha"; "beta"] "?!" 10)
    as [bm25_hits [Hhits [Hlen [Hin Hfirst]]]].
  - reflexivity.
  - lia.
  - reflexivity.
  - exists bm25_hits. repeat split; try assumption.
    apply Hfirst. intros a b [<- | [<- | []]] [<- | [<- | []]]; reflexivity.
Defined.

(** *** Re-ranking and selection *)

Lemma rerank_permutation_sorted_stable_witness :
  let pool := ["a"; "b"; "c"] in
  let scores : list (@num QExact) := [1%Q; 2%Q; 1%Q] in
  Permutation (map fst (rerank pool scores)) pool
  /\ Permutation (rerank pool scores) (combine pool scores)
  /\ descending snd (rerank pool scores)
  /\ forall c : @num QExact,
       filter (fun x => tie c (snd x)) (rerank pool scores)
       = filter (fun x => tie c (snd x)) (combine pool scores).
Proof.
  exact (@rerank_permutation_sorted_stable QExact QExact_order
           ["a"; "b"; "c"] [1%Q; 2%Q; 1%Q] eq_refl).
Defined.

(** Ties in the scores: the pool order decides. *)
Example rerank_ties :
  rerank (F := QExact) ["a"; "b"; "c"] [1%Q; 2%Q; 1%Q]
  = [("b", 2%Q); ("a", 1%Q); ("c", 1%Q)].
Proof. vm_compute. reflexivity. Qed.

Lemma final_context_first_k_witness :
  let reranked : list (string * @num QExact) :=
    [("a", 5%Q); ("b", 4%Q); ("c", 3%Q); ("d", 2%Q); ("e", 1%Q)] in
  final_context reranked 3 = firstn 3 (map fst reranked)
  /\ List.length (final_context reranked 3) = Nat.min 3 5
  /\ (Z.of_nat (List.length reranked) <= 3 ->
      final_context reranked 3 = map fst reranked).
Proof.
  apply (@final_context_first_k QExact
           [("a", 5%Q); ("b", 4%Q); ("c", 3%Q); ("d", 2%Q); ("e", 1%Q)] 3).
  lia.
Defined.

(** The two cases of the specification: five results, and two. *)
Example final_context_of_five_and_two :
  final_context (F := QExact)
    [("a", 5%Q); ("b", 4%Q); ("c", 3%Q); ("d", 2%Q); ("e", 1%Q)] 3
  = ["a"; "b"; "c"]
  /\ final_context (F := QExact) [("a", 5%Q); ("b", 4%Q)] 3 = ["a"; "b"].
Proof. split; reflexivity. Qed.

(** A negative [final_k] drops entries from the end. *)
Example final_context_negative :
  final_context (F := QExact) [("a", 5%Q); ("b", 4%Q); ("c", 3%Q)] (-1)
  = ["a"; "b"].
Proof. reflexivity. Qed.

(** *** Rewriting *)

(** C5, as stated, fails for an empty response: the generation model
    answers blanks, no exception is raised, and the rewritten question is
    the empty text, which the searches then use. *)
Lemma blank_response_not_original :
  let r := rewrite_query (@blank QExact) asked initial in
  outcome r = Ok ""
  /\ outcome r <> Ok asked
  /\ In (Encode "")
        (trace (retrieve_and_rerank (@blank QExact) asked 10 3 initial)).
Proof.
  cbv zeta. split; [| split].
  - vm_compute. reflexivity.
  - vm_compute. discriminate.
  - vm_compute. in_trace.
Qed.

Lemma rewrite_exception_falls_back_witness :
  let E := @twice QExact in
  (forall s,
     rewrite_query E asked s
     = Run [GenerateContent (REWRITE_PROMPT_TEMPLATE asked)]
           (Ok asked) s)
  /\ forall top_k final_k s,
       let r := retrieve_and_rerank E asked top_k final_k s in
       let r' := (ensure_bm25_index E ;;
                  index <- call (PineconeIndex (PINECONE_INDEX_NAME E))
                                (pc_Index E (PINECONE_INDEX_NAME E)) ;;
                  search_and_rerank E index asked asked top_k final_k)%py
                   s in
       outcome r = outcome r' /\ final r = final r'.
Proof.
  apply (@rewrite_exception_falls_back QExact (@twice QExact) asked
           unavailable).
  left. reflexivity.
Defined.

(** *** Failures of the retrieval services *)

(** C6, as stated, fails: the embedding model raises, it has been called
    once and is not called again, by [retrieve_and_rerank] or by the
    endpoint. *)
Lemma embedding_failure_not_retried :
  let E := @no_embedding QExact in
  let r := retrieve_and_rerank E asked 10 3 initial in
  let r' := run_submission E "https://example.org/policy.pdf" [asked]
              (Some "Bearer token") initial in
  outcome r = Raise unavailable
  /\ calls is_encode (trace r) = 1%nat
  /\ calls is_encode (trace r) <> 2%nat
  /\ calls is_encode (trace r') = 1%nat
  /\ outcome r'
     = Ok (HTTPException 500
             "An internal error occurred: 503 Service Unavailable").
Proof.
  cbv zeta. split; [| split; [| split; [| split]]];
    try (vm_compute; reflexivity).
  vm_compute. discriminate.
Qed.

Lemma retrieval_exception_propagates_witness :
  let E := @no_vector_index QExact in
  let r := retrieve_and_rerank E asked 10 3 initial in
  outcome r = Raise unavailable
  /\ calls is_encode (trace r) = 1%nat
  /\ (calls is_query (trace r) <= 1)%nat
  /\ (10 = 10 -> 3 = 3 ->
      outcome (answer_question E asked initial) = Raise unavailable
      /\ forall documents questions token,
           process_and_embed_document E documents = Ok tt ->
           outcome (run_submission E documents (asked :: questions)
                      (Some ("Bearer " ++ token)) initial)
           = Ok (HTTPException 500
                   ("An internal error occurred: " ++ str_exn unavailable))).
Proof.
  apply (@retrieval_exception_propagates QExact (@no_vector_index QExact)
           asked asked 10 3 initial unavailable).
  - vm_compute. in_trace.
  - right. exists (fun _ _ => Raise unavailable), [0%Q].
    repeat split; reflexivity.
Defined.

(** *** The empty corpus *)

(** C7, as stated, fails: with an empty dataset the outcome is that of the
    constructor of the BM25 index.  When it raises, as the one of the
    library does, its arithmetic exception is the outcome; when it accepts
    the empty corpus, the retrieval goes on and returns an empty context. *)
Lemma empty_corpus_no_error_of_its_own :
  let r := retrieve_and_rerank (@empty_raising QExact) asked 10 3 initial in
  let r' := retrieve_and_rerank (@empty_accepting QExact) asked 10 3
              initial in
  outcome r = Raise (Exn "ZeroDivisionError" "division by zero")
  /\ trace r = [OpenJson "golden_dataset.json"; NewBM25Okapi []]
  /\ outcome r' = Ok []
  /\ ~ (exists e, outcome r = Raise e /\ outcome r' = Raise e).
Proof.
  cbv zeta. split; [| split; [| split]]; try (vm_compute; reflexivity).
  intros [e [_ H]]. vm_compute in H. discriminate.
Qed.

Lemma empty_corpus_library_exception_witness :
  retrieve_and_rerank (@empty_raising QExact) asked 10 3 initial
  = Run [OpenJson "golden_dataset.json"; NewBM25Okapi []]
        (Raise (Exn "ZeroDivisionError" "division by zero"))
        {| bm25_index := None; corpus := [] |}.
Proof.
  apply (@empty_corpus_library_exception QExact (@empty_raising QExact)
           asked 10 3 initial (Exn "ZeroDivisionError" "division by zero"));
    reflexivity.
Defined.

(** *** Two runs *)

Example two_runs :
  let r1 := retrieve_and_rerank (@twice QExact) asked 10 3 initial in
  let r2 := retrieve_and_rerank (@twice QExact) asked 10 3 (final r1) in
  outcome r1 = Ok ["alpha beta"; "alpha beta"]
  /\ outcome r2 = outcome r1
  /\ calls (fun ev => match ev with NewBM25Okapi _ => true | _ => false end)
       (trace r2) = 0%nat.
Proof. cbv zeta. repeat split; vm_compute; reflexivity. Qed.

End Exact.

(** ** The tokenizer *)

Section Tokenizer.

Lemma is_word_lower_char (c : ascii) :
  Py.is_word (Py.lower_char c) = Py.is_word c.
Proof. destruct c as [[] [] [] [] [] [] [] []]; reflexivity. Qed.

Lemma lower_char_lowered (c : ascii) : is_lowered (Py.lower_char c) = true.
Proof. destruct c as [[] [] [] [] [] [] [] []]; reflexivity. Qed.

Lemma every_app (p : ascii -> bool) (a b : string) :
  every p (a ++ b) = every p a && every p b.
Proof.
  induction a as [| c a IH]; simpl; [reflexivity |].
  now rewrite IH, andb_assoc.
Qed.

Lemma every_lower (p : ascii -> bool) (s : string) :
  (forall c, p (Py.lower_char c) = p c) -> every p (Py.lower s) = every p s.
Proof.
  intros Hp. induction s as [| c s IH]; simpl; [reflexivity |].
  now rewrite Hp, IH.
Qed.

Lemma lower_lowered (s : string) : every is_lowered (Py.lower s) = true.
Proof.
  induction s as [| c s IH]; simpl; [reflexivity |].
  now rewrite lower_char_lowered, IH.
Qed.

Lemma lowered_lower (s : string) : every is_lowered s = true -> Py.lower s = s.
Proof.
  induction s as [| c s IH]; simpl; [reflexivity |].
  intros H. apply andb_true_iff in H as [Hc Hs].
  apply Ascii.eqb_eq in Hc. now rewrite Hc, IH.
Qed.

Lemma flush_In (cur tok : string) :
  In tok (Py.flush cur) <-> tok = cur /\ cur <> EmptyString.
Proof.
  destruct cur; simpl.
  - split; [contradiction | intros [_ H]; now elim H].
  - split.
    + intros [<- | []]. split; [reflexivity | discriminate].
    + intros [-> _]. now left.
Qed.

Lemma app_not_empty (a : string) (c : ascii) :
  (a ++ String c EmptyString)%string <> EmptyString.
Proof. destruct a; discriminate. Qed.

(** The matches are runs of word characters, none of them empty; [p] is any
    property of the characters read. *)
Lemma findall_words_In (p : ascii -> bool) (cur s tok : string) :
  every Py.is_word cur = true -> every p cur = true -> every p s = true ->
  In tok (Py.findall_words cur s) ->
  tok <> EmptyString /\ every Py.is_word tok = true /\ every p tok = true.
Proof.
  revert cur. induction s as [| c s IH]; simpl; intros cur Hw Hp Hs Hin.
  - apply flush_In in Hin as [-> Hne]. auto.
  - apply andb_true_iff in Hs as [Hc Hs].
    destruct (Py.is_word c) eqn:Hword.
    + apply (IH (cur ++ String c EmptyString)%string); try assumption.
      * rewrite every_app, Hw. simpl. now rewrite Hword.
      * rewrite every_app, Hp. simpl. now rewrite Hc.
    + apply in_app_or in Hin as [Hin | Hin].
      * apply flush_In in Hin as [-> Hne]. auto.
      * now apply (IH EmptyString).
Qed.

Lemma findall_words_nil (cur s : string) :
  Py.findall_words cur s = []
  <-> cur = EmptyString /\ every not_word s = true.
Proof.
  revert cur. induction s as [| c s IH]; simpl; intros cur.
  - destruct cur; simpl; split; try discriminate; auto.
    intros [H _]. discriminate.
  - unfold not_word at 1. destruct (Py.is_word c); simpl.
    + rewrite IH. split; [| intros [_ H]; discriminate].
      intros [H _]. now apply app_not_empty in H.
    + split.
      * intros H. apply app_eq_nil in H as [Hf Hs]. split.
        -- destruct cur; [reflexivity | discriminate].
        -- now apply (IH EmptyString).
      * intros [-> Hs]. simpl. apply (IH EmptyString). auto.
Qed.

Lemma append_empty (s : string) : (s ++ EmptyString)%string = s.
Proof. induction s as [| c s IH]; simpl; [reflexivity | now rewrite IH]. Qed.

Lemma append_assoc (a b c : string) :
  ((a ++ b) ++ c)%string = (a ++ b ++ c)%string.
Proof. induction a as [| x a IH]; simpl; [reflexivity | now rewrite IH]. Qed.

(** A run of word characters is read into the run at hand. *)
Lemma findall_words_run (cur w rest : string) :
  every Py.is_word w = true ->
  Py.findall_words cur (w ++ rest) = Py.findall_words (cur ++ w) rest.
Proof.
  revert cur. induction w as [| c w IH]; simpl; intros cur Hw.
  - now rewrite append_empty.
  - apply andb_true_iff in Hw as [Hc Hw]. rewrite Hc, IH by assumption.
    now rewrite append_assoc.
Qed.

Lemma findall_words_join (toks : list string) :
  (forall tok, In tok toks ->
     tok <> EmptyString /\ every Py.is_word tok = true) ->
  Py.findall_words EmptyString (join " " toks) = toks.
Proof.
  induction toks as [| w toks IH]; intros Hall; [reflexivity |].
  destruct (Hall w (or_introl eq_refl)) as [Hne Hw].
  assert (Hflush : Py.flush w = [w])
    by (destruct w; [now elim Hne | reflexivity]).
  destruct toks as [| w' toks].
  - pose proof (findall_words_run EmptyString w EmptyString Hw) as H.
    rewrite append_empty in H. simpl in H. simpl join. now rewrite H.
  - change (join " " (w :: w' :: toks))
      with (w ++ " " ++ join " " (w' :: toks))%string.
    rewrite findall_words_run by assumption.
    change (EmptyString ++ w)%string with w.
    change (" " ++ join " " (w' :: toks))%string
      with (String " " (join " " (w' :: toks))).
    cbn [Py.findall_words].
    change (Py.is_word " ") with false. cbv iota.
    rewrite Hflush, IH; [reflexivity |].
    intros tok Hin. apply Hall. now right.
Qed.

Lemma lower_app (a b : string) :
  Py.lower (a ++ b) = (Py.lower a ++ Py.lower b)%string.
Proof. induction a as [| c a IH]; simpl; [reflexivity | now rewrite IH]. Qed.

Lemma lower_join (toks : list string) :
  (forall tok, In tok toks -> Py.lower tok = tok) ->
  Py.lower (join " " toks) = join " " toks.
Proof.
  induction toks as [| w toks IH]; intros Hall; [reflexivity |].
  destruct toks as [| w' toks].
  - simpl. apply Hall. now left.
  - change (join " " (w :: w' :: toks))
      with (w ++ " " ++ join " " (w' :: toks))%string.
    rewrite !lower_app, IH by (intros; apply Hall; now right).
    rewrite (Hall w (or_introl eq_refl)). reflexivity.
Qed.

Lemma simple_tokenizer_tokens_aux (text tok : string) :
  In tok (simple_tokenizer text) ->
  tok <> EmptyString
  /\ every Py.is_word tok = true
  /\ Py.lower tok = tok.
Proof.
  intros Hin. unfold simple_tokenizer in Hin.
  destruct (findall_words_In is_lowered EmptyString (Py.lower text) tok
              eq_refl eq_refl (lower_lowered text) Hin) as [Hne [Hw Hl]].
  repeat split; try assumption. now apply lowered_lower.
Qed.

(** Every token is a run of word characters, not empty, in lower case. *)
Theorem simple_tokenizer_tokens (text tok : string) :
  In tok (simple_tokenizer text) ->
  tok <> EmptyString
  /\ every Py.is_word tok = true
  /\ Py.lower tok = tok.
Proof. apply simple_tokenizer_tokens_aux. Qed.

(** A text has no token exactly when it has no word character. *)
Theorem simple_tokenizer_no_terms (text : string) :
  simple_tokenizer text = [] <-> every not_word text = true.
Proof.
  unfold simple_tokenizer. rewrite findall_words_nil.
  rewrite every_lower.
  - split; [intros [_ H]; exact H | auto].
  - intros c. unfold not_word. now rewrite is_word_lower_char.
Qed.

(** The tokens of a text, joined by spaces, are tokenized into themselves. *)
Theorem simple_tokenizer_join (text : string) :
  simple_tokenizer (join " " (simple_tokenizer text)) = simple_tokenizer text.
Proof.
  unfold simple_tokenizer at 1.
  rewrite lower_join.
  - apply findall_words_join. intros tok Hin.
    destruct (simple_tokenizer_tokens_aux text tok Hin) as [Hne [Hw _]]. auto.
  - intros tok Hin. now destruct (simple_tokenizer_tokens_aux text tok Hin) as [_ [_ H]].
Qed.

End Tokenizer.

(** ** Answers *)

Section Answers.

Context {F : PyFloat}.
Variable E : env.

Local Open Scope py_scope.

Lemma generate_answer_with_gemini_run (question : string)
    (context_chunks : list string) (s : state) :
  generate_answer_with_gemini E question context_chunks s
  = match context_chunks with
    | [] =>
        Run [] (Ok "I could not find any relevant information in the document to answer this question.") s
    | _ =>
        let prompt :=
          ANSWER_PROMPT_TEMPLATE (join (newline ++ newline) context_chunks)
                                 question in
        Run [GenerateContent prompt]
            (Ok match generate_content E prompt with
                | Raise _ =>
                    "Error: Could not generate an answer due to an API issue."
                | Ok response =>
                    match text response with
                    | Raise _ =>
                        "Error: Could not generate an answer due to an API issue."
                    | Ok t => Py.strip t
                    end
                end) s
    end.
Proof.
  unfold generate_answer_with_gemini.
  destruct context_chunks as [| c l]; [reflexivity |].
  unfold try_except, bind, call, lift, ret. cbv zeta. cbn [trace outcome final].
  destruct (generate_content E _) as [response | e]; cbn [trace outcome final];
    [| reflexivity].
  destruct (text response) as [t | e]; reflexivity.
Qed.

Lemma generate_answer_never_raises_aux (question : string)
    (context_chunks : list string) (s : state) :
  let r := generate_answer_with_gemini E question context_chunks s in
  final r = s
  /\ exists answer,
       outcome r = Ok answer
       /\ (context_chunks = [] ->
           trace r = []
           /\ answer = "I could not find any relevant information in the document to answer this question.").
Proof.
  cbv zeta. rewrite generate_answer_with_gemini_run.
  destruct context_chunks as [| c l].
  - split; [reflexivity |]. eexists. split; [reflexivity |]. auto.
  - cbv zeta. split; [reflexivity |]. eexists. split; [reflexivity |].
    discriminate.
Qed.

(** [generate_answer_with_gemini] raises nothing and leaves the module state
    as it is.  Without context it asks the generation model nothing and
    answers that it found no information; with context it asks once, and
    answers the stripped text of the response, or the message of the API
    issue when the call or the reading of the text raises. *)
Theorem generate_answer_never_raises (question : string)
    (context_chunks : list string) (s : state) :
  let r := generate_answer_with_gemini E question context_chunks s in
  final r = s
  /\ exists answer,
       outcome r = Ok answer
       /\ (context_chunks = [] ->
           trace r = []
           /\ answer = "I could not find any relevant information in the document to answer this question.")
       /\ (context_chunks <> [] ->
           let prompt :=
             ANSWER_PROMPT_TEMPLATE
               (join (newline ++ newline) context_chunks) question in
           trace r = [GenerateContent prompt]
           /\ ((forall e, generate_content E prompt = Raise e ->
                  answer
                  = "Error: Could not generate an answer due to an API issue.")
               /\ (forall response e,
                     generate_content E prompt = Ok response ->
                     text response = Raise e ->
                     answer
                     = "Error: Could not generate an answer due to an API issue.")
               /\ (forall response t,
                     generate_content E prompt = Ok response ->
                     text response = Ok t -> answer = Py.strip t))).
Proof.
  cbv zeta. rewrite generate_answer_with_gemini_run.
  destruct context_chunks as [| c l].
  - split; [reflexivity |]. eexists. split; [reflexivity |].
    split; [auto | intros H; now elim H].
  - cbv zeta. split; [reflexivity |]. eexists. split; [reflexivity |].
    split; [discriminate |]. intros _. split; [reflexivity |].
    repeat split.
    + intros e ->. reflexivity.
    + intros response e -> ->. reflexivity.
    + intros response t -> ->. reflexivity.
Qed.

(** [answer_question] raises exactly when the retrieval does, with its
    exception; it leaves the state the retrieval leaves; and when the
    retrieval finds no context it answers so, without a call of its own. *)
Theorem answer_question_outcome (question : string) (s : state) :
  let r := retrieve_and_rerank E question 10 3 s in
  let a := answer_question E question s in
  final a = final r
  /\ match outcome r with
     | Raise e => outcome a = Raise e /\ trace a = trace r
     | Ok retrieved_context =>
         exists answer,
           outcome a = Ok answer
           /\ (retrieved_context = [] ->
               trace a = trace r
               /\ answer = "I could not find any relevant information in the document to answer this question.")
     end.
Proof.
  cbv zeta. unfold answer_question.
  destruct (outcome (retrieve_and_rerank E question 10 3 s))
    as [ctx | e] eqn:Hr.
  - rewrite (bind_ok _ _ _ ctx Hr). cbn [trace outcome final].
    destruct (generate_answer_never_raises_aux question ctx
                (final (retrieve_and_rerank E question 10 3 s)))
      as [Hfinal [answer [Hout Hempty]]].
    split; [exact Hfinal |]. exists answer. split; [exact Hout |].
    intros ->. destruct (Hempty eq_refl) as [Htr ->].
    rewrite Htr, app_nil_r. split; reflexivity.
  - rewrite (bind_raise _ _ _ e Hr). cbn [trace outcome final]. auto.
Qed.

Lemma for_each_length {A B : Type} (f : A -> M B) (l : list A) (s : state)
    (ys : list B) :
  outcome (for_each f l s) = Ok ys -> List.length ys = List.length l.
Proof.
  revert s ys. induction l as [| x l IH]; intros s ys; cbn [for_each].
  - intros [= <-]. reflexivity.
  - destruct (outcome (f x s)) as [y | e] eqn:Hx.
    + rewrite (bind_ok _ _ _ y Hx). cbn [outcome].
      destruct (outcome (for_each f l (final (f x s)))) as [ys' | e] eqn:Hl.
      * rewrite (bind_ok _ _ _ ys' Hl). cbn [outcome ret].
        intros [= <-]. simpl. f_equal. exact (IH _ _ Hl).
      * rewrite (bind_raise _ _ _ e Hl). discriminate.
    + rewrite (bind_raise _ _ _ e Hx). discriminate.
Qed.

Lemma for_each_cons_ok {A B : Type} (f : A -> M B) (x : A) (l : list A)
    (s : state) (y : B) :
  outcome (f x s) = Ok y ->
  let rest := for_each f l (final (f x s)) in
  for_each f (x :: l) s
  = Run (trace (f x s) ++ trace rest)
        match outcome rest with
        | Ok ys => Ok (y :: ys)
        | Raise e => Raise e
        end
        (final rest).
Proof.
  intros Hx. cbv zeta. cbn [for_each]. rewrite (bind_ok _ _ _ y Hx).
  destruct (outcome (for_each f l (final (f x s)))) as [ys | e] eqn:Hl.
  - rewrite (bind_ok _ _ _ ys Hl). cbn [trace outcome final ret].
    now rewrite app_nil_r.
  - now rewrite (bind_raise _ _ _ e Hl).
Qed.

(** The results of a loop that ends normally are those of its items in
    turn. *)
Lemma for_each_in_turn {A B : Type} (f : A -> M B) (l : list A) (s : state)
    (ys : list B) :
  outcome (for_each f l s) = Ok ys -> each_in_turn f l s ys.
Proof.
  revert s ys. induction l as [| x l IH]; intros s ys.
  - cbn [for_each ret outcome]. intros [= <-]. exact I.
  - destruct (outcome (f x s)) as [y | e] eqn:Hx.
    + rewrite (for_each_cons_ok f x l s y Hx). cbv zeta. cbn [outcome].
      destruct (outcome (for_each f l (final (f x s)))) as [ys' | e] eqn:Hl;
        [| discriminate].
      intros [= <-]. cbn [each_in_turn]. split; [exact Hx |].
      now apply IH.
    + cbn [for_each]. rewrite (bind_raise _ _ _ e Hx). discriminate.
Qed.

(** A loop that raises has done the items before one item normally, and
    raises the exception of that item. *)
Lemma for_each_first_raise {A B : Type} (f : A -> M B) (l : list A)
    (s : state) (e : exn) :
  outcome (for_each f l s) = Raise e ->
  exists before x after ys,
    l = (before ++ x :: after)%list
    /\ outcome (for_each f before s) = Ok ys
    /\ outcome (f x (final (for_each f before s))) = Raise e.
Proof.
  revert s. induction l as [| x l IH]; intros s.
  - cbn [for_each ret outcome]. discriminate.
  - destruct (outcome (f x s)) as [y | e'] eqn:Hx.
    + rewrite (for_each_cons_ok f x l s y Hx). cbv zeta. cbn [outcome].
      destruct (outcome (for_each f l (final (f x s)))) as [ys' | e''] eqn:Hl;
        [discriminate |].
      intros [= ->].
      destruct (IH _ Hl) as [before [x' [after [ys [-> [Hb Hx']]]]]].
      exists (x :: before), x', after, (y :: ys).
      rewrite (for_each_cons_ok f x before s y Hx). cbv zeta.
      cbn [outcome final]. rewrite Hb. repeat split. exact Hx'.
    + cbn [for_each]. rewrite (bind_raise _ _ _ e' Hx). cbn [outcome].
      intros [= ->]. exists [], x, l, []. repeat split. exact Hx.
Qed.

(** The endpoint always answers.  A request without a bearer token gets the
    status 401, before any call and any change of the state.  Another one
    has the document ingested, then the questions answered in turn: it gets
    the answers of [answer_question], one for each question and in their
    order, when nothing raises, and the status 500 with the message of the
    exception otherwise, which is the exception of the ingestion or of the
    first question whose answering raises; no later question is asked. *)
Theorem run_submission_response (documents : string)
    (questions : list string) (authorization : option string) (s : state) :
  let r := run_submission E documents questions authorization s in
  let authorized :=
    match authorization with
    | Some a => String.prefix "Bearer " a
    | None => false
    end in
  let answering := for_each (answer_question E) questions s in
  let internal_error := fun e : exn =>
    HTTPException 500 ("An internal error occurred: " ++ str_exn e) in
  if authorized then
    match process_and_embed_document E documents with
    | Raise e =>
        r = Run [ProcessDocument documents] (Ok (internal_error e)) s
    | Ok _ =>
        trace r = ProcessDocument documents :: trace answering
        /\ final r = final answering
        /\ match outcome answering with
           | Ok answers =>
               outcome r = Ok (RunResponse answers)
               /\ each_in_turn (answer_question E) questions s answers
               /\ List.length answers = List.length questions
           | Raise e =>
               outcome r = Ok (internal_error e)
               /\ exists before question after answers,
                    questions = (before ++ question :: after)%list
                    /\ outcome (for_each (answer_question E) before s)
                       = Ok answers
                    /\ outcome
                         (answer_question E question
                            (final (for_each (answer_question E) before s)))
                       = Raise e
           end
    end
  else
    r = Run [] (Ok (HTTPException 401
                      "Authorization header with Bearer token is required."))
            s.
Proof.
  cbv zeta. unfold run_submission. cbv zeta.
  destruct (match authorization with
            | Some a => String.prefix "Bearer " a
            | None => false
            end) eqn:Hauth; cbn [negb]; [| reflexivity].
  unfold try_except.
  destruct (process_and_embed_document E documents) as [[] | e] eqn:Hdoc.
  - rewrite (bind_ok (call _ _) _ _ tt eq_refl).
    cbn [trace outcome final call].
    destruct (outcome (for_each (answer_question E) questions s))
      as [answers | e] eqn:Hall.
    + rewrite (bind_ok _ _ _ answers Hall).
      cbn [trace outcome final ret app]. rewrite app_nil_r.
      repeat split.
      * now apply for_each_in_turn.
      * exact (for_each_length _ _ _ _ Hall).
    + rewrite (bind_raise _ _ _ e Hall).
      cbn [trace outcome final ret app]. rewrite app_nil_r.
      repeat split. now apply for_each_first_raise.
  - rewrite (bind_raise (call _ _) _ _ e eq_refl).
    cbn [trace outcome final call ret app]. reflexivity.
Qed.

End Answers.

(** ** The keyword index *)

Section Comprehensions.

Context {A B : Type}.
Variable f : A -> result B.

Lemma comprehension_Forall2 (l : list A) (ys : list B) :
  comprehension f l = Ok ys -> Forall2 (fun x y => f x = Ok y) l ys.
Proof.
  revert ys. induction l as [| x l IH]; simpl; intros ys.
  - intros [= <-]. constructor.
  - destruct (f x) as [y | e] eqn:Hx; [| discriminate].
    destruct (comprehension f l) as [ys' | e]; [| discriminate].
    intros [= <-]. constructor; [exact Hx | now apply IH].
Qed.

(** When every exception [f] raises is [e], an element on which [f] raises
    makes the comprehension raise [e]. *)
Lemma comprehension_raise (l : list A) (x : A) (e : exn) :
  (forall x' e', f x' = Raise e' -> e' = e) ->
  In x l -> f x = Raise e -> comprehension f l = Raise e.
Proof.
  intros Honly. induction l as [| x' l IH]; simpl; [contradiction |].
  intros Hin Hx. destruct (f x') as [y | e'] eqn:Hx'.
  - destruct Hin as [-> | Hin]; [congruence |].
    now rewrite (IH Hin Hx).
  - now rewrite (Honly x' e' Hx').
Qed.

End Comprehensions.

Lemma getitem_raise {V : Type} (d : Py.dict V) (key : string) (e : exn) :
  getitem d key = Raise e -> e = KeyError key.
Proof. unfold getitem. destruct (Py.get d key); congruence. Qed.

Lemma getitem_Ok {V : Type} (d : Py.dict V) (key : string) (v : V) :
  getitem d key = Ok v <-> Py.get d key = Some v.
Proof. unfold getitem. destruct (Py.get d key); split; congruence. Qed.

Section IndexBuilding.

Context {F : PyFloat}.
Variable E : env.

Local Open Scope py_scope.

(** An item of the dataset without the key ['ground_truth_context'] makes the
    building raise [KeyError]: the constructor of the index is not called,
    and the module state is as before. *)
Theorem build_bm25_index_missing_context (filepath : string) (s : state)
    (data : list (Py.dict string)) (item : Py.dict string) :
  json_load E filepath = Ok data ->
  In item data ->
  Py.get item "ground_truth_context" = None ->
  build_bm25_index_from_file E filepath s
  = Run [OpenJson filepath] (Raise (KeyError "ground_truth_context")) s.
Proof.
  intros Hload Hin Hget.
  rewrite build_bm25_index_from_file_run, Hload.
  rewrite (comprehension_raise _ data item (KeyError "ground_truth_context"));
    [reflexivity | | exact Hin |].
  - intros x e. apply getitem_raise.
  - unfold getitem. now rewrite Hget.
Qed.

(** After a building that raises nothing, the corpus is the contexts of the
    items of the dataset, in their order, and the index is the one built
    from the tokens of the corpus: the scores of the index and the passages
    of the corpus go by the same positions. *)
Theorem build_bm25_index_from_file_built (filepath : string) (s : state) :
  let r := build_bm25_index_from_file E filepath s in
  outcome r = Ok tt ->
  exists data index,
    json_load E filepath = Ok data
    /\ map (fun item => Py.get item "ground_truth_context") data
       = map Some (corpus (final r))
    /\ BM25Okapi E (map simple_tokenizer (corpus (final r))) = Ok index
    /\ bm25_index (final r) = Some index
    /\ trace r = [OpenJson filepath;
                  NewBM25Okapi (map simple_tokenizer (corpus (final r)))].
Proof.
  cbv zeta. rewrite build_bm25_index_from_file_run.
  destruct (json_load E filepath) as [data | e]; [| discriminate].
  destruct (comprehension _ data) as [docs | e] eqn:Hdocs; [| discriminate].
  cbv zeta.
  destruct (BM25Okapi E (map simple_tokenizer docs)) as [index | e] eqn:Hnew;
    [| discriminate].
  intros _. exists data, index. cbn [trace outcome final corpus bm25_index].
  repeat split; try assumption.
  apply comprehension_Forall2 in Hdocs. clear Hnew.
  induction Hdocs as [| item doc l l' Hitem _ IH]; simpl; [reflexivity |].
  apply getitem_Ok in Hitem. now rewrite Hitem, IH.
Qed.

Lemma ensure_bm25_index_Ok (s : state) :
  outcome (ensure_bm25_index E s) = Ok tt ->
  exists okapi, bm25_index (final (ensure_bm25_index E s)) = Some okapi.
Proof.
  destruct (bm25_index s) as [okapi |] eqn:Hs.
  - rewrite (ensure_bm25_index_built E s okapi Hs). intros _.
    exists okapi. exact Hs.
  - rewrite (ensure_bm25_index_unbuilt E s Hs),
      build_bm25_index_from_file_run.
    each_answer; cbn [outcome final bm25_index]; try discriminate.
    intros _. eauto.
Qed.

Lemma search_and_rerank_builds_nothing (index : pinecone_index)
    (question rewritten_question : string) (top_k final_k : Z) (s : state) :
  calls builds_index
    (trace (search_and_rerank E index question rewritten_question
              top_k final_k s)) = 0%nat.
Proof. rewrite search_and_rerank_run. each_answer; reflexivity. Qed.

(** The index is built once: after a retrieval that returned a context, a
    retrieval for any question reads no file, builds no index and leaves the
    module state as it is. *)
Theorem bm25_index_built_once (question question' : string)
    (top_k final_k top_k' final_k' : Z) (s : state) (context : list string) :
  let r := retrieve_and_rerank E question top_k final_k s in
  outcome r = Ok context ->
  let r' := retrieve_and_rerank E question' top_k' final_k' (final r) in
  final r' = final r /\ calls builds_index (trace r') = 0%nat.
Proof.
  intros r Hr r'. subst r r'.
  assert (Hok : outcome (ensure_bm25_index E s) = Ok tt).
  { rewrite retrieve_and_rerank_run in Hr. cbv zeta in Hr.
    destruct (outcome (ensure_bm25_index E s)) as [[] | e];
      [reflexivity | discriminate]. }
  destruct (ensure_bm25_index_Ok s Hok) as [okapi Hbuilt].
  rewrite <- (retrieve_and_rerank_final E question top_k final_k) in Hbuilt.
  set (s' := final (retrieve_and_rerank E question top_k final_k s)) in *.
  rewrite (retrieve_and_rerank_run E question' top_k' final_k' s').
  rewrite (ensure_bm25_index_built E s' okapi Hbuilt).
  cbv zeta. cbn [trace outcome final].
  destruct (pc_Index E (PINECONE_INDEX_NAME E)) as [index | e];
    cbn [trace outcome final]; split; try reflexivity.
  change (@nil event ++ ?l)%list with l.
  change (PineconeIndex ?n :: GenerateContent ?p :: ?tr)
    with ([PineconeIndex n; GenerateContent p] ++ tr)%list.
  rewrite calls_app. now rewrite search_and_rerank_builds_nothing.
Qed.

End IndexBuilding.

(** ** The retrieval *)

Section Lists.

Context {A B : Type}.

Lemma Forall2_In_r (R : A -> B -> Prop) (l : list A) (l' : list B) (y : B) :
  Forall2 R l l' -> In y l' -> exists x, In x l /\ R x y.
Proof.
  induction 1 as [| x y' l l' Hxy _ IH]; simpl; [contradiction |].
  intros [<- | Hin].
  - exists x. auto.
  - destruct (IH Hin) as [x' [Hx' Hr]]. exists x'. auto.
Qed.

Lemma map_fst_combine_firstn (l : list A) (l' : list B) :
  map fst (combine l l') = firstn (List.length l') l.
Proof.
  revert l'. induction l as [| x l IH]; intros [| y l']; simpl;
    try reflexivity.
  now rewrite IH.
Qed.

Lemma NoDup_firstn (n : nat) (l : list A) : NoDup l -> NoDup (firstn n l).
Proof.
  intros H. rewrite <- (firstn_skipn n l) in H.
  now apply NoDup_app_remove_r in H.
Qed.

Lemma StronglySorted_app_inv (R : A -> A -> Prop) (l1 l2 : list A) :
  StronglySorted R (l1 ++ l2) ->
  forall x y, In x l1 -> In y l2 -> R x y.
Proof.
  induction l1 as [| a l1 IH]; simpl; intros Hs x y Hx Hy; [contradiction |].
  apply StronglySorted_inv in Hs as [Hs Ha].
  destruct Hx as [<- | Hx].
  - rewrite Forall_forall in Ha. apply Ha, in_or_app. now right.
  - now apply IH.
Qed.

Lemma StronglySorted_firstn (R : A -> A -> Prop) (n : nat) (l : list A) :
  StronglySorted R l -> StronglySorted R (firstn n l).
Proof.
  intros Hs. revert n. induction Hs as [| a l Hs IH Ha]; intros [| n]; simpl;
    try constructor.
  - apply IH.
  - rewrite Forall_forall in *. intros x Hx. apply Ha.
    rewrite <- (firstn_skipn n l). apply in_or_app. now left.
Qed.

Lemma StronglySorted_Forall2 (R : A -> A -> Prop) (R' : B -> B -> Prop)
    (P : A -> B -> Prop) (l : list A) (l' : list B) :
  (forall x x' y y', P x y -> P x' y' -> R x x' -> R' y y') ->
  Forall2 P l l' -> StronglySorted R l -> StronglySorted R' l'.
Proof.
  intros HP Hall. induction Hall as [| x y l l' Hxy Hall IH]; intros Hs.
  - constructor.
  - apply StronglySorted_inv in Hs as [Hs Hx]. constructor; [now apply IH |].
    rewrite Forall_forall in *. intros y' Hy'.
    destruct (Forall2_In_r _ _ _ _ Hall Hy') as [x' [Hx' Hxy']].
    exact (HP _ _ _ _ Hxy Hxy' (Hx x' Hx')).
Qed.

End Lists.

Section KeywordRanking.

Context {F : PyFloat}.

(** The keyword search returns the [top_k] passages with the best scores,
    the best first, whatever the scores are (there is no threshold): the hit
    of the position [i] of the corpus is named [bm25_i] and carries the
    passage and the score of that position; no position is returned twice;
    and no passage left out scores more than a passage returned. *)
Theorem keyword_search_ranked (O : PyFloatOrder F) (index : bm25)
    (corpus : list string) (rewritten_question : string) (top_k : Z) :
  let bm25_scores := index (simple_tokenizer rewritten_question) in
  0 <= top_k ->
  List.length bm25_scores = List.length corpus ->
  exists bm25_hits positions,
    keyword_search index corpus rewritten_question top_k = Ok bm25_hits
    /\ NoDup positions
    /\ List.length positions = Nat.min (Z.to_nat top_k) (List.length corpus)
    /\ Forall2 (fun i hit =>
                  bm25_id hit = "bm25_" ++ Py.str_nat i
                  /\ nth_error corpus i = Some (bm25_full_content hit)
                  /\ nth_error bm25_scores i = Some (bm25_score hit))
               positions bm25_hits
    /\ descending bm25_score bm25_hits
    /\ forall i j,
         In i positions -> (j < List.length corpus)%nat -> ~ In j positions ->
         lt (nth i bm25_scores zero) (nth j bm25_scores zero) = false.
Proof.
  intros bm25_scores Hk Hlen. unfold keyword_search.
  fold bm25_scores.
  set (key := fun i : nat => nth i bm25_scores zero).
  set (ranking := sorted_reverse key (Py.range (List.length bm25_scores))).
  set (bm25_results := Py.slice_to top_k ranking).
  assert (Hrange : forall i, In i ranking <-> (i < List.length corpus)%nat).
  { intros i. unfold ranking. rewrite sorted_reverse_In. unfold Py.range.
    rewrite in_seq. lia. }
  assert (Hin : forall i, In i bm25_results -> (i < List.length corpus)%nat).
  { intros i Hi. apply Hrange. exact (slice_to_incl _ _ _ Hi). }
  destruct (comprehension_ok (bm25_hit_of corpus bm25_scores) bm25_results)
    as [hits [Hhits Hall]].
  { intros i Hi.
    destruct (bm25_hit_of_in_range corpus bm25_scores i (Hin i Hi))
      as [doc [_ Hdoc]]. eauto. }
  assert (Hdesc : descending key ranking)
    by apply sorted_reverse_descending.
  assert (Hslice : bm25_results = firstn (Z.to_nat top_k) ranking)
    by now apply slice_to_nonneg.
  exists hits, bm25_results. split; [exact Hhits |]. split; [| split; [| split; [| split]]].
  - rewrite Hslice. apply NoDup_firstn.
    apply (Permutation_NoDup
             (Permutation_sym (sorted_reverse_perm key _))).
    apply seq_NoDup.
  - unfold bm25_results. rewrite slice_to_length by assumption.
    unfold ranking. rewrite sorted_reverse_length. unfold Py.range.
    now rewrite length_seq, Hlen.
  - clear Hhits Hslice.
    induction Hall as [| i hit l l' Hhit Hall IH]; constructor.
    + destruct (bm25_hit_of_in_range corpus bm25_scores i
                  (Hin i (or_introl eq_refl))) as [doc [Hdoc Heq]].
      rewrite Heq in Hhit. injection Hhit as <-. simpl.
      repeat split; [exact Hdoc |].
      apply nth_error_nth'. rewrite Hlen. exact (Hin i (or_introl eq_refl)).
    + apply IH. intros j Hj. apply Hin. now right.
  - unfold descending.
    apply (StronglySorted_Forall2
             (fun i j => lt (key i) (key j) = false) _
             (fun i hit => bm25_hit_of corpus bm25_scores i = Ok hit)
             bm25_results hits); [| exact Hall |].
    + intros i j hi hj Hi Hj Hij. unfold bm25_hit_of in Hi, Hj.
      destruct (nth_error corpus i); [| discriminate].
      destruct (nth_error corpus j); [| discriminate].
      injection Hi as <-. injection Hj as <-. exact Hij.
    + rewrite Hslice. now apply StronglySorted_firstn.
  - intros i j Hi Hj Hout. rewrite Hslice in Hi, Hout.
    apply Hrange in Hj. rewrite <- (firstn_skipn (Z.to_nat top_k) ranking) in Hj.
    apply in_app_or in Hj as [Hj | Hj]; [contradiction |].
    unfold descending in Hdesc.
    rewrite <- (firstn_skipn (Z.to_nat top_k) ranking) in Hdesc.
    exact (StronglySorted_app_inv _ _ _ Hdesc i j Hi Hj).
Qed.

(** The relevance model decides with the scores it returns: a candidate for
    which it returns no score is dropped, without an error. *)
Theorem rerank_drops_unscored (pool : list string) (scores : list num) :
  Permutation (map fst (rerank pool scores))
              (firstn (List.length scores) pool)
  /\ List.length (rerank pool scores)
     = Nat.min (List.length pool) (List.length scores).
Proof.
  unfold rerank. split.
  - rewrite <- map_fst_combine_firstn.
    apply Permutation_map, sorted_reverse_perm.
  - rewrite sorted_reverse_length. apply length_combine.
Qed.

End KeywordRanking.

(** ** The context *)

Section FusedMetadata.

Context {F : PyFloat}.

Lemma set_In {V : Type} (d : Py.dict V) (key key' : string) (v v' : V) :
  In (key, v) (Py.set d key' v') -> In (key, v) d \/ (key = key' /\ v = v').
Proof.
  induction d as [| [k0 v0] d IH]; simpl.
  - intros [[= <- <-] | []]. now right.
  - destruct (String.eqb_spec k0 key') as [-> | _]; simpl.
    + intros [[= <- <-] | Hin]; auto.
    + intros [Heq | Hin]; [now left; left |].
      destruct (IH Hin) as [H | H]; auto.
Qed.

(** A loop of the fusion keeps the metadata it finds and files the metadata
    of its hits. *)
Lemma rrf_loop_metadata {H : Type} (id_of : H -> string)
    (md_of : H -> metadata) (P : metadata -> Prop) (hits : list H)
    (start : nat) (d : Py.dict fused) :
  (forall key item, In (key, item) d -> P (fused_metadata item)) ->
  (forall h, In h hits -> P (md_of h)) ->
  forall key item,
    In (key, item) (rrf_loop id_of md_of start hits d) ->
    P (fused_metadata item).
Proof.
  revert start d. induction hits as [| h hits IH]; intros start d Hd Hhits.
  - exact Hd.
  - unfold rrf_loop in *. simpl. apply IH; [| intros; apply Hhits; now right].
    intros key item Hin. rewrite rrf_add_unfold in Hin.
    apply set_In in Hin as [Hin | [_ ->]]; [exact (Hd _ _ Hin) |].
    simpl. destruct (Py.get d (id_of h)) as [item' |] eqn:Hget.
    + exact (Hd _ _ (get_In _ _ _ Hget)).
    + apply Hhits. now left.
Qed.

Lemma fuse_metadata (E : env) (pinecone_hits : list hit)
    (bm25_hits : list bm25_hit) (item : fused) :
  In item (Py.values (fuse E pinecone_hits bm25_hits)) ->
  In (fused_metadata item)
     (map hit_metadata pinecone_hits ++ map bm25_metadata bm25_hits).
Proof.
  unfold Py.values. intros Hin. apply in_map_iff in Hin as [[key x] [<- Hin]].
  simpl. rewrite fuse_loops in Hin.
  set (P := fun md : metadata =>
              In md (map hit_metadata pinecone_hits
                     ++ map bm25_metadata bm25_hits)).
  change (P (fused_metadata x)).
  refine (rrf_loop_metadata _ _ P _ _ _ _ _ key x Hin).
  - refine (rrf_loop_metadata _ _ P _ _ _ _ _); [intros k0 i0 [] |].
    intros h Hh. apply in_or_app. left. now apply in_map.
  - intros h Hh. apply in_or_app. right.
    exact (in_map bm25_metadata _ _ Hh).
Qed.

Lemma keyword_search_corpus (index : bm25) (corpus : list string)
    (rewritten_question : string) (top_k : Z) (bm25_hits : list bm25_hit)
    (hit : bm25_hit) :
  keyword_search index corpus rewritten_question top_k = Ok bm25_hits ->
  In hit bm25_hits -> In (bm25_full_content hit) corpus.
Proof.
  unfold keyword_search. intros Hhits Hin.
  apply comprehension_Forall2 in Hhits.
  destruct (Forall2_In_r _ _ _ _ Hhits Hin) as [i [_ Hi]].
  unfold bm25_hit_of in Hi.
  destruct (nth_error corpus i) as [doc |] eqn:Hdoc; [| discriminate].
  injection Hi as <-. simpl. exact (nth_error_In _ _ Hdoc).
Qed.

(** The contents of the pool are the contents of fused candidates. *)
Lemma top_fused_hits_In (top_k : Z) (sorted_fused : list fused)
    (pool : list string) (content : string) :
  top_fused_hits top_k sorted_fused = Ok pool ->
  In content pool ->
  exists item,
    In item sorted_fused
    /\ Py.get (fused_metadata item) "full_content" = Some content.
Proof.
  unfold top_fused_hits. intros Hpool Hin.
  apply comprehension_Forall2 in Hpool.
  destruct (Forall2_In_r _ _ _ _ Hpool Hin) as [item [Hitem Hget]].
  exists item. split; [exact (slice_to_incl _ _ _ Hitem) |].
  now apply getitem_Ok.
Qed.


Lemma final_context_In (reranked_results : list (string * num))
    (final_k : Z) (content : string) :
  In content (final_context reranked_results final_k) ->
  In content (map fst reranked_results).
Proof.
  unfold final_context. intros Hin.
  apply in_map_iff in Hin as [x [<- Hx]].
  apply in_map. exact (slice_to_incl _ _ _ Hx).
Qed.

Lemma rerank_In (pool : list string) (scores : list num) (content : string) :
  In content (map fst (rerank pool scores)) -> In content pool.
Proof.
  unfold rerank. intros Hin. apply in_map_iff in Hin as [[c sc] [<- Hx]].
  apply sorted_reverse_In in Hx. exact (in_combine_l _ _ _ _ Hx).
Qed.

End FusedMetadata.

Section Context.

Context {F : PyFloat}.
Variable E : env.

Local Open Scope py_scope.

(** What a run of the searches that returns a context has gone through. *)
Lemma search_and_rerank_Ok (index : pinecone_index)
    (question rewritten_question : string) (top_k final_k : Z) (s : state)
    (context : list string) :
  outcome (search_and_rerank E index question rewritten_question
             top_k final_k s) = Ok context ->
  exists okapi bm25_hits query_embedding pinecone_results pool,
    bm25_index s = Some okapi
    /\ keyword_search okapi (corpus s) rewritten_question top_k
       = Ok bm25_hits
    /\ encode E rewritten_question = Ok query_embedding
    /\ index query_embedding top_k = Ok pinecone_results
    /\ top_fused_hits top_k
         (sorted_fused_results
            (fuse E match pinecone_results with
                    | Some matches => matches
                    | None => []
                    end bm25_hits)) = Ok pool
    /\ ((pool = [] /\ context = [])
        \/ exists scores,
             pool <> []
             /\ predict E (map (fun content => (question, content)) pool)
                = Ok scores
             /\ context = final_context (rerank pool scores) final_k).
Proof.
  rewrite search_and_rerank_run.
  destruct (bm25_index s) as [okapi |]; [| discriminate].
  destruct (keyword_search okapi (corpus s) rewritten_question top_k)
    as [bm25_hits |] eqn:Hkw; [| discriminate].
  destruct (encode E rewritten_question) as [v |] eqn:Henc; [| discriminate].
  destruct (index v top_k) as [pinecone_results |] eqn:Hqry; [| discriminate].
  cbv zeta.
  destruct (top_fused_hits top_k _) as [pool |] eqn:Hpool; [| discriminate].
  intros Hout. exists okapi, bm25_hits, v, pinecone_results, pool.
  do 5 (split; [assumption || reflexivity |]).
  destruct pool as [| c pool]; cbn [outcome] in Hout.
  - left. split; [reflexivity | congruence].
  - right.
    destruct (predict E _) as [scores |] eqn:Hscores; [| discriminate].
    exists scores. cbn [outcome] in Hout.
    split; [discriminate |]. split; [reflexivity | congruence].
Qed.

Lemma search_and_rerank_context (index : pinecone_index)
    (question rewritten_question : string) (top_k final_k : Z) (s : state)
    (context : list string) :
  outcome (search_and_rerank E index question rewritten_question
             top_k final_k s) = Ok context ->
  (0 <= final_k -> (List.length context <= Z.to_nat final_k)%nat)
  /\ forall content,
       In content context ->
       In content (corpus s)
       \/ exists query_embedding matches h,
            encode E rewritten_question = Ok query_embedding
            /\ index query_embedding top_k = Ok (Some matches)
            /\ In h matches
            /\ Py.get (hit_metadata h) "full_content" = Some content.
Proof.
  intros Hout.
  destruct (search_and_rerank_Ok _ _ _ _ _ _ _ Hout)
    as [okapi [bm25_hits [v [results [pool
         [Hidx [Hkw [Henc [Hqry [Hpool Hctx]]]]]]]]]].
  split.
  - intros Hk. destruct Hctx as [[_ ->] | [scores [_ [_ ->]]]]; simpl; [lia |].
    unfold final_context. rewrite length_map, slice_to_length by assumption.
    lia.
  - intros content Hin.
    destruct Hctx as [[_ ->] | [scores [_ [_ ->]]]]; [contradiction |].
    apply final_context_In, rerank_In in Hin.
    destruct (top_fused_hits_In _ _ _ _ Hpool Hin) as [item [Hitem Hget]].
    apply sorted_reverse_In, fuse_metadata in Hitem.
    apply in_app_or in Hitem as [Hitem | Hitem];
      apply in_map_iff in Hitem as [h [Hmd Hh]].
    + right. destruct results as [matches |]; [| contradiction].
      exists v, matches, h. rewrite Hmd. auto.
    + left. rewrite <- Hmd in Hget. simpl in Hget. injection Hget as <-.
      exact (keyword_search_corpus _ _ _ _ _ _ Hkw Hh).
Qed.

(** [retrieve_and_rerank] returns no more than [final_k] passages, and only
    passages of the corpus or contents of matches of the vector index for
    the rewritten question: it makes no passage up. *)
Theorem retrieve_and_rerank_context (question : string) (top_k final_k : Z)
    (s : state) (context : list string) :
  let r := retrieve_and_rerank E question top_k final_k s in
  outcome r = Ok context ->
  (0 <= final_k -> (List.length context <= Z.to_nat final_k)%nat)
  /\ forall content,
       In content context ->
       In content (corpus (final r))
       \/ exists index query_embedding matches h,
            pc_Index E (PINECONE_INDEX_NAME E) = Ok index
            /\ encode E (rewritten E question) = Ok query_embedding
            /\ index query_embedding top_k = Ok (Some matches)
            /\ In h matches
            /\ Py.get (hit_metadata h) "full_content" = Some content.
Proof.
  cbv zeta. rewrite retrieve_and_rerank_final, retrieve_and_rerank_run.
  cbv zeta.
  destruct (outcome (ensure_bm25_index E s)) as [[] | e]; [| discriminate].
  destruct (pc_Index E (PINECONE_INDEX_NAME E)) as [index | e];
    [| discriminate].
  cbn [outcome]. intros Hout.
  destruct (search_and_rerank_context _ _ _ _ _ _ _ Hout) as [Hlen Hin].
  split; [exact Hlen |]. intros content Hc.
  destruct (Hin content Hc) as [H | [v [matches [h H]]]]; [now left |].
  right. exists index, v, matches, h. auto.
Qed.




(** A candidate of the pool whose metadata has no ['full_content'] makes the
    searches raise [KeyError]: the relevance model is not asked and no
    context is returned. *)
Theorem candidate_without_full_content (index : pinecone_index)
    (question rewritten_question : string) (top_k final_k : Z) (s : state)
    (okapi : bm25) (bm25_hits : list bm25_hit) (query_embedding : list num)
    (matches : list hit) (item : fused) :
  bm25_index s = Some okapi ->
  keyword_search okapi (corpus s) rewritten_question top_k = Ok bm25_hits ->
  encode E rewritten_question = Ok query_embedding ->
  index query_embedding top_k = Ok (Some matches) ->
  In item (Py.slice_to (top_k + 5)
             (sorted_fused_results (fuse E matches bm25_hits))) ->
  Py.get (fused_metadata item) "full_content" = None ->
  search_and_rerank E index question rewritten_question top_k final_k s
  = Run [Encode rewritten_question; Query top_k]
        (Raise (KeyError "full_content")) s.
Proof.
  intros Hidx Hkw Henc Hqry Hin Hget.
  rewrite search_and_rerank_run, Hidx, Hkw, Henc, Hqry. cbv zeta.
  unfold top_fused_hits.
  rewrite (comprehension_raise _ _ item (KeyError "full_content"));
    [reflexivity | | exact Hin |].
  - intros x e. apply getitem_raise.
  - unfold getitem. now rewrite Hget.
Qed.

End Context.

(** ** The sections of a document *)

Section Sections.

Import DocumentParser.

Variable pdf_filename : string.

Lemma step_heading (st : loop) (item : labeled_line) (heading_level : Z) :
  stripped item <> EmptyString ->
  heading_level_of item = Some heading_level ->
  step pdf_filename st item
  = let stack := pop_headings heading_level (active_heading_stack st) in
    {| sections := opened st;
       current_section :=
         Some {| document_name := pdf_filename;
                 page_number := page item;
                 section_title := stripped item;
                 content := "";
                 hierarchy_level := heading_level;
                 full_path := map title stack ++ [stripped item];
                 full_content := None |};
       active_heading_stack :=
         stack ++ [{| title := stripped item; level := heading_level |}] |}.
Proof.
  intros Hne Hlevel. unfold step. fold (stripped item).
  fold (heading_level_of item). rewrite Hlevel.
  destruct (stripped item); [now elim Hne | reflexivity].
Qed.

Lemma step_body (st : loop) (item : labeled_line) (cs : section) :
  is_heading item = false ->
  is_body item = true ->
  current_section st = Some cs ->
  step pdf_filename st item
  = {| sections := sections st;
       current_section := Some (with_body cs (stripped item));
       active_heading_stack := active_heading_stack st |}.
Proof.
  unfold is_heading, is_body, step. fold (stripped item).
  fold (heading_level_of item). intros Hh Hb Hcs.
  destruct (stripped item) as [| c t]; [discriminate |].
  destruct (heading_level_of item); [discriminate |].
  destruct (label item) as [l |]; [| discriminate].
  apply String.eqb_eq in Hb. subst l. now rewrite Hcs.
Qed.

Lemma match_Body {A : Type} (l : string) (x y : A) :
  match l with "Body" => x | _ => y end = if String.eqb l "Body" then x else y.
Proof.
  do 4 (destruct l as [| [[] [] [] [] [] [] [] []] l]; try reflexivity).
  destruct l; reflexivity.
Qed.

Lemma step_pass (st : loop) (item : labeled_line) :
  is_heading item = false ->
  is_body item = false \/ current_section st = None ->
  step pdf_filename st item = st.
Proof.
  unfold is_heading, is_body, step. fold (stripped item).
  fold (heading_level_of item). intros Hh Hb.
  destruct (stripped item) as [| c t]; [reflexivity |].
  destruct (heading_level_of item); [discriminate |].
  destruct (label item) as [l |]; [| reflexivity].
  rewrite match_Body.
  destruct Hb as [Hb | Hb]; [now rewrite Hb |].
  rewrite Hb. now destruct (String.eqb l "Body").
Qed.

Lemma is_heading_level (item : labeled_line) :
  is_heading item = true ->
  stripped item <> EmptyString
  /\ exists heading_level, heading_level_of item = Some heading_level.
Proof.
  unfold is_heading. destruct (stripped item); [discriminate |].
  destruct (heading_level_of item) as [l |]; [| discriminate].
  intros _. split; [discriminate | eauto].
Qed.

(** What an item does to the loop. *)
Lemma step_cases (st : loop) (item : labeled_line) :
  (is_heading item = true
   /\ exists heading_level,
        heading_level_of item = Some heading_level
        /\ stripped item <> EmptyString
        /\ step pdf_filename st item
           = let stack :=
               pop_headings heading_level (active_heading_stack st) in
             {| sections := opened st;
                current_section :=
                  Some {| document_name := pdf_filename;
                          page_number := page item;
                          section_title := stripped item;
                          content := "";
                          hierarchy_level := heading_level;
                          full_path := map title stack ++ [stripped item];
                          full_content := None |};
                active_heading_stack :=
                  stack
                  ++ [{| title := stripped item; level := heading_level |}] |})
  \/ (is_heading item = false
      /\ exists cs,
           is_body item = true
           /\ current_section st = Some cs
           /\ step pdf_filename st item
              = {| sections := sections st;
                   current_section := Some (with_body cs (stripped item));
                   active_heading_stack := active_heading_stack st |})
  \/ (is_heading item = false /\ step pdf_filename st item = st).
Proof.
  destruct (is_heading item) eqn:Hh.
  - left. split; [reflexivity |].
    destruct (is_heading_level item Hh) as [Hne [heading_level Hl]].
    exists heading_level. split; [exact Hl |]. split; [exact Hne |].
    now apply step_heading.
  - right. destruct (is_body item) eqn:Hb.
    + destruct (current_section st) as [cs |] eqn:Hcs.
      * left. split; [reflexivity |]. exists cs.
        repeat split. now apply step_body.
      * right. split; [reflexivity |]. apply step_pass; auto.
    + right. split; [reflexivity |]. apply step_pass; auto.
Qed.

Lemma header_collapsed (cs : section) : header (collapsed cs) = header cs.
Proof. reflexivity. Qed.

Lemma header_with_body (cs : section) (text : string) :
  header (with_body cs text) = header cs.
Proof. reflexivity. Qed.

Lemma opened_step (st : loop) (item : labeled_line) :
  map header (opened (step pdf_filename st item))
  = (map header (opened st)
     ++ if is_heading item then [header_of pdf_filename item] else [])%list.
Proof.
  destruct (step_cases st item)
    as [[Hh [heading_level [Hl [Hne ->]]]]
       | [[Hh [cs [Hb [Hcs ->]]]] | [Hh ->]]];
    rewrite Hh.
  - cbv zeta. unfold opened at 1. cbn [sections current_section close].
    rewrite map_app. f_equal. unfold header_of. rewrite Hl. reflexivity.
  - rewrite app_nil_r. unfold opened. cbn [sections current_section close].
    rewrite Hcs. cbn [close]. rewrite !map_app. reflexivity.
  - now rewrite app_nil_r.
Qed.

Lemma opened_fold (labeled_lines : list labeled_line) (st : loop) :
  map header (opened (fold_left (step pdf_filename) labeled_lines st))
  = (map header (opened st)
     ++ map (header_of pdf_filename) (filter is_heading labeled_lines))%list.
Proof.
  revert st. induction labeled_lines as [| item l IH]; intros st; simpl.
  - now rewrite app_nil_r.
  - rewrite IH, opened_step.
    destruct (is_heading item); simpl; [| now rewrite app_nil_r].
    now rewrite <- app_assoc.
Qed.

(** There is one section for each heading whose text is not blank, in the
    order of the headings: it has the stripped text of the heading as its
    title, the page and the level of the heading, the name of the document,
    and no full content yet. *)
Theorem group_text_into_sections_headings
    (labeled_lines : list labeled_line) :
  map header (group_text_into_sections labeled_lines pdf_filename)
  = map (header_of pdf_filename) (filter is_heading labeled_lines).
Proof.
  unfold group_text_into_sections. cbv zeta.
  exact (opened_fold labeled_lines
           {| sections := []; current_section := None;
              active_heading_stack := [] |}).
Qed.

(** The lines before the first heading are dropped, whatever their text. *)
Theorem lines_before_first_heading_dropped
    (before labeled_lines : list labeled_line) :
  (forall item, In item before -> is_heading item = false) ->
  group_text_into_sections (before ++ labeled_lines) pdf_filename
  = group_text_into_sections labeled_lines pdf_filename.
Proof.
  intros Hbefore. unfold group_text_into_sections. cbv zeta.
  rewrite fold_left_app.
  set (st := {| sections := []; current_section := None;
                active_heading_stack := [] |}).
  assert (Hst : fold_left (step pdf_filename) before st = st).
  { induction before as [| item l IH]; [reflexivity |]. simpl.
    rewrite step_pass; [apply IH | | now right].
    - intros x Hx. apply Hbefore. now right.
    - apply Hbefore. now left. }
  now rewrite Hst.
Qed.

End Sections.

(** ** The paths and the contents of the sections *)

Section SortedLists.

Context {A : Type}.
Variable R : A -> A -> Prop.

Lemma StronglySorted_app (l1 l2 : list A) :
  StronglySorted R (l1 ++ l2)
  <-> StronglySorted R l1 /\ StronglySorted R l2
      /\ forall x y, In x l1 -> In y l2 -> R x y.
Proof.
  induction l1 as [| a l1 IH]; simpl.
  - split; [intros H | intros [_ [H _]]; exact H].
    repeat split; [constructor | exact H | contradiction].
  - split.
    + intros H. apply StronglySorted_inv in H as [Hs Ha].
      apply IH in Hs as [H1 [H2 H12]]. rewrite Forall_forall in Ha.
      repeat split.
      * constructor; [exact H1 |]. rewrite Forall_forall.
        intros x Hx. apply Ha, in_or_app. now left.
      * exact H2.
      * intros x y [<- | Hx] Hy; [apply Ha, in_or_app; now right |].
        now apply H12.
    + intros [H1 [H2 H12]]. apply StronglySorted_inv in H1 as [H1 Ha].
      rewrite Forall_forall in Ha. constructor.
      * apply IH. repeat split; try assumption.
        intros x y Hx Hy. apply H12; [now right | exact Hy].
      * rewrite Forall_forall. intros x Hx.
        apply in_app_or in Hx as [Hx | Hx]; [now apply Ha |].
        apply H12; [now left | exact Hx].
Qed.

End SortedLists.

Section Paths.

Import DocumentParser.

Variable pdf_filename : string.

Lemma HEADING_HIERARCHY_levels (l : string) (heading_level : Z) :
  Py.get HEADING_HIERARCHY l = Some heading_level -> 0 <= heading_level <= 6.
Proof.
  unfold HEADING_HIERARCHY. cbn [Py.get].
  repeat match goal with
         | |- context [String.eqb ?a ?b] => destruct (String.eqb a b)
         end;
    intros H; try discriminate; injection H as <-; lia.
Qed.

Lemma heading_level_of_levels (item : labeled_line) (heading_level : Z) :
  heading_level_of item = Some heading_level -> 0 <= heading_level <= 6.
Proof.
  unfold heading_level_of. destruct (label item); [| discriminate].
  apply HEADING_HIERARCHY_levels.
Qed.

Lemma pop_headings_nil (heading_level : Z) : pop_headings heading_level [] = [].
Proof. reflexivity. Qed.

Lemma pop_headings_snoc (heading_level : Z) (stack : list heading)
    (h : heading) :
  pop_headings heading_level (stack ++ [h])
  = if level h >=? heading_level then pop_headings heading_level stack
    else (stack ++ [h])%list.
Proof.
  unfold pop_headings. rewrite rev_app_distr. simpl.
  destruct (level h >=? heading_level); [reflexivity |].
  simpl. now rewrite rev_involutive.
Qed.

(** The headings a heading of level [heading_level] leaves on the stack are
    those of a smaller level, and they stay nested. *)
Lemma pop_headings_nested (heading_level : Z) (stack : list heading) :
  nested stack ->
  nested (pop_headings heading_level stack)
  /\ forall h, In h (pop_headings heading_level stack) ->
               level h < heading_level /\ In h stack.
Proof.
  unfold nested.
  induction stack as [| h stack IH] using rev_ind; intros Hn.
  - rewrite pop_headings_nil. split; [constructor | contradiction].
  - rewrite pop_headings_snoc.
    apply StronglySorted_app in Hn as [Hs [_ Hlt]].
    destruct (Z.geb_spec (level h) heading_level) as [Hge | Hlt'].
    + destruct (IH Hs) as [Hn' Hin]. split; [exact Hn' |].
      intros x Hx. destruct (Hin x Hx) as [H1 H2].
      split; [exact H1 | apply in_or_app; now left].
    + split.
      * apply StronglySorted_app. repeat split; try assumption.
        repeat constructor.
      * intros x Hx. split; [| exact Hx].
        apply in_app_or in Hx as [Hx | [<- | []]]; [| exact Hlt'].
        specialize (Hlt x h Hx (or_introl eq_refl)). lia.
Qed.

(** Nested headings with levels from [lo] up to [hi], [hi] left out, are no
    more than [hi - lo]. *)
Lemma nested_length (stack : list heading) (lo hi : Z) :
  nested stack ->
  (forall h, In h stack -> lo <= level h < hi) ->
  lo <= hi ->
  Z.of_nat (List.length stack) <= hi - lo.
Proof.
  unfold nested. revert lo.
  induction stack as [| a stack IH]; intros lo Hn Hb Hle; simpl; [lia |].
  apply StronglySorted_inv in Hn as [Hn Ha]. rewrite Forall_forall in Ha.
  pose proof (Hb a (or_introl eq_refl)) as Hba.
  specialize (IH (level a + 1) Hn).
  assert (Z.of_nat (List.length stack) <= hi - (level a + 1)); [| lia].
  apply IH; [| lia].
  intros h Hh. specialize (Ha h Hh). specialize (Hb h (or_intror Hh)). lia.
Qed.

Lemma headings_levels (labeled_lines : list labeled_line) (h : heading) :
  In h (headings labeled_lines) -> 0 <= level h <= 6.
Proof.
  unfold headings. intros Hin. apply in_flat_map in Hin as [item [_ Hin]].
  destruct (stripped item); [destruct Hin |].
  destruct (heading_level_of item) as [heading_level |] eqn:Hl;
    [| destruct Hin].
  destruct Hin as [<- | []]. exact (heading_level_of_levels _ _ Hl).
Qed.

Lemma headings_one (item : labeled_line) :
  headings [item]
  = if is_heading item
    then [{| title := stripped item;
             level := match heading_level_of item with
                      | Some heading_level => heading_level
                      | None => 0
                      end |}]
    else [].
Proof.
  unfold headings, is_heading. cbn [flat_map]. rewrite app_nil_r.
  destruct (stripped item); [reflexivity |].
  destruct (heading_level_of item); reflexivity.
Qed.

Lemma headings_cons (item : labeled_line) (l : list labeled_line) :
  headings (item :: l) = (headings [item] ++ headings l)%list.
Proof. unfold headings. cbn [flat_map]. now rewrite app_nil_r. Qed.

(** The ancestors are the open headings of a smaller level. *)
Lemma ancestors_filter (hs : list heading) (heading_level : Z) :
  ancestors hs heading_level
  = filter (fun h => level h <? heading_level) (open_headings hs).
Proof.
  induction hs as [| h hs IH]; [reflexivity |].
  cbn [ancestors open_headings].
  destruct (forallb (fun h' => level h <? level h') hs).
  - rewrite andb_true_r. cbn [filter].
    destruct (level h <? heading_level); now rewrite IH.
  - now rewrite andb_false_r.
Qed.

Lemma open_headings_In (hs : list heading) (h : heading) :
  In h (open_headings hs) -> In h hs.
Proof.
  induction hs as [| x hs IH]; [exact (fun H => H) |].
  cbn [open_headings].
  destruct (forallb (fun h' => level x <? level h') hs).
  - intros [<- | Hin]; [now left | right; now apply IH].
  - intros Hin. right. now apply IH.
Qed.

Lemma open_headings_nested (hs : list heading) : nested (open_headings hs).
Proof.
  unfold nested. induction hs as [| x hs IH]; [constructor |].
  cbn [open_headings].
  destruct (forallb (fun h' => level x <? level h') hs) eqn:Hall;
    [| exact IH].
  constructor; [exact IH |]. rewrite Forall_forall. intros h Hh.
  rewrite forallb_forall in Hall.
  specialize (Hall h (open_headings_In _ _ Hh)). lia.
Qed.

(** After a heading, the open headings are its ancestors and itself. *)
Lemma open_headings_snoc (hs : list heading) (h : heading) :
  open_headings (hs ++ [h]) = (ancestors hs (level h) ++ [h])%list.
Proof.
  induction hs as [| x hs IH]; [reflexivity |].
  cbn [app open_headings ancestors]. rewrite forallb_app. cbn [forallb].
  rewrite andb_true_r, IH.
  rewrite (andb_comm (level x <? level h)).
  now destruct (forallb (fun h' => level x <? level h') hs && (level x <? level h)).
Qed.

Lemma filter_all {A : Type} (f : A -> bool) (l : list A) :
  (forall x, In x l -> f x = true) -> filter f l = l.
Proof.
  induction l as [| a l IH]; intros Hall; [reflexivity |].
  cbn [filter]. rewrite (Hall a (or_introl eq_refl)). f_equal.
  apply IH. intros x Hx. apply Hall. now right.
Qed.

(** On nested headings, the loop that pops leaves the headings of a smaller
    level. *)
Lemma pop_headings_filter (heading_level : Z) (stack : list heading) :
  nested stack ->
  pop_headings heading_level stack
  = filter (fun h => level h <? heading_level) stack.
Proof.
  unfold nested.
  induction stack as [| h stack IH] using rev_ind; intros Hn;
    [reflexivity |].
  rewrite pop_headings_snoc, filter_app. cbn [filter].
  apply StronglySorted_app in Hn as [Hs [_ Hlt]].
  destruct (Z.geb_spec (level h) heading_level) as [Hge | Hlt'].
  - destruct (Z.ltb_spec (level h) heading_level) as [Hc | _]; [lia |].
    rewrite app_nil_r. now apply IH.
  - destruct (Z.ltb_spec (level h) heading_level) as [_ | Hc]; [| lia].
    f_equal. symmetry. apply filter_all. intros x Hx.
    specialize (Hlt x h Hx (or_introl eq_refl)). apply Z.ltb_lt. lia.
Qed.

Lemma pop_headings_open (heading_level : Z) (hs : list heading) :
  pop_headings heading_level (open_headings hs) = ancestors hs heading_level.
Proof.
  rewrite ancestors_filter. apply pop_headings_filter, open_headings_nested.
Qed.

Lemma paths_from_snoc (before hs : list heading) (h : heading) :
  paths_from before (hs ++ [h])
  = (paths_from before hs
     ++ [(h, map title (ancestors (before ++ hs) (level h)) ++ [title h])])%list.
Proof.
  revert before. induction hs as [| x hs IH]; intros before.
  - cbn [app paths_from]. now rewrite app_nil_r.
  - cbn [app paths_from]. rewrite IH, <- app_assoc. reflexivity.
Qed.

Lemma paths_from_nth (start before : list heading) (h : heading)
    (after : list heading) :
  nth_error (paths_from start (before ++ h :: after)) (List.length before)
  = Some (h, (map title (ancestors (start ++ before) (level h))
              ++ [title h])%list).
Proof.
  revert start. induction before as [| x before IH]; intros start.
  - cbn [app paths_from List.length nth_error]. now rewrite app_nil_r.
  - cbn [app paths_from List.length nth_error]. rewrite IH, <- app_assoc.
    reflexivity.
Qed.

(** What the loop keeps true, when it has read lines whose headings are
    [hs]: the stack holds the open headings, and the sections opened are
    those of the headings, each with the titles of its ancestors. *)
Lemma paths_step (st : loop) (item : labeled_line) (hs : list heading) :
  active_heading_stack st = open_headings hs ->
  map entry (opened st) = paths_from [] hs ->
  let st' := step pdf_filename st item in
  active_heading_stack st' = open_headings (hs ++ headings [item])
  /\ map entry (opened st') = paths_from [] (hs ++ headings [item]).
Proof.
  intros Hstack Hpaths. cbv zeta. rewrite headings_one.
  destruct (step_cases pdf_filename st item)
    as [[Hh [heading_level [Hl [Hne ->]]]]
       | [[Hh [cs [Hb [Hcs ->]]]] | [Hh ->]]];
    rewrite Hh.
  - cbv zeta. rewrite Hl, Hstack, pop_headings_open.
    cbn [active_heading_stack]. split.
    + now rewrite open_headings_snoc.
    + unfold opened at 1. cbn [sections current_section close].
      rewrite map_app, Hpaths, paths_from_snoc. reflexivity.
  - rewrite app_nil_r. cbn [active_heading_stack]. split; [exact Hstack |].
    rewrite <- Hpaths. unfold opened. cbn [sections current_section close].
    rewrite Hcs. cbn [close]. rewrite !map_app. reflexivity.
  - rewrite app_nil_r. split; assumption.
Qed.

Lemma paths_fold (labeled_lines : list labeled_line) (st : loop)
    (hs : list heading) :
  active_heading_stack st = open_headings hs ->
  map entry (opened st) = paths_from [] hs ->
  map entry (opened (fold_left (step pdf_filename) labeled_lines st))
  = paths_from [] (hs ++ headings labeled_lines).
Proof.
  revert st hs. induction labeled_lines as [| item l IH];
    intros st hs Hstack Hpaths.
  - cbn [fold_left]. change (headings []) with (@nil heading).
    now rewrite app_nil_r.
  - cbn [fold_left]. rewrite headings_cons, app_assoc.
    destruct (paths_step st item hs Hstack Hpaths) as [Hstack' Hpaths'].
    now apply IH.
Qed.

(** The ancestors, one by one. *)
Lemma ancestors_In (before : list heading) (heading_level : Z)
    (x : heading) :
  In x (ancestors before heading_level)
  <-> exists earlier between,
        before = (earlier ++ x :: between)%list
        /\ level x < heading_level
        /\ forall h, In h between -> level x < level h.
Proof.
  induction before as [| h before IH].
  - split; [intros [] |].
    intros [earlier [between [H _]]]. destruct earlier; discriminate H.
  - cbn [ancestors]. split.
    + intros Hin.
      destruct ((level h <? heading_level)
                && forallb (fun h' => level h <? level h') before) eqn:Hh.
      * destruct Hin as [<- | Hin].
        -- apply andb_prop in Hh as [Hlt Hall]. exists [], before.
           split; [reflexivity |]. split; [now apply Z.ltb_lt |].
           intros y Hy. rewrite forallb_forall in Hall.
           apply Z.ltb_lt. now apply Hall.
        -- apply IH in Hin as [earlier [between [-> H]]].
           now exists (h :: earlier), between.
      * apply IH in Hin as [earlier [between [-> H]]].
        now exists (h :: earlier), between.
    + intros [earlier [between [Heq [Hlt Hall]]]].
      assert (Hx : earlier = [] /\ h = x /\ before = between
                   \/ exists earlier', earlier = h :: earlier'
                        /\ before = (earlier' ++ x :: between)%list).
      { destruct earlier as [| y earlier']; injection Heq as -> ->.
        - left. auto.
        - right. now exists earlier'. }
      destruct Hx as [[_ [-> ->]] | [earlier' [_ Hb]]].
      * assert (Hc : (level x <? heading_level)
                     && forallb (fun h' => level x <? level h') between
                     = true).
        { apply andb_true_intro. split; [now apply Z.ltb_lt |].
          apply forallb_forall. intros y Hy. apply Z.ltb_lt.
          now apply Hall. }
        rewrite Hc. now left.
      * assert (Hin : In x (ancestors before heading_level)).
        { apply IH. now exists earlier', between. }
        destruct ((level h <? heading_level)
                  && forallb (fun h' => level h <? level h') before);
          [now right | exact Hin].
Qed.

(** The path of the section of a heading is the titles of the ancestors of
    the heading, in the order of the document, then its own title; the
    ancestors are the earlier headings of a smaller level than the heading
    and than every heading between them and it.  The levels grow along the
    path, so it has no more entries than the level of the section plus one,
    which is seven at most. *)
Theorem full_path_nested (labeled_lines : list labeled_line)
    (before : list heading) (h : heading) (after : list heading) :
  headings labeled_lines = (before ++ h :: after)%list ->
  exists s,
    nth_error (group_text_into_sections labeled_lines pdf_filename)
              (List.length before) = Some s
    /\ section_title s = title h
    /\ hierarchy_level s = level h
    /\ full_path s
       = (map title (ancestors before (level h)) ++ [title h])%list
    /\ (forall x, In x (ancestors before (level h))
                  <-> exists earlier between,
                        before = (earlier ++ x :: between)%list
                        /\ level x < level h
                        /\ forall y, In y between -> level x < level y)
    /\ nested (ancestors before (level h) ++ [h])
    /\ 0 <= level h <= 6
    /\ Z.of_nat (List.length (full_path s)) <= level h + 1.
Proof.
  intros Hhs.
  pose proof (paths_fold labeled_lines
                {| sections := []; current_section := None;
                   active_heading_stack := [] |} [] eq_refl eq_refl)
    as Hpaths.
  cbn [app] in Hpaths. rewrite Hhs in Hpaths.
  pose proof (paths_from_nth [] before h after) as Hnth.
  rewrite <- Hpaths in Hnth. cbn [app] in Hnth.
  rewrite nth_error_map in Hnth.
  change (opened (fold_left (step pdf_filename) labeled_lines
                    {| sections := []; current_section := None;
                       active_heading_stack := [] |}))
    with (group_text_into_sections labeled_lines pdf_filename) in Hnth.
  destruct (nth_error (group_text_into_sections labeled_lines pdf_filename)
              (List.length before)) as [s |]; [| discriminate Hnth].
  cbn [option_map] in Hnth. unfold entry in Hnth.
  injection Hnth as Hhead Hpath. exists s.
  assert (Hnested : nested (ancestors before (level h) ++ [h])).
  { rewrite <- open_headings_snoc. apply open_headings_nested. }
  assert (Hrange : 0 <= level h <= 6).
  { apply (headings_levels labeled_lines). rewrite Hhs.
    apply in_or_app. right. now left. }
  split; [reflexivity |]. split; [now rewrite <- Hhead |].
  split; [now rewrite <- Hhead |]. split; [exact Hpath |].
  split; [intros x; apply ancestors_In |]. split; [exact Hnested |].
  split; [exact Hrange |].
  rewrite Hpath, length_app, length_map. cbn [List.length].
  apply StronglySorted_app in Hnested as [Hn [_ Hlt]].
  assert (Z.of_nat (List.length (ancestors before (level h)))
          <= level h - 0); [| lia].
  apply nested_length; [exact Hn | | lia].
  intros x Hx. split; [| exact (Hlt x h Hx (or_introl eq_refl))].
  assert (Hin : In x (headings labeled_lines)).
  { rewrite Hhs. apply in_or_app. left.
    rewrite ancestors_filter in Hx. apply filter_In in Hx as [Hx _].
    now apply open_headings_In. }
  apply (headings_levels labeled_lines x Hin).
Qed.

End Paths.

Section Contents.

Import DocumentParser.

Variable pdf_filename : string.

(** A space ends the run at hand. *)
Lemma split_runs_space (cur a b : string) :
  split_runs cur (a ++ String " " b)
  = (split_runs cur a ++ split_runs EmptyString b)%list.
Proof.
  revert cur. induction a as [| c a IH]; intros cur; simpl.
  - reflexivity.
  - destruct (Py.is_space c).
    + now rewrite IH, app_assoc.
    + apply IH.
Qed.

Lemma split_with_body (cs : section) (text : string) :
  split (content (with_body cs text))
  = (split (content cs) ++ split text)%list.
Proof. unfold split. simpl. apply split_runs_space. Qed.

(** The lines between two headings add their words to the section at hand,
    and to nothing else. *)
Lemma bodies_fold (bodies : list labeled_line) (st : loop) (cs : section) :
  current_section st = Some cs ->
  (forall b, In b bodies -> is_heading b = false) ->
  exists cs',
    fold_left (step pdf_filename) bodies st
    = {| sections := sections st;
         current_section := Some cs';
         active_heading_stack := active_heading_stack st |}
    /\ header cs' = header cs
    /\ full_path cs' = full_path cs
    /\ split (content cs')
       = (split (content cs)
          ++ List.concat (map words (filter is_body bodies)))%list.
Proof.
  revert st cs. induction bodies as [| b bodies IH]; intros st cs Hcs Hb.
  - exists cs. simpl. rewrite app_nil_r. repeat split.
    destruct st; simpl in *. now rewrite Hcs.
  - simpl fold_left. pose proof (Hb b (or_introl eq_refl)) as Hbh.
    assert (Hrest : forall b', In b' bodies -> is_heading b' = false)
      by (intros; apply Hb; now right).
    destruct (is_body b) eqn:Hbody.
    + rewrite (step_body pdf_filename st b cs Hbh Hbody Hcs).
      destruct (IH {| sections := sections st;
                      current_section := Some (with_body cs (stripped b));
                      active_heading_stack := active_heading_stack st |}
                  (with_body cs (stripped b)) eq_refl Hrest)
        as [cs' [Hfold [Hhdr [Hpath Hwords]]]].
      exists cs'. cbn [sections active_heading_stack] in Hfold.
      repeat split; try assumption.
      rewrite Hwords, split_with_body. simpl. rewrite Hbody. simpl.
      unfold words at 2. now rewrite <- app_assoc.
    + rewrite (step_pass pdf_filename st b Hbh (or_introl Hbody)).
      destruct (IH st cs Hcs Hrest) as [cs' [Hfold [Hhdr [Hpath Hwords]]]].
      exists cs'. repeat split; try assumption.
      simpl. now rewrite Hbody.
Qed.

(** The sections the loop has closed stay, in their places. *)
Lemma sections_stay (labeled_lines : list labeled_line) (st : loop) :
  exists more,
    opened (fold_left (step pdf_filename) labeled_lines st)
    = (sections st ++ more)%list.
Proof.
  revert st. induction labeled_lines as [| item l IH]; intros st.
  - unfold opened, close. simpl.
    destruct (current_section st); eexists; [reflexivity |].
    now rewrite app_nil_r.
  - simpl. destruct (IH (step pdf_filename st item)) as [more Hmore].
    rewrite Hmore.
    destruct (step_cases pdf_filename st item)
      as [[Hh [heading_level [Hl [Hne ->]]]]
         | [[Hh [cs [Hb [Hcs ->]]]] | [Hh ->]]];
      cbv zeta; cbn [sections]; try (now eexists).
    unfold opened, close. destruct (current_section st).
    + rewrite <- app_assoc. now eexists.
    + now eexists.
Qed.

(** The content of a section is the words of the lines labelled ['Body']
    between its heading and the next, joined by single spaces. *)
Theorem section_content_words (before bodies rest : list labeled_line)
    (h : labeled_line) :
  is_heading h = true ->
  (forall b, In b bodies -> is_heading b = false) ->
  (forall h', hd_error rest = Some h' -> is_heading h' = true) ->
  exists s,
    nth_error
      (group_text_into_sections (before ++ h :: bodies ++ rest) pdf_filename)
      (List.length (filter is_heading before)) = Some s
    /\ section_title s = stripped h
    /\ content s = join " " (List.concat (map words (filter is_body bodies))).
Proof.
  intros Hh Hbodies Hrest. unfold group_text_into_sections. cbv zeta.
  set (init := {| sections := []; current_section := None;
                  active_heading_stack := [] |}).
  fold (opened (fold_left (step pdf_filename)
                  (before ++ h :: bodies ++ rest) init)).
  rewrite fold_left_app. simpl fold_left. rewrite fold_left_app.
  set (st0 := fold_left (step pdf_filename) before init).
  assert (Hlen : List.length (opened st0)
                 = List.length (filter is_heading before)).
  { pose proof (opened_fold pdf_filename before init) as H.
    apply (f_equal (@List.length _)) in H.
    rewrite length_app, !length_map in H. exact H. }
  destruct (is_heading_level h Hh) as [Hne [heading_level Hl]].
  rewrite (step_heading pdf_filename st0 h heading_level Hne Hl). cbv zeta.
  match goal with
  | |- context [fold_left _ bodies ?st] =>
      destruct (bodies_fold bodies st _ eq_refl Hbodies)
        as [cs [-> [Hhdr [_ Hwords]]]]
  end.
  cbn [sections active_heading_stack content] in *.
  exists (collapsed cs).
  assert (Hclosed : exists more,
            opened (fold_left (step pdf_filename) rest
                      {| sections := opened st0;
                         current_section := Some cs;
                         active_heading_stack :=
                           (pop_headings heading_level
                              (active_heading_stack st0)
                            ++ [{| title := stripped h;
                                   level := heading_level |}])%list |})
            = (opened st0 ++ collapsed cs :: more)%list).
  { destruct rest as [| h' rest].
    - exists []. reflexivity.
    - simpl fold_left.
      destruct (is_heading_level h' (Hrest h' eq_refl))
        as [Hne' [level' Hl']].
      rewrite (step_heading pdf_filename _ h' level' Hne' Hl'). cbv zeta.
      match goal with
      | |- context [fold_left _ rest ?st] =>
          destruct (sections_stay rest st) as [more Hmore]
      end.
      exists more. rewrite Hmore. unfold opened at 1.
      cbn [sections current_section close]. now rewrite <- app_assoc. }
  destruct Hclosed as [more ->]. split; [| split].
  - rewrite <- Hlen, nth_error_app2, Nat.sub_diag by lia. reflexivity.
  - change (section_title (collapsed cs)) with (section_title cs).
    unfold header in Hhdr. now injection Hhdr.
  - simpl. unfold collapse. now rewrite Hwords.
Qed.

End Contents.

(** ** The ingestion of a document *)

Lemma str_nat_inj (a b : nat) : Py.str_nat a = Py.str_nat b -> a = b.
Proof.
  assert (Hne : forall n, Nat.to_uint n <> Decimal.Nil).
  { intros n H. pose proof (DecimalNat.Unsigned.of_to n) as Hn.
    rewrite H in Hn. simpl in Hn. subst n. discriminate. }
  unfold Py.str_nat. intros H.
  apply (f_equal NilZero.uint_of_string) in H.
  rewrite !NilZero.usu in H by apply Hne.
  injection H as H. apply (f_equal Nat.of_uint) in H.
  now rewrite !DecimalNat.Unsigned.of_to in H.
Qed.

Section Ingestion.

Import EmbeddingService.

Variable embedding : Type.
Variable S : services embedding.

Lemma upserted_app (tr tr' : list (event embedding)) :
  upserted (tr ++ tr') = (upserted tr ++ upserted tr')%list.
Proof.
  induction tr as [| ev tr IH]; [reflexivity |].
  destruct ev; simpl; rewrite IH; reflexivity.
Qed.

(** *** One batch *)

Lemma vectors_of_sent (sections : list DocumentParser.section) (i : nat)
    (dense_embeddings : list embedding)
    (batch_sections : list DocumentParser.section) (idx : nat)
    (vectors_to_upsert : list (vector embedding)) :
  (forall k section,
     nth_error batch_sections k = Some section ->
     nth_error sections (i + idx + k) = Some section) ->
  vectors_of i dense_embeddings idx batch_sections
  = Ok vectors_to_upsert ->
  Forall2 (sent_for sections)
          (seq (i + idx) (List.length batch_sections)) vectors_to_upsert.
Proof.
  revert idx vectors_to_upsert.
  induction batch_sections as [| section rest IH]; intros idx vs Hnth; simpl.
  - intros [= <-]. constructor.
  - destruct (vector_of i dense_embeddings idx section)
      as [v | e] eqn:Hv; [| discriminate].
    destruct (vectors_of i dense_embeddings (Datatypes.S idx) rest)
      as [vs' | e] eqn:Hvs; [| discriminate].
    intros [= <-]. constructor.
    + unfold vector_of in Hv.
      destruct (DocumentParser.page_number section) as [page |] eqn:Hpage;
        [| discriminate].
      unfold full_content_of in Hv.
      destruct (DocumentParser.full_content section) as [c |] eqn:Hc;
        [| discriminate].
      simpl in Hv.
      destruct (nth_error dense_embeddings idx) as [row |]; [| discriminate].
      injection Hv as <-. split; [reflexivity |]. exists section.
      split; [| now repeat split].
      specialize (Hnth 0%nat section eq_refl).
      now rewrite Nat.add_0_r in Hnth.
    + replace (Datatypes.S (i + idx)) with (i + Datatypes.S idx)%nat by lia.
      apply IH; [| exact Hvs].
      intros k s Hk. specialize (Hnth (Datatypes.S k) s Hk).
      now replace (i + Datatypes.S idx + k)%nat
        with (i + idx + Datatypes.S k)%nat by lia.
Qed.

Lemma batch_nth_error (sections : list DocumentParser.section) (b i k : nat)
    (section : DocumentParser.section) :
  nth_error (firstn b (skipn i sections)) k = Some section ->
  nth_error sections (i + k) = Some section.
Proof.
  rewrite nth_error_firstn. destruct (k <? b)%nat; [| discriminate].
  now rewrite nth_error_skipn.
Qed.

Lemma batch_length (sections : list DocumentParser.section) (b i : nat) :
  List.length (firstn b (skipn i sections))
  = Nat.min b (List.length sections - i).
Proof. now rewrite length_firstn, length_skipn. Qed.

(** A batch sends nothing, or the vectors of its sections in one call. *)
Lemma upsert_batch_sent (index : index_handle embedding)
    (sections : list DocumentParser.section) (batch_size : Z) (i : nat) :
  let run := upsert_batch S index sections batch_size i in
  (upserted (fst run) = [] /\ snd run <> Ok tt)
  \/ exists vectors_to_upsert,
       upserted (fst run) = [vectors_to_upsert]
       /\ snd run = index vectors_to_upsert
       /\ Forall2 (sent_for sections)
            (seq i (Nat.min (Z.to_nat batch_size) (List.length sections - i)))
            vectors_to_upsert.
Proof.
  cbv zeta. unfold upsert_batch, bind, lift, call. cbv zeta.
  set (batch_sections := firstn (Z.to_nat batch_size) (skipn i sections)).
  cbn [fst snd].
  destruct (comprehension (full_content_of) batch_sections)
    as [dense_texts | e]; cbn [fst snd]; [| left; split; [easy | discriminate]].
  destruct (encode S dense_texts) as [dense_embeddings | e]; cbn [fst snd];
    [| left; split; [easy | discriminate]].
  destruct (vectors_of i dense_embeddings 0 batch_sections)
    as [vs | e] eqn:Hvs; cbn [fst snd];
    [| left; split; [easy | discriminate]].
  right. exists vs. repeat split.
  rewrite <- batch_length. fold batch_sections.
  rewrite <- (Nat.add_0_r i) at 1.
  apply (vectors_of_sent sections i dense_embeddings batch_sections 0 vs);
    [| exact Hvs].
  intros k s Hk. rewrite Nat.add_0_r. exact (batch_nth_error _ _ _ _ _ Hk).
Qed.

(** *** The loop over the batches *)

Lemma Forall2_seq_app {B : Type} (R : nat -> B -> Prop) (start a c : nat)
    (l1 l2 : list B) :
  Forall2 R (seq start a) l1 ->
  Forall2 R (seq (start + a) c) l2 ->
  Forall2 R (seq start (a + c)) (l1 ++ l2).
Proof.
  intros H1 H2. rewrite seq_app. now apply Forall2_app.
Qed.

Lemma Forall2_seq_length {B : Type} (R : nat -> B -> Prop) (start m : nat)
    (l : list B) :
  Forall2 R (seq start m) l -> List.length l = m.
Proof.
  intros H. apply Forall2_length in H. now rewrite length_seq in H.
Qed.

(** The batches that start at [k * b], [(k + 1) * b], ... send the vectors
    of consecutive sections, from the section [k * b] on; [c] batches that
    all succeed send [c * b] of them, or all that are left. *)
Lemma batches_sent (index : index_handle embedding)
    (sections : list DocumentParser.section) (batch_size : Z) (c k : nat) :
  0 < batch_size ->
  let b := Z.to_nat batch_size in
  let n := List.length sections in
  let run :=
    for_in (upsert_batch S index sections batch_size)
           (map (fun j => (j * b)%nat) (seq k c)) in
  exists m,
    (m <= n - k * b)%nat
    /\ Forall2 (sent_for sections) (seq (k * b) m)
               (List.concat (upserted (fst run)))
    /\ (snd run = Ok tt -> m = Nat.min (c * b) (n - k * b))
    /\ ((forall j, (k <= j < k + c)%nat -> (j * b < n)%nat) ->
        Forall (fun vs => (1 <= List.length vs <= b)%nat)
               (upserted (fst run))
        /\ (snd run = Ok tt -> List.length (upserted (fst run)) = c)).
Proof.
  intros Hb b n. subst b n. cbv zeta. revert k.
  induction c as [| c IH]; intros k.
  - exists 0%nat. simpl. repeat split; try constructor; try lia.
  - cbn [seq map for_in]. unfold bind.
    destruct (upsert_batch_sent index sections batch_size
                (k * Z.to_nat batch_size))
      as [[Hnone Hfail] | [vs [Hsent [Hout Hvs]]]].
    + exists 0%nat.
      destruct (snd (upsert_batch S index sections batch_size
                       (k * Z.to_nat batch_size))) as [[] | e];
        [now elim Hfail |].
      cbn [fst snd]. rewrite Hnone. simpl.
      split; [lia |]. split; [constructor |].
      split; [intros H; discriminate H |].
      intros _. split; [constructor | intros H; discriminate H].
    + pose proof (Forall2_seq_length _ _ _ _ Hvs) as Hlen.
      destruct (snd (upsert_batch S index sections batch_size
                       (k * Z.to_nat batch_size))) as [[] | e] eqn:Hrun;
        cbn [fst snd].
      * destruct (IH (Datatypes.S k)) as [m' [Hle [Hrest [Hm' Hsizes]]]].
        rewrite upserted_app, Hsent, concat_app. simpl List.concat.
        rewrite app_nil_r.
        exists (Nat.min (Z.to_nat batch_size)
                        (List.length sections - k * Z.to_nat batch_size)
                + m')%nat.
        simpl Nat.mul in *.
        split; [lia |]. split; [| split].
        -- destruct m' as [| m'].
           ++ inversion Hrest. rewrite app_nil_r, Nat.add_0_r. exact Hvs.
           ++ apply Forall2_seq_app; [exact Hvs |].
              replace (k * Z.to_nat batch_size
                       + Nat.min (Z.to_nat batch_size)
                           (List.length sections - k * Z.to_nat batch_size))%nat
                with (Z.to_nat batch_size + k * Z.to_nat batch_size)%nat
                by lia.
              exact Hrest.
        -- intros Hok. specialize (Hm' Hok). lia.
        -- intros Hstarts.
           destruct Hsizes as [Hall Hcount].
           { intros j Hj. apply Hstarts. lia. }
           split.
           ++ constructor; [| exact Hall].
              rewrite Hlen. specialize (Hstarts k). lia.
           ++ intros Hok. simpl. now rewrite (Hcount Hok).
      * rewrite Hsent. simpl List.concat. rewrite app_nil_r.
        exists (Nat.min (Z.to_nat batch_size)
                        (List.length sections - k * Z.to_nat batch_size)).
        split; [lia |]. split; [exact Hvs |]. split; [discriminate |].
        intros Hstarts. split; [| discriminate].
        constructor; [| constructor].
        rewrite Hlen. specialize (Hstarts k). lia.
Qed.

Lemma batches_cover (n : nat) (batch_size : Z) :
  0 < batch_size ->
  let c := Z.to_nat ((Z.of_nat n + batch_size - 1) / batch_size) in
  (n <= c * Z.to_nat batch_size)%nat
  /\ forall j, (j < c)%nat -> (j * Z.to_nat batch_size < n)%nat.
Proof.
  intros Hb c. subst c.
  set (q := (Z.of_nat n + batch_size - 1) / batch_size).
  assert (Hq : 0 <= q) by (apply Z.div_pos; lia).
  pose proof (Z.div_mod (Z.of_nat n + batch_size - 1) batch_size) as Hdm.
  pose proof (Z.mod_pos_bound (Z.of_nat n + batch_size - 1) batch_size Hb)
    as Hmod.
  fold q in Hdm. specialize (Hdm ltac:(lia)). split.
  - nia.
  - intros j Hj. nia.
Qed.

Lemma upsert_dense_embeddings_prefix (index : index_handle embedding)
    (sections : list DocumentParser.section) (batch_size : Z) :
  let run := upsert_dense_embeddings S index sections batch_size in
  exists m,
    (m <= List.length sections)%nat
    /\ Forall2 (sent_for sections) (seq 0 m)
               (List.concat (upserted (fst run)))
    /\ (snd run = Ok tt -> 0 < batch_size -> m = List.length sections).
Proof.
  cbv zeta. unfold upsert_dense_embeddings, range_step.
  destruct (Z.eqb_spec batch_size 0) as [-> | Hne].
  - exists 0%nat. simpl. repeat split; [lia | constructor | lia].
  - destruct (Z.ltb_spec batch_size 0) as [Hneg | Hpos].
    + exists 0%nat. simpl. repeat split; [lia | constructor | lia].
    + assert (Hb : 0 < batch_size) by lia.
      unfold bind, lift. cbn [fst snd app].
      destruct (batches_sent index sections batch_size
                  (Z.to_nat ((Z.of_nat (List.length sections) + batch_size - 1)
                             / batch_size)) 0 Hb)
        as [m [Hle [Hsent [Hm _]]]].
      cbv zeta in *. simpl Nat.mul in *.
      exists m. split; [lia |]. split; [exact Hsent |].
      intros Hok _. specialize (Hm Hok).
      destruct (batches_cover (List.length sections) batch_size Hb)
        as [Hcover _].
      cbv zeta in Hcover. lia.
Qed.

(** The vectors sent to the index, in a run that ends well or not, are
    those of the first sections of the document, in their order: the vector
    of the section at the place [p] is named [dense_p] and carries its full
    content, page, title and document name.  A run that ends well, with a
    positive batch size, has sent the vector of every section. *)
Theorem upsert_dense_embeddings_sent (index : index_handle embedding)
    (sections : list DocumentParser.section) (batch_size : Z) :
  let run := upsert_dense_embeddings S index sections batch_size in
  exists m,
    (m <= List.length sections)%nat
    /\ Forall2 (sent_for sections) (seq 0 m)
               (List.concat (upserted (fst run)))
    /\ (snd run = Ok tt -> 0 < batch_size -> m = List.length sections).
Proof. apply upsert_dense_embeddings_prefix. Qed.

(** With a positive batch size, every call of the index carries at least
    one vector and no more than [batch_size] of them, and a run that ends
    well has made one call for each [batch_size] sections, rounded up. *)
Theorem upsert_dense_embeddings_batches (index : index_handle embedding)
    (sections : list DocumentParser.section) (batch_size : Z) :
  0 < batch_size ->
  let run := upsert_dense_embeddings S index sections batch_size in
  Forall (fun vs => 1 <= Z.of_nat (List.length vs) <= batch_size)
         (upserted (fst run))
  /\ (snd run = Ok tt ->
      Z.of_nat (List.length (upserted (fst run)))
      = (Z.of_nat (List.length sections) + batch_size - 1) / batch_size).
Proof.
  intros Hb. cbv zeta. unfold upsert_dense_embeddings, range_step.
  destruct (Z.eqb_spec batch_size 0) as [-> | Hne]; [lia |].
  destruct (Z.ltb_spec batch_size 0) as [Hneg | _]; [lia |].
  unfold bind, lift. cbn [fst snd app].
  set (c := Z.to_nat ((Z.of_nat (List.length sections) + batch_size - 1)
                      / batch_size)).
  destruct (batches_sent index sections batch_size c 0 Hb)
    as [m [_ [_ [_ Hsizes]]]].
  cbv zeta in Hsizes.
  destruct (batches_cover (List.length sections) batch_size Hb)
    as [_ Hstarts].
  cbv zeta in Hstarts. fold c in Hstarts.
  destruct Hsizes as [Hall Hcount].
  { intros j Hj. apply Hstarts. lia. }
  split.
  - rewrite Forall_forall in *. intros vs Hvs. specialize (Hall vs Hvs). lia.
  - intros Hok. rewrite (Hcount Hok). unfold c. rewrite Z2Nat.id; [lia |].
    apply Z.div_pos; lia.
Qed.

Lemma sent_ids (sections : list DocumentParser.section) (start m : nat)
    (sent : list (vector embedding)) :
  Forall2 (sent_for sections) (seq start m) sent ->
  map id sent = map (fun p => "dense_" ++ Py.str_nat p) (seq start m).
Proof.
  revert start sent. induction m as [| m IH]; intros start sent H; simpl in *.
  - inversion H. reflexivity.
  - inversion H as [| p v ps vs [Hid _] Hrest]; subst. simpl.
    now rewrite Hid, (IH _ _ Hrest).
Qed.

End Ingestion.

Section Documents.

Import EmbeddingService.

Variable embedding : Type.

(** The names of the vectors go by the places of the sections, not by the
    document: the vectors of a document are named as the first vectors of
    any document that has as many sections or more, whose vectors take
    their places in the index; within one document no name is used
    twice. *)
Theorem vector_ids_by_position (S S' : services embedding)
    (index index' : index_handle embedding)
    (sections sections' : list DocumentParser.section)
    (batch_size batch_size' : Z) :
  let run := upsert_dense_embeddings S index sections batch_size in
  let run' :=
    upsert_dense_embeddings S' index' sections' batch_size' in
  0 < batch_size -> 0 < batch_size' ->
  snd run = Ok tt -> snd run' = Ok tt ->
  (List.length sections <= List.length sections')%nat ->
  map id (List.concat (upserted (fst run)))
  = firstn (List.length sections)
           (map id (List.concat (upserted (fst run'))))
  /\ NoDup (map id (List.concat (upserted (fst run)))).
Proof.
  intros run run' Hb Hb' Hok Hok' Hlen.
  destruct (upsert_dense_embeddings_prefix embedding S index sections
              batch_size)
    as [m [_ [Hsent Hm]]].
  destruct (upsert_dense_embeddings_prefix embedding S' index' sections'
              batch_size') as [m' [_ [Hsent' Hm']]].
  fold run in Hsent, Hm. fold run' in Hsent', Hm'.
  rewrite (Hm Hok Hb) in Hsent. rewrite (Hm' Hok' Hb') in Hsent'.
  rewrite (sent_ids _ _ _ _ _ Hsent), (sent_ids _ _ _ _ _ Hsent'). split.
  - rewrite firstn_map, firstn_seq_min. f_equal. f_equal. lia.
  - apply Finite.Injective_map_NoDup; [| apply seq_NoDup].
    intros a b Heq. apply str_nat_inj.
    now injection Heq.
Qed.

End Documents.

Section WellFormed.

Import EmbeddingService.

Variable embedding : Type.
Variable S : services embedding.

Lemma vectors_of_Ok (i : nat) (dense_embeddings : list embedding)
    (batch_sections : list DocumentParser.section) (idx : nat) :
  (forall section,
     In section batch_sections ->
     DocumentParser.full_content section <> None
     /\ DocumentParser.page_number section <> None) ->
  (idx + List.length batch_sections <= List.length dense_embeddings)%nat ->
  exists vectors_to_upsert,
    vectors_of i dense_embeddings idx batch_sections = Ok vectors_to_upsert.
Proof.
  revert idx. induction batch_sections as [| section rest IH];
    intros idx Hwf Hlen; simpl.
  - eauto.
  - destruct (Hwf section (or_introl eq_refl)) as [Hc Hp].
    unfold vector_of, full_content_of.
    destruct (DocumentParser.page_number section); [| now elim Hp].
    destruct (DocumentParser.full_content section); [| now elim Hc].
    simpl in *.
    destruct (nth_error dense_embeddings idx) eqn:Hrow;
      [| apply nth_error_None in Hrow; lia].
    destruct (IH (Datatypes.S idx)) as [vs ->]; [| lia | eauto].
    intros x Hx. apply Hwf. now right.
Qed.

Lemma full_contents_Ok (batch_sections : list DocumentParser.section) :
  (forall section,
     In section batch_sections ->
     DocumentParser.full_content section <> None
     /\ DocumentParser.page_number section <> None) ->
  exists dense_texts,
    comprehension full_content_of batch_sections = Ok dense_texts
    /\ List.length dense_texts = List.length batch_sections.
Proof.
  intros Hwf.
  destruct (comprehension_ok full_content_of batch_sections)
    as [texts [Htexts Hall]].
  - intros s Hs. destruct (Hwf s Hs) as [Hc _]. unfold full_content_of.
    destruct (DocumentParser.full_content s); [eauto | now elim Hc].
  - exists texts. split; [exact Htexts |].
    symmetry. exact (Forall2_length Hall).
Qed.

Lemma firstn_skipn_In {A : Type} (b i : nat) (l : list A) (x : A) :
  In x (firstn b (skipn i l)) -> In x l.
Proof.
  intros H. rewrite <- (firstn_skipn i l). apply in_or_app. right.
  rewrite <- (firstn_skipn b (skipn i l)). apply in_or_app. now left.
Qed.

(** Sections that all have a full content and a page, an embedding model
    that returns a row for each text, and an index that accepts the
    vectors: the run ends well, and the vector of every section, in the
    order of the sections, has been sent. *)
Theorem upsert_dense_embeddings_succeeds (index : index_handle embedding)
    (sections : list DocumentParser.section) (batch_size : Z) :
  0 < batch_size ->
  (forall section,
     In section sections ->
     DocumentParser.full_content section <> None
     /\ DocumentParser.page_number section <> None) ->
  (forall texts,
     exists rows,
       encode S texts = Ok rows
       /\ (List.length texts <= List.length rows)%nat) ->
  (forall vectors, index vectors = Ok tt) ->
  let run := upsert_dense_embeddings S index sections batch_size in
  snd run = Ok tt
  /\ Forall2 (sent_for sections) (seq 0 (List.length sections))
             (List.concat (upserted (fst run))).
Proof.
  intros Hb Hwf Hencode Hindex run.
  assert (Hok : snd run = Ok tt).
  { subst run. unfold upsert_dense_embeddings, range_step.
    destruct (Z.eqb_spec batch_size 0); [lia |].
    destruct (Z.ltb_spec batch_size 0); [lia |].
    unfold bind, lift. cbn [fst snd].
    generalize (map (fun j => (j * Z.to_nat batch_size)%nat)
                    (seq 0 (Z.to_nat ((Z.of_nat (List.length sections)
                                       + batch_size - 1) / batch_size)))).
    intros starts. induction starts as [| i starts IH]; [reflexivity |].
    cbn [for_in]. unfold bind.
    assert (Hbatch : snd (upsert_batch S index sections batch_size i)
                     = Ok tt).
    { unfold upsert_batch, bind, lift, call. cbv zeta.
      set (batch_sections := firstn (Z.to_nat batch_size) (skipn i sections)).
      assert (Hwf' : forall section,
                 In section batch_sections ->
                 DocumentParser.full_content section <> None
                 /\ DocumentParser.page_number section <> None).
      { intros s Hs. apply Hwf. exact (firstn_skipn_In _ _ _ _ Hs). }
      destruct (full_contents_Ok batch_sections Hwf')
        as [texts [-> Htexts]].
      cbn [fst snd].
      destruct (Hencode texts) as [rows [-> Hrows]]. cbn [fst snd].
      destruct (vectors_of_Ok i rows batch_sections 0 Hwf') as [vs ->];
        [simpl; lia |].
      cbn [fst snd]. apply Hindex. }
    rewrite Hbatch. cbn [snd]. exact IH. }
  split; [exact Hok |].
  destruct (upsert_dense_embeddings_prefix embedding S index sections
              batch_size) as [m [_ [Hsent Hm]]].
  fold run in Hsent, Hm. now rewrite (Hm Hok Hb) in Hsent.
Qed.

(** *** [process_and_embed_document] *)

(** When the parser returns no section, [None] or an empty list, the
    document is downloaded, parsed and removed, nothing reaches Pinecone,
    and the function returns as after an ingestion. *)
Theorem no_sections_nothing_indexed (pdf_url : string) :
  let pdf_path := local_filename S in
  let parsed :=
    parse_document_to_sections S pdf_path
      "models/heading_classifier_model.joblib"
      "models/label_encoder.joblib" in
  download S pdf_url pdf_path = Downloaded ->
  remove S pdf_path = Ok tt ->
  parsed = Ok None \/ parsed = Ok (Some []) ->
  process_and_embed_document S pdf_url
  = ([Download pdf_url pdf_path;
      ParseDocument pdf_path "models/heading_classifier_model.joblib"
        "models/label_encoder.joblib";
      Remove pdf_path],
     Ok tt).
Proof.
  intros pdf_path parsed Hdown Hrm Hparsed. subst pdf_path parsed.
  unfold process_and_embed_document, temporary_pdf_file, finally, bind, call,
    ret.
  cbv zeta. rewrite Hdown, Hrm. cbn [fst snd].
  destruct Hparsed as [-> | ->]; reflexivity.
Qed.

(** The temporary file does not outlive the run: when the download has
    created it, the last call of the run removes it, whatever the parsing,
    the index and the embedding model have done, and an exception of the
    removal is the outcome; when the download has not created it, the run
    ends with the exception of the download. *)
Theorem temporary_file_removed (pdf_url : string) :
  let pdf_path := local_filename S in
  let run := process_and_embed_document S pdf_url in
  match download S pdf_url pdf_path with
  | Failed e false => run = ([Download pdf_url pdf_path], Raise e)
  | Failed e true =>
      fst run = [Download pdf_url pdf_path; Remove pdf_path]
      /\ snd run = match remove S pdf_path with
                   | Raise e' => Raise e'
                   | Ok _ => Raise e
                   end
  | Downloaded =>
      exists tr,
        fst run = (Download pdf_url pdf_path :: tr ++ [Remove pdf_path])%list
        /\ forall e, remove S pdf_path = Raise e -> snd run = Raise e
  end.
Proof.
  cbv zeta. unfold process_and_embed_document, temporary_pdf_file, finally.
  cbv zeta.
  destruct (download S pdf_url (local_filename S)) as [| e [|]].
  - unfold bind at 1, call at 1. cbn [fst snd].
    eexists. split; [reflexivity |].
    intros e ->. reflexivity.
  - unfold bind, call. cbn [fst snd]. split; reflexivity.
  - unfold bind, call, ret. cbn [fst snd]. reflexivity.
Qed.

End WellFormed.

(** *** [parse_document_to_sections] *)

Section Parsed.

Import DocumentParser.

Variable A : Parsing.answers.

Lemma group_text_into_sections_In (labeled_lines : list labeled_line)
    (pdf_filename : string) (s : section) :
  In s (group_text_into_sections labeled_lines pdf_filename) ->
  exists item,
    In item labeled_lines
    /\ is_heading item = true
    /\ header s = header_of pdf_filename item.
Proof.
  intros Hin. apply (in_map header) in Hin.
  unfold group_text_into_sections in Hin. cbv zeta in Hin.
  fold (opened (fold_left (step pdf_filename) labeled_lines
                  {| sections := []; current_section := None;
                     active_heading_stack := [] |})) in Hin.
  rewrite opened_fold in Hin. simpl in Hin.
  apply in_map_iff in Hin as [item [Heq Hitem]].
  apply filter_In in Hitem as [Hitem Hh]. exists item. auto.
Qed.

(** The sections the parser returns are ready for the index: each has the
    name of the file of the document, a page, a title that is not blank,
    and, as its full content, its path joined by [" > "], a colon, and its
    content. *)
Theorem parse_document_to_sections_sections
    (pdf_path model_path encoder_path : string) (sections : list section)
    (s : section) :
  Parsing.parse_document_to_sections A pdf_path model_path encoder_path
  = Ok (Some sections) ->
  In s sections ->
  document_name s = Parsing.basename pdf_path
  /\ page_number s <> None
  /\ section_title s <> EmptyString
  /\ full_content s
     = Some (join " > " (full_path s) ++ ": " ++ content s).
Proof.
  unfold Parsing.parse_document_to_sections. cbv zeta.
  destruct (Parsing.joblib_load A model_path); [| discriminate].
  destruct (Parsing.joblib_load A encoder_path); [| discriminate].
  destruct (Parsing.extract_features_from_pdf A pdf_path)
    as [[| row rows] |]; try discriminate.
  destruct (Parsing.predictions_labels A (row :: rows)) as [labels |];
    [| discriminate].
  destruct (negb _); [discriminate |].
  intros [= <-] Hin. unfold add_full_content_to_sections in Hin.
  apply in_map_iff in Hin as [s0 [<- Hs0]].
  destruct (group_text_into_sections_In _ _ _ Hs0)
    as [item [Hitem [Hh Hhdr]]].
  unfold header, header_of in Hhdr. injection Hhdr as Htitle Hpage _ Hname _.
  cbn [add_full_content document_name page_number section_title full_content
       full_path content].
  repeat split.
  - exact Hname.
  - rewrite Hpage. unfold Parsing.labeled_lines_of in Hitem.
    apply in_map_iff in Hitem as [r [<- _]]. discriminate.
  - rewrite Htitle. now destruct (is_heading_level item Hh).
Qed.

(** When the model or the label encoder cannot be loaded, or the document
    has no features, the parser raises nothing and returns [None]. *)
Theorem parse_document_to_sections_none
    (pdf_path model_path encoder_path : string) :
  (exists e, Parsing.joblib_load A model_path = Raise e)
  \/ (exists e, Parsing.joblib_load A encoder_path = Raise e)
  \/ (Parsing.joblib_load A model_path = Ok tt
      /\ Parsing.joblib_load A encoder_path = Ok tt
      /\ Parsing.extract_features_from_pdf A pdf_path = Ok []) ->
  Parsing.parse_document_to_sections A pdf_path model_path encoder_path
  = Ok None.
Proof.
  unfold Parsing.parse_document_to_sections. cbv zeta.
  intros [[e ->] | [[e He] | [-> [-> ->]]]]; try reflexivity.
  destruct (Parsing.joblib_load A model_path); [| reflexivity].
  now rewrite He.
Qed.

End Parsed.

(** ** The evaluation *)

Section Evaluated.

Import EvaluationService.

Context {F : PyFloat}.
Variable truediv_int : num -> Z -> num.
Variable round3 : num -> num.
Variable S : services.

(** When the model has answered and its answer is a JSON text, the scores
    are the values of the three keys up to the first one that [float]
    rejects: that metric and the metrics after it stay at zero, also those
    for which the answer has a good value, and the metrics before it keep
    the values of the answer. *)
Theorem scores_up_to_first_bad_value (it : item) (response : response)
    (t : string) (parsed_scores : json) :
  generate_content S (prompt_of it) = Ok response ->
  text response = Ok t ->
  json_loads S (json_response_str t) = Ok parsed_scores ->
  let sc := scored S it in
  let f := float_get S parsed_scores "faithfulness" in
  let a := float_get S parsed_scores "answer_relevance" in
  let c := float_get S parsed_scores "context_precision" in
  item_scores (snd (evaluate_single_item S it)) = Some sc
  /\ match f, a, c with
     | Raise _, _, _ =>
         sc = {| faithfulness := zero; answer_relevance := zero;
                 context_precision := zero |}
     | Ok x, Raise _, _ =>
         sc = {| faithfulness := x; answer_relevance := zero;
                 context_precision := zero |}
     | Ok x, Ok y, Raise _ =>
         sc = {| faithfulness := x; answer_relevance := y;
                 context_precision := zero |}
     | Ok x, Ok y, Ok z =>
         sc = {| faithfulness := x; answer_relevance := y;
                 context_precision := z |}
     end.
Proof.
  intros Hgen Htext Hloads. cbv zeta. split; [reflexivity |].
  unfold scored, try_except_Exception, try_body, bind, lift, assign.
  rewrite Hgen, Htext, Hloads.
  destruct (float_get S parsed_scores "faithfulness"); [| reflexivity].
  destruct (float_get S parsed_scores "answer_relevance"); [| reflexivity].
  destruct (float_get S parsed_scores "context_precision"); reflexivity.
Qed.

(** When the model, the text of its response or [json.loads] raises, or
    when the JSON value is not an object, the three scores are zero. *)
Theorem no_scores_all_zero (it : item) :
  match generate_content S (prompt_of it) with
  | Raise _ => True
  | Ok response =>
      match text response with
      | Raise _ => True
      | Ok t =>
          match json_loads S (json_response_str t) with
          | Raise _ | Ok (JObject _) => False | Ok _ => True
          end
      end
  end ->
  scored S it
  = {| faithfulness := zero; answer_relevance := zero;
       context_precision := zero |}.
Proof.
  unfold scored, try_except_Exception, try_body, bind, lift, assign.
  destruct (generate_content S (prompt_of it)) as [response | e];
    [| reflexivity].
  destruct (text response) as [t | e]; [| reflexivity].
  destruct (json_loads S (json_response_str t)) as [parsed | e].
  - destruct parsed; intros H; try reflexivity. destruct H.
  - intros H. destruct H.
Qed.

Lemma evaluate_all_run (results_with_context : list item) :
  evaluate_all S results_with_context
  = (List.concat
       (map (fun it => [GenerateContent (prompt_of it); Sleep 4])
            results_with_context),
     map (fun it => snd (evaluate_single_item S it)) results_with_context).
Proof.
  induction results_with_context as [| it rest IH]; [reflexivity |].
  cbn [evaluate_all]. cbv zeta. rewrite IH. reflexivity.
Qed.

(** The evaluation of a list of results raises nothing, whatever the model
    answers: every item is evaluated, in the order of the list, with one
    call of the model followed by a pause of four seconds, also when its
    evaluation has failed; every item comes back with scores and with its
    other keys as they were; and the summary is empty exactly when the list
    is. *)
Theorem run_evaluation_pipeline_report (results_with_context : list item) :
  let run :=
    run_evaluation_pipeline truediv_int round3 S results_with_context in
  fst run
  = List.concat
      (map (fun it => [GenerateContent (prompt_of it); Sleep 4])
           results_with_context)
  /\ detailed_results (snd run)
     = map (fun it => snd (evaluate_single_item S it)) results_with_context
  /\ Forall2 (fun it evaluated =>
                item_scores evaluated = Some (scored S it)
                /\ question evaluated = question it
                /\ generated_answer evaluated = generated_answer it
                /\ retrieved_context evaluated = retrieved_context it
                /\ ground_truth_answer evaluated = ground_truth_answer it
                /\ ground_truth_context evaluated = ground_truth_context it)
             results_with_context (detailed_results (snd run))
  /\ (summary_scores (snd run) = None <-> results_with_context = []).
Proof.
  cbv zeta. unfold run_evaluation_pipeline. cbv zeta.
  rewrite evaluate_all_run. cbn [fst snd].
  destruct results_with_context as [| it rest].
  - simpl. repeat split; constructor.
  - cbn [map]. cbn [detailed_results summary_scores].
    split; [reflexivity |]. split; [reflexivity |]. split.
    + constructor; [now repeat split |].
      induction rest as [| it' rest IH]; constructor; [now repeat split |].
      exact IH.
    + split; discriminate.
Qed.

End Evaluated.

(** ** The index of the vectors *)

Section PineconeIndex.

Import EmbeddingService.

Variable embedding : Type.
Variable S : services embedding.

(** [get_pinecone_index] creates the index only when its name is not
    listed, with the dimension of the embeddings and the configured region,
    and opens it only once it is there: listed, or created without an
    exception; what it returns is the handle that [pc.Index] gives. *)
Theorem get_pinecone_index_creates_when_missing :
  let run := get_pinecone_index S in
  let name := PINECONE_INDEX_NAME S in
  (forall n dimension region,
     In (CreateIndex n dimension region) (fst run) ->
     n = name /\ dimension = EMBEDDING_DIMENSION S
     /\ region = PINECONE_ENVIRONMENT S
     /\ exists names, list_indexes S = Ok names /\ ~ In name names)
  /\ (forall n,
        In (OpenIndex n) (fst run) ->
        n = name
        /\ exists names,
             list_indexes S = Ok names
             /\ (In name names
                 \/ create_index S name (EMBEDDING_DIMENSION S)
                      (PINECONE_ENVIRONMENT S) = Ok tt))
  /\ (forall index, snd run = Ok index -> pc_Index S name = Ok index).
Proof.
  cbv zeta. unfold get_pinecone_index, bind, call, ret.
  destruct (list_indexes S) as [names | e]; cbn [fst snd].
  - destruct (existsb (String.eqb (PINECONE_INDEX_NAME S)) names) eqn:Hin;
      cbn [negb fst snd].
    + apply existsb_exists in Hin as [x [Hx Heq]].
      apply String.eqb_eq in Heq. subst x.
      split; [| split].
      * intros n d r H. simpl in H.
        destruct H as [H | [H | H]]; [discriminate H | discriminate H |].
        destruct H.
      * intros n H. simpl in H.
        destruct H as [H | [H | H]]; [discriminate H | | destruct H].
        injection H as <-. split; [reflexivity |].
        exists names. split; [reflexivity | left; exact Hx].
      * intros index H. simpl in H. simpl.
        destruct (pc_Index S (PINECONE_INDEX_NAME S)); exact H.
    + assert (Hout : ~ In (PINECONE_INDEX_NAME S) names).
      { intros H.
        assert (Hex : existsb (String.eqb (PINECONE_INDEX_NAME S)) names
                      = true).
        { apply existsb_exists. exists (PINECONE_INDEX_NAME S).
          split; [exact H | apply String.eqb_refl]. }
        congruence. }
      destruct (create_index S (PINECONE_INDEX_NAME S) (EMBEDDING_DIMENSION S)
                  (PINECONE_ENVIRONMENT S)) as [[] | e] eqn:Hcreate;
        cbn [fst snd app].
      * split; [| split].
        -- intros n d r H. simpl in H.
           destruct H as [H | [H | [H | H]]];
             [discriminate H | | discriminate H | destruct H].
           injection H as <- <- <-.
           do 3 (split; [reflexivity |]).
           exists names. split; [reflexivity | exact Hout].
        -- intros n H. simpl in H.
           destruct H as [H | [H | [H | H]]];
             [discriminate H | discriminate H | | destruct H].
           injection H as <-. split; [reflexivity |].
           exists names. split; [reflexivity | right; reflexivity].
        -- intros index H. simpl in H. simpl.
           destruct (pc_Index S (PINECONE_INDEX_NAME S)); exact H.
      * split; [| split].
        -- intros n d r H. simpl in H.
           destruct H as [H | [H | H]]; [discriminate H | | destruct H].
           injection H as <- <- <-.
           do 3 (split; [reflexivity |]).
           exists names. split; [reflexivity | exact Hout].
        -- intros n H. simpl in H.
           destruct H as [H | [H | H]];
             [discriminate H | discriminate H | destruct H].
        -- intros index H. discriminate H.
  - split; [| split].
    + intros n d r H. simpl in H.
      destruct H as [H | H]; [discriminate H | destruct H].
    + intros n H. simpl in H.
      destruct H as [H | H]; [discriminate H | destruct H].
    + intros index H. discriminate H.
Qed.

End PineconeIndex.

(** ** The fences around the JSON text *)

Section Fences.

Import EvaluationService.

Lemma replace_from_skip (old new a s : string) :
  replace_from old new (String.length a) (a ++ s) = replace_from old new 0 s.
Proof.
  induction a as [| c a IH]; simpl; [| exact IH].
  destruct s; reflexivity.
Qed.

(** An occurrence at the head is replaced, and the search goes on after
    it. *)
Lemma replace_from_occurrence (c : ascii) (old' new s : string) :
  replace_from (String c old') new 0 (String c old' ++ s)
  = (new ++ replace_from (String c old') new 0 s)%string.
Proof.
  change (String c old' ++ s)%string with (String c (old' ++ s)).
  cbn [replace_from].
  change (String c (old' ++ s)) with (String c old' ++ s)%string.
  rewrite prefix_app.
  change (String.length (String c old') - 1)%nat
    with (String.length old' - 0)%nat.
  now rewrite Nat.sub_0_r, replace_from_skip.
Qed.

(** No occurrence starts in a text without backquotes, when [old] starts
    with one. *)
Lemma replace_from_plain (old' new p q : string) :
  no_backquote p = true ->
  replace_from (String "`" old') new 0 (p ++ q)
  = (p ++ replace_from (String "`" old') new 0 q)%string.
Proof.
  induction p as [| c p IH]; [reflexivity |].
  unfold no_backquote. cbn [every]. intros H.
  apply andb_prop in H as [Hc Hp].
  change (String c p ++ q)%string with (String c (p ++ q)).
  cbn [replace_from String.prefix].
  destruct (ascii_dec "`" c) as [<- | _]; [discriminate Hc |].
  now rewrite (IH Hp).
Qed.

(** The opening fence [```] at the end of a line is no occurrence of
    [```json]. *)
Lemma replace_from_plain_fence (rest : string) :
  replace_from "```json" "" 0 ("```" ++ newline ++ rest)
  = ("```" ++ replace_from "```json" "" 0 (newline ++ rest))%string.
Proof. reflexivity. Qed.

Lemma rstrip_app (a b : string) :
  Py.rstrip b <> EmptyString ->
  Py.rstrip (a ++ b) = (a ++ Py.rstrip b)%string.
Proof.
  intros Hb. induction a as [| c a IH]; [reflexivity |].
  cbn [append Py.rstrip]. rewrite IH.
  destruct a as [| d a]; cbn [append]; [| reflexivity].
  unfold Py.rstrip_cons. destruct (Py.rstrip b); [now elim Hb | reflexivity].
Qed.

Lemma rstrip_every (p : ascii -> bool) (s : string) :
  every p s = true -> every p (Py.rstrip s) = true.
Proof.
  induction s as [| c s IH]; [reflexivity |].
  cbn [every Py.rstrip]. intros H. apply andb_prop in H as [Hc Hs].
  specialize (IH Hs). unfold Py.rstrip_cons.
  destruct (Py.rstrip s) as [| d r].
  - destruct (Py.is_space c); [reflexivity |].
    cbn [every]. now rewrite Hc.
  - cbn [every] in *. now rewrite Hc.
Qed.

Lemma lstrip_every (p : ascii -> bool) (s : string) :
  every p s = true -> every p (Py.lstrip s) = true.
Proof.
  induction s as [| c s IH]; [reflexivity |].
  cbn [every Py.lstrip]. intros H.
  destruct (Py.is_space c); [| exact H].
  apply andb_prop in H as [_ Hs]. exact (IH Hs).
Qed.

Lemma rstrip_rstrip (s : string) : Py.rstrip (Py.rstrip s) = Py.rstrip s.
Proof.
  induction s as [| c s IH]; [reflexivity |].
  cbn [Py.rstrip]. destruct (Py.rstrip s) as [| d r] eqn:Hr.
  - unfold Py.rstrip_cons.
    destruct (Py.is_space c) eqn:Hc; [reflexivity |].
    cbn [Py.rstrip]. unfold Py.rstrip_cons. now rewrite Hc.
  - cbn [Py.rstrip_cons].
    change (Py.rstrip (String c (String d r)))
      with (Py.rstrip_cons c (Py.rstrip (String d r))).
    now rewrite IH.
Qed.

(** What [lstrip] leaves is empty or starts with a character that is not
    white space. *)
Lemma lstrip_head (s : string) :
  match Py.lstrip s with
  | EmptyString => True
  | String c _ => Py.is_space c = false
  end.
Proof.
  induction s as [| c s IH]; [exact I |].
  cbn [Py.lstrip]. destruct (Py.is_space c) eqn:Hc; [exact IH | exact Hc].
Qed.

Lemma strip_strip (s : string) : Py.strip (Py.strip s) = Py.strip s.
Proof.
  unfold Py.strip. pose proof (lstrip_head s) as Hhead.
  destruct (Py.lstrip s) as [| c r]; [reflexivity |].
  assert (Hl : Py.lstrip (Py.rstrip (String c r)) = Py.rstrip (String c r)).
  { cbn [Py.rstrip]. unfold Py.rstrip_cons.
    destruct (Py.rstrip r); rewrite ?Hhead; cbn [Py.lstrip];
      now rewrite Hhead. }
  now rewrite Hl, rstrip_rstrip.
Qed.

Lemma strip_every (p : ascii -> bool) (s : string) :
  every p s = true -> every p (Py.strip s) = true.
Proof.
  intros H. unfold Py.strip. now apply rstrip_every, lstrip_every.
Qed.

(** A text that ends with the closing fence is stripped of nothing at its
    end. *)
Lemma rstrip_fence (a : string) :
  Py.rstrip (a ++ "```") = (a ++ "```")%string.
Proof. rewrite rstrip_app; [reflexivity | discriminate]. Qed.

(** The text of a response that holds no backquote but those of its fences
    is cleaned to its stripped body: when the body stands between
    [```json] and [```], when it stands on the lines between [```] and
    [```], and when it has no fence. *)
Theorem json_response_str_fences (body : string) :
  no_backquote body = true ->
  json_response_str ("```json" ++ body ++ "```") = Py.strip body
  /\ json_response_str ("```" ++ newline ++ body ++ "```") = Py.strip body
  /\ json_response_str body = Py.strip body.
Proof.
  intros Hbody. unfold json_response_str, replace. repeat split.
  - assert (Hstrip : Py.strip ("```json" ++ body ++ "```")
                     = ("```json" ++ body ++ "```")%string).
    { unfold Py.strip.
      change (Py.lstrip ("```json" ++ body ++ "```"))
        with ("```json" ++ body ++ "```")%string.
      rewrite <- append_assoc. apply rstrip_fence. }
    rewrite Hstrip.
    rewrite (replace_from_occurrence "`" "``json" "" (body ++ "```")).
    rewrite (replace_from_plain "``json" "" body "```" Hbody).
    change (replace_from "```json" "" 0 "```") with "```"%string.
    cbn [append].
    rewrite (replace_from_plain "``" "" body "```" Hbody).
    change (replace_from "```" "" 0 "```") with ""%string.
    now rewrite append_empty.
  - assert (Hstrip : Py.strip ("```" ++ newline ++ body ++ "```")
                     = ("```" ++ newline ++ body ++ "```")%string).
    { unfold Py.strip.
      change (Py.lstrip ("```" ++ newline ++ body ++ "```"))
        with ("```" ++ newline ++ body ++ "```")%string.
      rewrite <- (append_assoc newline), <- append_assoc.
      apply rstrip_fence. }
    rewrite Hstrip.
    assert (Hlines : no_backquote (newline ++ body) = true).
    { unfold no_backquote. rewrite every_app. exact Hbody. }
    assert (Hfirst :
      replace_from "```json" "" 0 ("```" ++ newline ++ body ++ "```")
      = ("```" ++ newline ++ body ++ "```")%string).
    { rewrite replace_from_plain_fence. rewrite <- (append_assoc newline).
      now rewrite (replace_from_plain "``json" "" (newline ++ body) "```"
                     Hlines). }
    rewrite Hfirst.
    rewrite <- (append_assoc newline).
    rewrite (replace_from_occurrence "`" "``" ""
               ((newline ++ body) ++ "```")).
    rewrite (replace_from_plain "``" "" (newline ++ body) "```" Hlines).
    change (replace_from "```" "" 0 "```") with ""%string.
    cbn [append]. now rewrite append_empty.
  - rewrite <- (append_empty (Py.strip body)) at 1.
    rewrite (replace_from_plain "``json" "" (Py.strip body) ""
               (strip_every _ body Hbody)).
    cbn [replace_from].
    rewrite (replace_from_plain "``" "" (Py.strip body) ""
               (strip_every _ body Hbody)).
    cbn [replace_from]. rewrite append_empty. apply strip_strip.
Qed.

End Fences.

(** ** The properties on the samples *)

Module Witnesses.

Import Samples.

Local Open Scope string_scope.

(** *** The tokenizer *)

Lemma simple_tokenizer_tokens_witness :
  In "grace" (simple_tokenizer "Grace Period, 30 days!")
  /\ "grace" <> EmptyString
  /\ every Py.is_word "grace" = true
  /\ Py.lower "grace" = "grace".
Proof.
  split; [vm_compute; auto |].
  apply (simple_tokenizer_tokens "Grace Period, 30 days!" "grace").
  vm_compute. auto.
Defined.

(** *** The keyword index *)

Lemma build_bm25_index_missing_context_witness :
  build_bm25_index_from_file incomplete "golden_dataset.json" initial
  = Run [OpenJson "golden_dataset.json"]
        (Raise (KeyError "ground_truth_context")) initial.
Proof.
  apply (build_bm25_index_missing_context incomplete "golden_dataset.json"
           initial [item "alpha beta"; [("question", "q")]]
           [("question", "q")]).
  - reflexivity.
  - simpl. auto.
  - reflexivity.
Defined.

Lemma build_bm25_index_from_file_built_witness :
  exists data index,
    json_load (@twice QExact) "golden_dataset.json" = Ok data
    /\ map (fun item => Py.get item "ground_truth_context") data
       = map Some
           (corpus (final (build_bm25_index_from_file (@twice QExact)
                             "golden_dataset.json" initial)))
    /\ BM25Okapi (@twice QExact)
         (map simple_tokenizer
            (corpus (final (build_bm25_index_from_file (@twice QExact)
                              "golden_dataset.json" initial))))
       = Ok index
    /\ bm25_index (final (build_bm25_index_from_file (@twice QExact)
                            "golden_dataset.json" initial))
       = Some index
    /\ trace (build_bm25_index_from_file (@twice QExact)
                "golden_dataset.json" initial)
       = [OpenJson "golden_dataset.json";
          NewBM25Okapi
            (map simple_tokenizer
               (corpus (final (build_bm25_index_from_file (@twice QExact)
                                 "golden_dataset.json" initial))))].
Proof.
  apply (build_bm25_index_from_file_built (@twice QExact)
           "golden_dataset.json" initial).
  reflexivity.
Defined.

Lemma bm25_index_built_once_witness :
  final (retrieve_and_rerank (@twice QExact) "Is it covered?" 5 2
           (final (retrieve_and_rerank (@twice QExact) asked 10 3 initial)))
  = final (retrieve_and_rerank (@twice QExact) asked 10 3 initial)
  /\ calls (@builds_index QExact)
       (trace (retrieve_and_rerank (@twice QExact) "Is it covered?" 5 2
                 (final (retrieve_and_rerank (@twice QExact) asked 10 3
                           initial))))
     = 0%nat.
Proof.
  apply (bm25_index_built_once (@twice QExact) asked "Is it covered?"
           10 3 5 2 initial ["alpha beta"; "alpha beta"]).
  vm_compute. reflexivity.
Defined.

(** *** The retrieval *)

Lemma keyword_search_ranked_witness :
  exists (bm25_hits : list (@bm25_hit QExact)) (positions : list nat),
    keyword_search (okapi_scores (F := QExact) unit_weight
                      [["alpha"]; ["beta"]])
      ["alpha"; "beta"] "beta" 1
    = Ok bm25_hits
    /\ NoDup positions
    /\ List.length positions = 1%nat
    /\ descending bm25_score bm25_hits.
Proof.
  destruct (keyword_search_ranked QExact_order
              (okapi_scores (F := QExact) unit_weight [["alpha"]; ["beta"]])
              ["alpha"; "beta"] "beta" 1)
    as [bm25_hits [positions [Hhits [Hnd [Hlen [_ [Hdesc _]]]]]]].
  - lia.
  - reflexivity.
  - exists bm25_hits, positions. auto.
Defined.

Lemma retrieve_and_rerank_context_witness :
  (0 <= 3 -> (List.length ["alpha beta"; "alpha beta"] <= Z.to_nat 3)%nat)
  /\ forall content,
       In content ["alpha beta"; "alpha beta"] ->
       In content
          (corpus (final (retrieve_and_rerank (@twice QExact) asked 10 3
                            initial)))
       \/ exists index query_embedding matches h,
            pc_Index (@twice QExact) (PINECONE_INDEX_NAME (@twice QExact))
            = Ok index
            /\ encode (@twice QExact) (rewritten (@twice QExact) asked)
               = Ok query_embedding
            /\ index query_embedding 10 = Ok (Some matches)
            /\ In h matches
            /\ Py.get (hit_metadata h) "full_content" = Some content.
Proof.
  apply (retrieve_and_rerank_context (@twice QExact) asked 10 3 initial
           ["alpha beta"; "alpha beta"]).
  vm_compute. reflexivity.
Defined.


Lemma candidate_without_full_content_witness :
  search_and_rerank (@twice QExact) bare_index asked "alpha" 10 3 built
  = Run [Encode "alpha"; Query 10] (Raise (KeyError "full_content")) built.
Proof.
  apply (candidate_without_full_content (@twice QExact) bare_index asked
           "alpha" 10 3 built (okapi_scores unit_weight [["alpha"]])
           [{| bm25_id := "bm25_0"; bm25_score := truediv 1 1;
               bm25_full_content := "alpha" |}]
           [zero] [bare]
           {| score := add zero (reciprocal_rank 0);
              fused_metadata := [] |}).
  - reflexivity.
  - vm_compute. reflexivity.
  - reflexivity.
  - reflexivity.
  - vm_compute. left. reflexivity.
  - reflexivity.
Defined.

(** *** The sections of a document *)

Lemma lines_before_first_heading_dropped_witness :
  DocumentParser.group_text_into_sections
    ([line "Body" "Preface" 1; line "Other" "page 1" 1]
     ++ [line "H1" "Scope" 1; line "Body" "covers all" 1]) "policy.pdf"
  = DocumentParser.group_text_into_sections
      [line "H1" "Scope" 1; line "Body" "covers all" 1] "policy.pdf".
Proof.
  apply (lines_before_first_heading_dropped "policy.pdf"
           [line "Body" "Preface" 1; line "Other" "page 1" 1]
           [line "H1" "Scope" 1; line "Body" "covers all" 1]).
  intros item [<- | [<- | []]]; reflexivity.
Defined.

Lemma full_path_nested_witness :
  exists s,
    nth_error (DocumentParser.group_text_into_sections policy "policy.pdf") 3
    = Some s
    /\ DocumentParser.full_path s = ["Policy"; "Claims"].
Proof.
  destruct (full_path_nested "policy.pdf" policy
              [{| DocumentParser.title := "Policy";
                  DocumentParser.level := 0 |};
               {| DocumentParser.title := "Scope";
                  DocumentParser.level := 1 |};
               {| DocumentParser.title := "Limits";
                  DocumentParser.level := 2 |}]
              {| DocumentParser.title := "Claims";
                 DocumentParser.level := 1 |}
              [] eq_refl)
    as [s [Hnth [_ [_ [Hpath _]]]]].
  exists s. split; [exact Hnth | exact Hpath].
Defined.

Lemma section_content_words_witness :
  exists s,
    nth_error
      (DocumentParser.group_text_into_sections
         ([line "Body" "Preface" 1; line "Title" " Policy " 1]
          ++ line "H1" "Scope" 1
             :: [line "Body" "covers  all" 1; line "Body" " members " 2]
             ++ [line "H2" "Limits" 2; line "H1" "Claims" 3])
         "policy.pdf")
      1
    = Some s
    /\ DocumentParser.section_title s = "Scope"
    /\ DocumentParser.content s = "covers all members".
Proof.
  apply (section_content_words "policy.pdf"
           [line "Body" "Preface" 1; line "Title" " Policy " 1]
           [line "Body" "covers  all" 1; line "Body" " members " 2]
           [line "H2" "Limits" 2; line "H1" "Claims" 3]
           (line "H1" "Scope" 1)).
  - reflexivity.
  - intros b [<- | [<- | []]]; reflexivity.
  - intros h' [= <-]. reflexivity.
Defined.

(** *** The ingestion *)

Lemma upsert_dense_embeddings_batches_witness :
  Forall (fun vs : list (EmbeddingService.vector nat) =>
            1 <= Z.of_nat (List.length vs) <= 3)
         (EmbeddingService.upserted
            (fst (EmbeddingService.upsert_dense_embeddings
                    (ingestion (Ok None)) accepting policy_sections 3)))
  /\ (snd (EmbeddingService.upsert_dense_embeddings
             (ingestion (Ok None)) accepting policy_sections 3)
      = Ok tt ->
      Z.of_nat
        (List.length
           (EmbeddingService.upserted
              (fst (EmbeddingService.upsert_dense_embeddings
                      (ingestion (Ok None)) accepting policy_sections 3))))
      = (Z.of_nat (List.length policy_sections) + 3 - 1) / 3).
Proof.
  apply (upsert_dense_embeddings_batches nat (ingestion (Ok None)) accepting
           policy_sections 3).
  lia.
Defined.

Lemma vector_ids_by_position_witness :
  map EmbeddingService.id
      (List.concat
         (EmbeddingService.upserted
            (fst (EmbeddingService.upsert_dense_embeddings
                    (ingestion (Ok None)) accepting
                    (firstn 2 policy_sections) 50))))
  = firstn (List.length (firstn 2 policy_sections))
      (map EmbeddingService.id
           (List.concat
              (EmbeddingService.upserted
                 (fst (EmbeddingService.upsert_dense_embeddings
                         (ingestion (Ok None)) accepting
                         policy_sections 3)))))
  /\ NoDup
       (map EmbeddingService.id
            (List.concat
               (EmbeddingService.upserted
                  (fst (EmbeddingService.upsert_dense_embeddings
                          (ingestion (Ok None)) accepting
                          (firstn 2 policy_sections) 50))))).
Proof.
  apply (vector_ids_by_position nat (ingestion (Ok None))
           (ingestion (Ok None)) accepting accepting
           (firstn 2 policy_sections) policy_sections 50 3).
  - lia.
  - lia.
  - reflexivity.
  - reflexivity.
  - vm_compute. lia.
Defined.

Lemma upsert_dense_embeddings_succeeds_witness :
  snd (EmbeddingService.upsert_dense_embeddings (ingestion (Ok None))
         accepting policy_sections 50)
  = Ok tt
  /\ Forall2 (EmbeddingService.sent_for policy_sections)
       (seq 0 (List.length policy_sections))
       (List.concat
          (EmbeddingService.upserted
             (fst (EmbeddingService.upsert_dense_embeddings
                     (ingestion (Ok None)) accepting policy_sections 50)))).
Proof.
  apply (upsert_dense_embeddings_succeeds nat (ingestion (Ok None)) accepting
           policy_sections 50).
  - lia.
  - intros section Hin. vm_compute in Hin.
    destruct Hin as [<- | [<- | [<- | [<- | []]]]]; split; discriminate.
  - intros texts. exists (map (fun _ => 0%nat) texts).
    split; [reflexivity |]. rewrite length_map. lia.
  - reflexivity.
Defined.

Lemma no_sections_nothing_indexed_witness :
  EmbeddingService.process_and_embed_document (ingestion (Ok (Some [])))
    "https://example.org/policy.pdf"
  = ([EmbeddingService.Download "https://example.org/policy.pdf" "/tmp/0.pdf";
      EmbeddingService.ParseDocument "/tmp/0.pdf"
        "models/heading_classifier_model.joblib"
        "models/label_encoder.joblib";
      EmbeddingService.Remove "/tmp/0.pdf"],
     Ok tt).
Proof.
  apply (no_sections_nothing_indexed nat (ingestion (Ok (Some [])))
           "https://example.org/policy.pdf").
  - reflexivity.
  - reflexivity.
  - right. reflexivity.
Defined.

(** *** The parser *)

Lemma parse_document_to_sections_sections_witness :
  DocumentParser.document_name parsed_section = Parsing.basename "/tmp/doc.pdf"
  /\ DocumentParser.page_number parsed_section <> None
  /\ DocumentParser.section_title parsed_section <> EmptyString
  /\ DocumentParser.full_content parsed_section
     = Some (join " > " (DocumentParser.full_path parsed_section)
             ++ ": " ++ DocumentParser.content parsed_section).
Proof.
  apply (parse_document_to_sections_sections labelled "/tmp/doc.pdf"
           "models/heading_classifier_model.joblib"
           "models/label_encoder.joblib" [parsed_section] parsed_section).
  - vm_compute. reflexivity.
  - left. reflexivity.
Defined.

Lemma parse_document_to_sections_none_witness :
  Parsing.parse_document_to_sections no_model "/tmp/doc.pdf"
    "models/heading_classifier_model.joblib" "models/label_encoder.joblib"
  = Ok None.
Proof.
  apply (parse_document_to_sections_none no_model "/tmp/doc.pdf"
           "models/heading_classifier_model.joblib"
           "models/label_encoder.joblib").
  left. eexists. reflexivity.
Defined.

(** *** The evaluation *)

Lemma scores_up_to_first_bad_value_witness :
  EvaluationService.scored judge answered
  = @EvaluationService.Build_scores QExact (9 # 10)%Q 0%Q 0%Q.
Proof.
  exact (proj2 (scores_up_to_first_bad_value judge answered
                  {| text := Ok ("```json" ++ newline ++ verdict ++ newline
                                 ++ "```") |}
                  ("```json" ++ newline ++ verdict ++ newline ++ "```")
                  rated
                  eq_refl eq_refl eq_refl)).
Defined.

Lemma no_scores_all_zero_witness :
  EvaluationService.scored exhausted answered
  = @EvaluationService.Build_scores QExact 0%Q 0%Q 0%Q.
Proof. apply (no_scores_all_zero exhausted answered). exact I. Defined.

Lemma json_response_str_fences_witness :
  EvaluationService.json_response_str
    ("```json" ++ (newline ++ verdict ++ newline) ++ "```") = verdict
  /\ EvaluationService.json_response_str
       ("```" ++ newline ++ (newline ++ verdict ++ newline) ++ "```")
     = verdict
  /\ EvaluationService.json_response_str (newline ++ verdict ++ newline)
     = verdict.
Proof.
  apply (json_response_str_fences (newline ++ verdict ++ newline)).
  reflexivity.
Defined.

End Witnesses.
